(** * The relay session of [server.c], embedded in Rocq

    The per-connection state machine of the relay server: the two heap
    records [struct server] and [struct remote], the libev watchers they own,
    and the callbacks [server_recv_cb], [server_send_cb], [remote_recv_cb],
    [remote_send_cb], [remote_timeout_cb] and [accept_cb], together with the
    allocation and tear-down helpers.

    Heap records live in two finite maps indexed by address; a pointer is an
    [option] of an address, [None] being [NULL].  Dereferencing [NULL] or a
    freed address is undefined behaviour and is an outcome of its own.  What
    the kernel answers to [recv], [send], [getpeername], [socket] and
    [accept] is an input of each dispatch. *)

From Stdlib Require Import ZArith Lia Strings.Byte DecimalString Decimal String.
From Stdlib Require Import Ascii.
From stdpp Require Import base option list gmap relations.

Set Default Proof Using "Type".

(** ** Bytes, C strings and buffers *)

(** Value of a byte read through [uint8_t *]. *)
Definition byte_val (b : byte) : Z := Z.of_N (Byte.to_N b).

(** Value of a byte read through [char] (signed, as on the usual targets). *)
Definition char_val (b : byte) : Z :=
  if decide (byte_val b < 128)%Z then byte_val b else (byte_val b - 256)%Z.

(** [sprintf(_, "%d", n)] for a non-negative [n], without the terminator. *)
Definition decimal (n : N) : list byte :=
  list_byte_of_string (NilEmpty.string_of_uint (N.to_uint n)).

(** [inet_ntoa] of the four bytes of a [struct in_addr], in memory order. *)
Definition inet_ntoa (a : list byte) : list byte :=
  match a with
  | [b1; b2; b3; b4] =>
      decimal (Byte.to_N b1) ++ "."%byte :: decimal (Byte.to_N b2) ++
      "."%byte :: decimal (Byte.to_N b3) ++ "."%byte :: decimal (Byte.to_N b4)
  | _ => []
  end.

(** The C string held by a [char] array: the bytes before the first NUL. *)
Fixpoint c_str (arr : list byte) : list byte :=
  match arr with
  | [] => []
  | b :: rest => if Byte.eqb b x00 then [] else b :: c_str rest
  end.

(** [memcpy(dst, src, length src)]; writing past the array is undefined. *)
Definition memcpy (dst src : list byte) : option (list byte) :=
  if decide (length src ≤ length dst) then Some (src ++ drop (length src) dst)
  else None.

(** The [n] bytes at [buf + i]; reading past the array is undefined. *)
Definition buf_range (buf : list byte) (i n : nat) : option (list byte) :=
  if decide (i + n ≤ length buf) then Some (take n (drop i buf)) else None.

(** The carry-over loop shared by the four send sites:
<<
    char *pt = buf; char *et = pt + n;
    while (pt + s < et) { *pt = *(pt + s); pt++; }
>>
    [pt] is the index reached so far and [k = et - (pt + s)] the number of
    iterations left, so the loop test [pt + s < et] is [0 < k]. *)
Fixpoint carry_loop (k : nat) (pt s : nat) (buf : list byte) : option (list byte) :=
  match k with
  | O => Some buf
  | S k' =>
      match buf !! (pt + s) with
      | Some b => carry_loop k' (S pt) s (<[pt := b]> buf)
      | None => None
      end
  end.

Definition carry_over (buf : list byte) (s n : nat) : option (list byte) :=
  carry_loop (n - s) 0 s buf.

(** ** The cipher interface of [encrypt.h]

    [encrypt_ctx(buf, len, ctx)] and [decrypt_ctx(buf, len, ctx)] transform
    [len] bytes in place and advance the context; the implementation is not
    part of this file and is a parameter. *)
Class Cipher := {
  enc_ctx : Type;
  enc_ctx_init : bool → enc_ctx;
  encrypt_ctx : list byte → enc_ctx → list byte * enc_ctx;
  decrypt_ctx : list byte → enc_ctx → list byte * enc_ctx;
  encrypt_ctx_length : ∀ l c, length (encrypt_ctx l c).1 = length l;
  decrypt_ctx_length : ∀ l c, length (decrypt_ctx l c).1 = length l;
}.

(** A byte-wise XOR with a fixed key byte, used to run the model. *)
Definition xor_byte (k b : byte) : byte :=
  default x00 (Byte.of_N (N.lxor (Byte.to_N k) (Byte.to_N b))).

Definition xor_crypt (k : byte) (l : list byte) (c : unit) : list byte * unit :=
  (xor_byte k <$> l, c).

Lemma xor_crypt_length (k : byte) (l : list byte) (c : unit) :
  length (xor_crypt k l c).1 = length l.
Proof. apply length_fmap. Qed.

Definition xor_cipher (k : byte) : Cipher := {|
  enc_ctx := unit;
  enc_ctx_init := λ _, tt;
  encrypt_ctx := xor_crypt k;
  decrypt_ctx := xor_crypt k;
  encrypt_ctx_length := xor_crypt_length k;
  decrypt_ctx_length := xor_crypt_length k;
|}.

(** ** Kernel answers and observable actions *)

Definition EAGAIN : Z := 11.
Definition EWOULDBLOCK : Z := EAGAIN.

(** [recv]: the bytes the kernel has for us (none at end of stream), or
    [-1] with [errno]. *)
Inductive recv_result := RecvData (data : list byte) | RecvErr (errno : Z).

(** [send]: how many bytes the kernel would take, or [-1] with [errno]. *)
Inductive send_result := SendAccept (k : nat) | SendErr (errno : Z).

(** [connect_to_remote]: [getaddrinfo] fails, or [socket] returns [fd]. *)
Inductive connect_result := GaiErr | Socket (fd : Z).

Record env := Env {
  e_accept : Z;
  e_malloc : list byte;
  e_recv : recv_result;
  e_send : send_result;
  e_getpeername : Z;
  e_connect : connect_result;
}.

Inductive event :=
  | EvClose (fd : Z)
  | EvSend (fd : Z) (data : list byte)
  | EvGetaddrinfo (host port : list byte)
  | EvConnect (fd : Z).

(** A pointer to a heap record; [NULL] is [None]. *)
Abbreviation pointer := (option positive).
Abbreviation NULL := (@None positive).

Section Relay.
Context `{Cipher}.

(** [BUF_SIZE] of [server.h]: the capacity of each forward buffer. *)
Variable BUF_SIZE : nat.

(** ** Heap records

    [struct server] and [struct remote].  The two [struct server_ctx] (resp.
    [struct remote_ctx]) a record owns are allocated and freed with it and
    are held inline: [*_recv_io] and [*_send_io] say whether the [ev_io]
    watcher of [recv_ctx] and [send_ctx] is started, [r_watcher] whether the
    connect timer of [send_ctx] runs, [r_connected] is
    [send_ctx->connected]. *)
Record server := Server {
  s_fd : Z;
  s_stage : Z;
  s_buf : list byte;
  s_buf_len : Z;
  s_recv_io : bool;
  s_send_io : bool;
  s_e_ctx : enc_ctx;
  s_d_ctx : enc_ctx;
  s_remote : pointer;
  s_timeout : Z;
}.

Record remote := Remote {
  r_fd : Z;
  r_buf : list byte;
  r_buf_len : Z;
  r_recv_io : bool;
  r_send_io : bool;
  r_watcher : bool;
  r_connected : bool;
  r_timeout : Z;
  r_server : pointer;
}.

Definition set_s_stage (v : Z) (s : server) : server :=
  Server (s_fd s) v (s_buf s) (s_buf_len s) (s_recv_io s) (s_send_io s)
    (s_e_ctx s) (s_d_ctx s) (s_remote s) (s_timeout s).
Definition set_s_buf (v : list byte) (s : server) : server :=
  Server (s_fd s) (s_stage s) v (s_buf_len s) (s_recv_io s) (s_send_io s)
    (s_e_ctx s) (s_d_ctx s) (s_remote s) (s_timeout s).
Definition set_s_buf_len (v : Z) (s : server) : server :=
  Server (s_fd s) (s_stage s) (s_buf s) v (s_recv_io s) (s_send_io s)
    (s_e_ctx s) (s_d_ctx s) (s_remote s) (s_timeout s).
Definition set_s_recv_io (v : bool) (s : server) : server :=
  Server (s_fd s) (s_stage s) (s_buf s) (s_buf_len s) v (s_send_io s)
    (s_e_ctx s) (s_d_ctx s) (s_remote s) (s_timeout s).
Definition set_s_send_io (v : bool) (s : server) : server :=
  Server (s_fd s) (s_stage s) (s_buf s) (s_buf_len s) (s_recv_io s) v
    (s_e_ctx s) (s_d_ctx s) (s_remote s) (s_timeout s).
Definition set_s_e_ctx (v : enc_ctx) (s : server) : server :=
  Server (s_fd s) (s_stage s) (s_buf s) (s_buf_len s) (s_recv_io s) (s_send_io s)
    v (s_d_ctx s) (s_remote s) (s_timeout s).
Definition set_s_d_ctx (v : enc_ctx) (s : server) : server :=
  Server (s_fd s) (s_stage s) (s_buf s) (s_buf_len s) (s_recv_io s) (s_send_io s)
    (s_e_ctx s) v (s_remote s) (s_timeout s).
Definition set_s_remote (v : pointer) (s : server) : server :=
  Server (s_fd s) (s_stage s) (s_buf s) (s_buf_len s) (s_recv_io s) (s_send_io s)
    (s_e_ctx s) (s_d_ctx s) v (s_timeout s).
Definition set_s_timeout (v : Z) (s : server) : server :=
  Server (s_fd s) (s_stage s) (s_buf s) (s_buf_len s) (s_recv_io s) (s_send_io s)
    (s_e_ctx s) (s_d_ctx s) (s_remote s) v.

Definition set_r_buf (v : list byte) (r : remote) : remote :=
  Remote (r_fd r) v (r_buf_len r) (r_recv_io r) (r_send_io r) (r_watcher r)
    (r_connected r) (r_timeout r) (r_server r).
Definition set_r_buf_len (v : Z) (r : remote) : remote :=
  Remote (r_fd r) (r_buf r) v (r_recv_io r) (r_send_io r) (r_watcher r)
    (r_connected r) (r_timeout r) (r_server r).
Definition set_r_recv_io (v : bool) (r : remote) : remote :=
  Remote (r_fd r) (r_buf r) (r_buf_len r) v (r_send_io r) (r_watcher r)
    (r_connected r) (r_timeout r) (r_server r).
Definition set_r_send_io (v : bool) (r : remote) : remote :=
  Remote (r_fd r) (r_buf r) (r_buf_len r) (r_recv_io r) v (r_watcher r)
    (r_connected r) (r_timeout r) (r_server r).
Definition set_r_watcher (v : bool) (r : remote) : remote :=
  Remote (r_fd r) (r_buf r) (r_buf_len r) (r_recv_io r) (r_send_io r) v
    (r_connected r) (r_timeout r) (r_server r).
Definition set_r_connected (v : bool) (r : remote) : remote :=
  Remote (r_fd r) (r_buf r) (r_buf_len r) (r_recv_io r) (r_send_io r) (r_watcher r)
    v (r_timeout r) (r_server r).
Definition set_r_server (v : pointer) (r : remote) : remote :=
  Remote (r_fd r) (r_buf r) (r_buf_len r) (r_recv_io r) (r_send_io r) (r_watcher r)
    (r_connected r) (r_timeout r) v.

(** ** The process state

    The two heaps, the two process-wide counters [remote_conn] and
    [server_conn] (informational, kept as unbounded integers), and the
    system calls issued so far, oldest first. *)
Record world := World {
  servers : gmap positive server;
  remotes : gmap positive remote;
  remote_conn : Z;
  server_conn : Z;
  trace : list event;
}.

Definition init_world : world := World ∅ ∅ 0 0 [].

Definition upd_servers (f : gmap positive server → gmap positive server) (w : world) : world :=
  World (f (servers w)) (remotes w) (remote_conn w) (server_conn w) (trace w).
Definition upd_remotes (f : gmap positive remote → gmap positive remote) (w : world) : world :=
  World (servers w) (f (remotes w)) (remote_conn w) (server_conn w) (trace w).
Definition upd_remote_conn (f : Z → Z) (w : world) : world :=
  World (servers w) (remotes w) (f (remote_conn w)) (server_conn w) (trace w).
Definition upd_server_conn (f : Z → Z) (w : world) : world :=
  World (servers w) (remotes w) (remote_conn w) (f (server_conn w)) (trace w).
Definition emit (ev : event) (w : world) : world :=
  World (servers w) (remotes w) (remote_conn w) (server_conn w) (trace w ++ [ev]).

(** ** The monad of a callback

    A callback either returns to the loop in a new state, ends the process
    ([FATAL], a failed [assert]), or runs into undefined behaviour. *)
Inductive outcome (A : Type) :=
  | Ok (a : A) (w : world)
  | Exit (w : world)
  | Undef.
Arguments Ok {A} a w.
Arguments Exit {A} w.
Arguments Undef {A}.

Definition M (A : Type) : Type := world → outcome A.

#[export] Instance M_ret : MRet M := λ A a w, Ok a w.
#[export] Instance M_bind : MBind M := λ A B k m w,
  match m w with
  | Ok a w' => k a w'
  | Exit w' => Exit w'
  | Undef => Undef
  end.

Definition undef {A} : M A := λ _, Undef.
Definition FATAL {A} : M A := λ w, Exit w.
Definition assert (b : bool) : M unit := if b then mret tt else FATAL.
Definition lift {A} (o : option A) : M A := from_option mret undef o.
Definition modify (f : world → world) : M unit := λ w, Ok tt (f w).

Definition get_server (p : pointer) : M server :=
  λ w, match p with
       | Some a => from_option (λ s, Ok s w) Undef (servers w !! a)
       | None => Undef
       end.
Definition get_remote (p : pointer) : M remote :=
  λ w, match p with
       | Some a => from_option (λ r, Ok r w) Undef (remotes w !! a)
       | None => Undef
       end.

(** An assignment to a field through a pointer. *)
Definition modify_server (p : pointer) (f : server → server) : M unit :=
  s ← get_server p;
  modify (upd_servers (from_option (λ a, <[a := f s]>) id p)).
Definition modify_remote (p : pointer) (f : remote → remote) : M unit :=
  r ← get_remote p;
  modify (upd_remotes (from_option (λ a, <[a := f r]>) id p)).

(** [free]: the address leaves the heap; freeing what is not allocated is
    undefined ([free(NULL)] does not occur in the code). *)
Definition free_server_mem (p : pointer) : M unit :=
  _ ← get_server p;
  modify (upd_servers (from_option delete id p)).
Definition free_remote_mem (p : pointer) : M unit :=
  _ ← get_remote p;
  modify (upd_remotes (from_option delete id p)).

(** ** libev watchers *)
Inductive ev_io :=
  | server_recv_io (p : pointer)
  | server_send_io (p : pointer)
  | remote_recv_io (p : pointer)
  | remote_send_io (p : pointer).

Definition ev_io_set (v : bool) (io : ev_io) : M unit :=
  match io with
  | server_recv_io p => modify_server p (set_s_recv_io v)
  | server_send_io p => modify_server p (set_s_send_io v)
  | remote_recv_io p => modify_remote p (set_r_recv_io v)
  | remote_send_io p => modify_remote p (set_r_send_io v)
  end.
Definition ev_io_start : ev_io → M unit := ev_io_set true.
Definition ev_io_stop : ev_io → M unit := ev_io_set false.

(** The timer [remote->send_ctx->watcher]. *)
Definition ev_timer_start (p : pointer) : M unit := modify_remote p (set_r_watcher true).
Definition ev_timer_stop (p : pointer) : M unit := modify_remote p (set_r_watcher false).


(** ** System calls *)

Local Open Scope Z_scope.

Inductive bufref := server_buf (p : pointer) | remote_buf (p : pointer).

Definition load_buf (b : bufref) : M (list byte) :=
  match b with
  | server_buf p => s ← get_server p; mret (s_buf s)
  | remote_buf p => r ← get_remote p; mret (r_buf r)
  end.
Definition store_buf (b : bufref) (v : list byte) : M unit :=
  match b with
  | server_buf p => modify_server p (set_s_buf v)
  | remote_buf p => modify_remote p (set_r_buf v)
  end.

Definition would_block (errno : Z) : bool :=
  bool_decide (errno = EAGAIN ∨ errno = EWOULDBLOCK).

(** [recv(fd, buf, BUF_SIZE, 0)]: at most [BUF_SIZE] of the bytes at hand
    are stored at the start of [buf] and counted; [0] is end of stream. *)
Definition recv (buf : bufref) (res : recv_result) : M Z :=
  match res with
  | RecvData data =>
      match take BUF_SIZE data with
      | [] => mret 0
      | got =>
          old ← load_buf buf;
          new ← lift (memcpy old got);
          store_buf buf new;;
          mret (Z.of_nat (length got))
      end
  | RecvErr _ => mret (-1)
  end.
Definition recv_errno (res : recv_result) : Z :=
  match res with RecvData _ => 0 | RecvErr errno => errno end.

(** [send(fd, buf, n, 0)]: the kernel takes a prefix of the [n] bytes. *)
Definition send (fd : Z) (buf : list byte) (n : Z) (res : send_result) : M Z :=
  data ← lift (buf_range buf 0 (Z.to_nat n));
  match res with
  | SendAccept k =>
      let s := (k `min` length data)%nat in
      modify (emit (EvSend fd (take s data)));;
      mret (Z.of_nat s)
  | SendErr _ => mret (-1)
  end.
Definition send_errno (res : send_result) : Z :=
  match res with SendAccept _ => 0 | SendErr errno => errno end.

Definition close (fd : Z) : M unit := modify (emit (EvClose fd)).

(** [decrypt_ctx(buf, r, server->d_ctx)] and
    [encrypt_ctx(buf, r, server->e_ctx)], in place. *)
Definition decrypt_in_place (buf : bufref) (r : Z) (server : pointer) : M unit :=
  s ← get_server server;
  old ← load_buf buf;
  input ← lift (buf_range old 0 (Z.to_nat r));
  new ← lift (memcpy old (decrypt_ctx input (s_d_ctx s)).1);
  store_buf buf new;;
  modify_server server (set_s_d_ctx (decrypt_ctx input (s_d_ctx s)).2).

Definition encrypt_in_place (buf : bufref) (r : Z) (server : pointer) : M unit :=
  s ← get_server server;
  old ← load_buf buf;
  input ← lift (buf_range old 0 (Z.to_nat r));
  new ← lift (memcpy old (encrypt_ctx input (s_e_ctx s)).1);
  store_buf buf new;;
  modify_server server (set_s_e_ctx (encrypt_ctx input (s_e_ctx s)).2).

(** The carry-over loop on a buffer of the heap. *)
Definition carry (buf : bufref) (s n : Z) : M unit :=
  old ← load_buf buf;
  new ← lift (carry_over old (Z.to_nat s) (Z.to_nat n));
  store_buf buf new.

(** ** Allocation and tear-down *)

(** [malloc]: an address that is not in use; the memory handed out holds
    arbitrary bytes ([garbage], cut or padded to the size asked for).

    The allocation is taken to succeed.  The source does not test what
    [malloc] returns: [new_remote] (lines 491-494) and [new_server] (lines
    535-538) store through the result at once, so a [malloc] that returns
    [NULL] is undefined behaviour there.  What is proved of [accept_cb] and
    of the first read describes the runs in which the allocation succeeds,
    and the statement that the callbacks return to the loop is made of the
    paths that allocate nothing. *)
Definition malloc_remote (r : remote) : M pointer :=
  λ w, let a := fresh (dom (remotes w)) in Ok (Some a) (upd_remotes <[a := r]> w).
Definition malloc_server (s : server) : M pointer :=
  λ w, let a := fresh (dom (servers w)) in Ok (Some a) (upd_servers <[a := s]> w).

Definition new_remote (fd : Z) (timeout : Z) (garbage : list byte) : M pointer :=
  modify (upd_remote_conn (λ n, n + 1));;
  malloc_remote
    (Remote fd (resize BUF_SIZE x00 garbage) 0 false false false false timeout NULL).

Definition free_remote (remote : pointer) : M unit :=
  modify (upd_remote_conn (λ n, n - 1));;
  if remote is None then mret tt
  else
    r ← get_remote remote;
    (if r_server r is None then mret tt
     else modify_server (r_server r) (set_s_remote NULL));;
    free_remote_mem remote.

Definition close_and_free_remote (remote : pointer) : M unit :=
  if remote is None then mret tt
  else
    ev_timer_stop remote;;
    ev_io_stop (remote_send_io remote);;
    ev_io_stop (remote_recv_io remote);;
    r ← get_remote remote;
    close (r_fd r);;
    free_remote remote.

Definition new_server (fd : Z) (garbage : list byte) : M pointer :=
  modify (upd_server_conn (λ n, n + 1));;
  malloc_server
    (Server fd 0 (resize BUF_SIZE x00 garbage) 0 false false
       (enc_ctx_init true) (enc_ctx_init false) NULL 0).

Definition free_server (server : pointer) : M unit :=
  modify (upd_server_conn (λ n, n - 1));;
  if server is None then mret tt
  else
    s ← get_server server;
    (if s_remote s is None then mret tt
     else modify_remote (s_remote s) (set_r_server NULL));;
    free_server_mem server.

Definition close_and_free_server (server : pointer) : M unit :=
  if server is None then mret tt
  else
    ev_io_stop (server_send_io server);;
    ev_io_stop (server_recv_io server);;
    s ← get_server server;
    close (s_fd s);;
    free_server server.

(** [connect_to_remote]: resolve, create the socket and the [struct remote],
    and start the non-blocking connect. *)
Definition connect_to_remote (remote_host remote_port : list byte) (timeout : Z)
    (e : env) : M pointer :=
  modify (emit (EvGetaddrinfo (c_str remote_host) (c_str remote_port)));;
  match e_connect e with
  | GaiErr => mret NULL
  | Socket sockfd =>
      if decide (sockfd < 0) then close sockfd;; mret NULL
      else
        remote ← new_remote sockfd timeout (e_malloc e);
        modify (emit (EvConnect sockfd));;
        mret remote
  end.


(** ** The callbacks

    Each takes the record its watcher belongs to (the [server] or [remote]
    field of the context the watcher sits in) and the kernel's answers. *)

Definition server_recv_cb (server : pointer) (e : env) : M unit :=
  sv ← get_server server;
  let remote := if decide (s_stage sv ≠ 0) then s_remote sv else NULL in
  let buf := if decide (s_stage sv ≠ 0) then remote_buf remote else server_buf server in
  r ← recv buf (e_recv e);
  if decide (r = 0) then
    (* connection closed *)
    close_and_free_remote remote;;
    close_and_free_server server
  else if decide (r < 0) then
    if would_block (recv_errno (e_recv e)) then mret tt
    else
      close_and_free_remote remote;;
      close_and_free_server server
  else
    decrypt_in_place buf r server;;
    sv ← get_server server;
    if decide (s_stage sv = 5) then
      rm ← get_remote remote;
      s ← send (r_fd rm) (r_buf rm) r (e_send e);
      if decide (s = -1) then
        if would_block (send_errno (e_send e)) then
          (* no data, wait for send *)
          modify_remote remote (set_r_buf_len r);;
          ev_io_stop (server_recv_io server);;
          ev_io_start (remote_send_io remote)
        else
          close_and_free_remote remote;;
          close_and_free_server server
      else if decide (s < r) then
        carry (remote_buf remote) s r;;
        modify_remote remote (set_r_buf_len (r - s));;
        rm ← get_remote remote;
        assert (bool_decide (r_buf_len rm >= 0));;
        ev_io_stop (server_recv_io server);;
        ev_io_start (remote_send_io remote)
      else mret tt
    else if decide (s_stage sv = 0) then
      let offset := 0%nat in
      atyp ← lift (char_val <$> s_buf sv !! offset);
      let offset := S offset in
      let host := replicate 256 x00 in
      (* get remote addr and port *)
      addr ← (if decide (atyp = 1) then
                (* IP V4 *)
                a ← lift (inet_ntoa <$> buf_range (s_buf sv) offset 4);
                host ← lift (memcpy host a);
                mret (Some (host, (offset + 4)%nat))
              else if decide (atyp = 3) then
                (* Domain name *)
                name_len ← lift (Z.to_nat ∘ byte_val <$> s_buf sv !! offset);
                name ← lift (buf_range (s_buf sv) (offset + 1) name_len);
                host ← lift (memcpy host name);
                mret (Some (host, (offset + (name_len + 1))%nat))
              else mret None);
      match addr with
      | None =>
          close_and_free_remote remote;;
          close_and_free_server server
      | Some (host, offset) =>
          hi ← lift (byte_val <$> s_buf sv !! offset);
          lo ← lift (byte_val <$> s_buf sv !! S offset);
          let offset := S (S offset) in
          let p := 0 + Z.shiftl hi 8 in
          let p := p + lo in
          let port := decimal (Z.to_N p) in
          remote ← connect_to_remote host port (s_timeout sv) e;
          if remote is None then close_and_free_server server
          else
            modify_server server (set_s_remote remote);;
            modify_remote remote (set_r_server server);;
            (* listen to remote connected event *)
            ev_io_stop (server_recv_io server);;
            ev_io_start (remote_send_io remote);;
            ev_timer_start remote;;
            (if decide (r > Z.of_nat offset) then
               modify_remote remote (set_r_buf_len (r - Z.of_nat offset));;
               rm ← get_remote remote;
               sv ← get_server server;
               src ← lift (buf_range (s_buf sv) offset (Z.to_nat (r_buf_len rm)));
               new ← lift (memcpy (r_buf rm) src);
               store_buf (remote_buf remote) new
             else mret tt);;
            modify_server server (set_s_stage 4)
      end
    else
      (* should not reach here *)
      FATAL.

Definition server_send_cb (server : pointer) (e : env) : M unit :=
  sv ← get_server server;
  let remote := s_remote sv in
  if remote is None then close_and_free_server server
  else if decide (s_buf_len sv = 0) then
    (* close and free *)
    close_and_free_remote remote;;
    close_and_free_server server
  else
    (* has data to send *)
    s ← send (s_fd sv) (s_buf sv) (s_buf_len sv) (e_send e);
    if decide (s < 0) then
      if negb (would_block (send_errno (e_send e))) then
        close_and_free_remote remote;;
        close_and_free_server server
      else mret tt
    else if decide (s < s_buf_len sv) then
      (* partly sent, move memory, wait for the next time to send *)
      carry (server_buf server) s (s_buf_len sv);;
      modify_server server (set_s_buf_len (s_buf_len sv - s));;
      sv ← get_server server;
      assert (bool_decide (s_buf_len sv >= 0))
    else
      (* all sent out, wait for reading *)
      modify_server server (set_s_buf_len 0);;
      ev_io_stop (server_send_io server);;
      if remote is None then
        close_and_free_remote remote;;
        close_and_free_server server
      else ev_io_start (remote_recv_io remote).

(** libev stops a timer without repeat before it runs its callback; the
    callback then stops it once more. *)
Definition remote_timeout_cb (remote : pointer) : M unit :=
  rm ← get_remote remote;
  let server := r_server rm in
  ev_timer_stop remote;;
  close_and_free_remote remote;;
  close_and_free_server server.

Definition remote_recv_cb (remote : pointer) (e : env) : M unit :=
  rm ← get_remote remote;
  let server := r_server rm in
  if server is None then close_and_free_remote remote
  else
    r ← recv (server_buf server) (e_recv e);
    if decide (r = 0) then
      (* connection closed *)
      close_and_free_remote remote;;
      close_and_free_server server
    else if decide (r < 0) then
      if would_block (recv_errno (e_recv e)) then mret tt
      else
        close_and_free_remote remote;;
        close_and_free_server server
    else
      encrypt_in_place (server_buf server) r server;;
      sv ← get_server server;
      s ← send (s_fd sv) (s_buf sv) r (e_send e);
      if decide (s = -1) then
        if would_block (send_errno (e_send e)) then
          (* no data, wait for send *)
          modify_server server (set_s_buf_len r);;
          ev_io_stop (remote_recv_io remote);;
          ev_io_start (server_send_io server)
        else
          close_and_free_remote remote;;
          close_and_free_server server
      else if decide (s < r) then
        carry (server_buf server) s r;;
        modify_server server (set_s_buf_len (r - s));;
        sv ← get_server server;
        assert (bool_decide (s_buf_len sv >= 0));;
        ev_io_stop (remote_recv_io remote);;
        ev_io_start (server_send_io server)
      else mret tt.

(** The block [if (!remote_send_ctx->connected) { ... }] of
    [remote_send_cb]: the answer is [true] when the block has returned from
    the callback, [false] when control goes on below the block. *)
Definition remote_send_connect (remote server : pointer) (e : env) : M bool :=
  let r := e_getpeername e in
  if decide (r = 0) then
    modify_remote remote (set_r_connected true);;
    ev_timer_stop remote;;
    ev_io_start (remote_recv_io remote);;
    modify_server server (set_s_stage 5);;
    rm ← get_remote remote;
    if decide (r_buf_len rm = 0) then
      ev_io_stop (remote_send_io remote);;
      ev_io_start (server_recv_io server);;
      mret true
    else mret false
  else
    (* not connected *)
    close_and_free_remote remote;;
    close_and_free_server server;;
    mret true.

(** The rest of [remote_send_cb], from [if (remote->buf_len == 0)] on. *)
Definition remote_send_flush (remote server : pointer) (e : env) : M unit :=
  rm ← get_remote remote;
  if decide (r_buf_len rm = 0) then
    (* close and free *)
    close_and_free_remote remote;;
    close_and_free_server server
  else
    (* has data to send *)
    s ← send (r_fd rm) (r_buf rm) (r_buf_len rm) (e_send e);
    if decide (s < 0) then
      if negb (would_block (send_errno (e_send e))) then
        close_and_free_remote remote;;
        close_and_free_server server
      else mret tt
    else if decide (s < r_buf_len rm) then
      (* partly sent, move memory, wait for the next time to send *)
      carry (remote_buf remote) s (r_buf_len rm);;
      modify_remote remote (set_r_buf_len (r_buf_len rm - s));;
      rm ← get_remote remote;
      assert (bool_decide (r_buf_len rm >= 0))
    else
      (* all sent out, wait for reading *)
      modify_remote remote (set_r_buf_len 0);;
      ev_io_stop (remote_send_io remote);;
      if server is None then
        close_and_free_remote remote;;
        close_and_free_server server
      else ev_io_start (server_recv_io server).

Definition remote_send_cb (remote : pointer) (e : env) : M unit :=
  rm ← get_remote remote;
  let server := r_server rm in
  if server is None then close_and_free_remote remote
  else
    returned ← (if r_connected rm then mret false
                else remote_send_connect remote server e);
    if returned : bool then mret tt
    else remote_send_flush remote server e.

(** [accept_cb] of a listener whose connect timeout is [timeout]. *)
Definition accept_cb (timeout : Z) (e : env) : M unit :=
  let serverfd := e_accept e in
  if decide (serverfd = -1) then mret tt
  else
    server ← new_server serverfd (e_malloc e);
    modify_server server (set_s_timeout timeout);;
    ev_io_start (server_recv_io server).

(** ** The event loop

    libev runs the callback of a watcher only while the watcher is started;
    a run that ends the process or is undefined has no successor. *)
Inductive dispatch : world → world → Prop :=
  | dispatch_accept timeout e w w' :
      accept_cb timeout e w = Ok tt w' →
      dispatch w w'
  | dispatch_server_recv a sv e w w' :
      servers w !! a = Some sv → s_recv_io sv = true →
      server_recv_cb (Some a) e w = Ok tt w' →
      dispatch w w'
  | dispatch_server_send a sv e w w' :
      servers w !! a = Some sv → s_send_io sv = true →
      server_send_cb (Some a) e w = Ok tt w' →
      dispatch w w'
  | dispatch_remote_recv a rm e w w' :
      remotes w !! a = Some rm → r_recv_io rm = true →
      remote_recv_cb (Some a) e w = Ok tt w' →
      dispatch w w'
  | dispatch_remote_send a rm e w w' :
      remotes w !! a = Some rm → r_send_io rm = true →
      remote_send_cb (Some a) e w = Ok tt w' →
      dispatch w w'
  | dispatch_remote_timeout a rm w w' :
      remotes w !! a = Some rm → r_watcher rm = true →
      remote_timeout_cb (Some a) w = Ok tt w' →
      dispatch w w'.

Definition reachable (w : world) : Prop := rtc dispatch init_world w.

End Relay.

Arguments Ok {_ _} _ _.
Arguments Exit {_ _} _.
Arguments Undef {_ _}.

(** * Vocabulary of the statements *)

Section Predicates.
Context `{Cipher} (BUF_SIZE : nat).
Implicit Types (w : world) (sa ra : positive) (sv : server) (rm : remote).

Local Open Scope Z_scope.

(** The two records point at each other. *)
Definition linked w sa sv ra rm : Prop :=
  servers w !! sa = Some sv ∧ remotes w !! ra = Some rm ∧
  s_remote sv = Some ra ∧ r_server rm = Some sa.

(** Every peer pointer that is not [NULL] refers to a live record that
    points back. *)
Definition links_ok w : Prop :=
  (∀ sa sv ra, servers w !! sa = Some sv → s_remote sv = Some ra →
     ∃ rm, remotes w !! ra = Some rm ∧ r_server rm = Some sa) ∧
  (∀ ra rm sa, remotes w !! ra = Some rm → r_server rm = Some sa →
     ∃ sv, servers w !! sa = Some sv ∧ s_remote sv = Some ra).

(** The state after both records of a session are closed and freed. *)
Definition closed_pair w sa sv ra rm : world :=
  World (delete sa (servers w)) (delete ra (remotes w))
    (remote_conn w - 1) (server_conn w - 1)
    (trace w ++ [EvClose (r_fd rm); EvClose (s_fd sv)]).

Definition closed_server w sa sv : world :=
  World (delete sa (servers w)) (remotes w) (remote_conn w) (server_conn w - 1)
    (trace w ++ [EvClose (s_fd sv)]).

(** The three live stages of a session: [stage == 0] (awaiting the header),
    [stage == 4] (awaiting the upstream connect) and [stage == 5]
    (streaming), with the watchers each of them leaves started. *)
Definition stage0 sv : Prop :=
  s_stage sv = 0 ∧ s_remote sv = NULL ∧ s_recv_io sv = true ∧
  s_send_io sv = false ∧ s_buf_len sv = 0.

Definition awaiting sv rm : Prop :=
  s_stage sv = 4 ∧ s_recv_io sv = false ∧ s_send_io sv = false ∧
  s_buf_len sv = 0 ∧ r_recv_io rm = false ∧ r_send_io rm = true ∧
  r_watcher rm = true ∧ r_connected rm = false ∧
  0 ≤ r_buf_len rm ≤ Z.of_nat BUF_SIZE.

Definition streaming sv rm : Prop :=
  s_stage sv = 5 ∧ r_connected rm = true ∧ r_watcher rm = false ∧
  0 ≤ r_buf_len rm ≤ Z.of_nat BUF_SIZE ∧ 0 ≤ s_buf_len sv ≤ Z.of_nat BUF_SIZE ∧
  s_recv_io sv = bool_decide (r_buf_len rm = 0) ∧
  r_send_io rm = negb (bool_decide (r_buf_len rm = 0)) ∧
  r_recv_io rm = bool_decide (s_buf_len sv = 0) ∧
  s_send_io sv = negb (bool_decide (s_buf_len sv = 0)).

Definition server_inv w sa sv : Prop :=
  length (s_buf sv) = BUF_SIZE ∧
  (stage0 sv ∨
   ∃ ra rm, s_remote sv = Some ra ∧ remotes w !! ra = Some rm ∧
     r_server rm = Some sa ∧ length (r_buf rm) = BUF_SIZE ∧
     (awaiting sv rm ∨ streaming sv rm)).

Definition remote_inv w ra rm : Prop :=
  ∃ sa sv, r_server rm = Some sa ∧ servers w !! sa = Some sv ∧ s_remote sv = Some ra.

Definition world_inv w : Prop :=
  (∀ sa sv, servers w !! sa = Some sv → server_inv w sa sv) ∧
  (∀ ra rm, remotes w !! ra = Some rm → remote_inv w ra rm).

Definition pair_owned w sa ra : Prop :=
  (∀ sv, servers w !! sa = Some sv → s_remote sv = NULL ∨ s_remote sv = Some ra) ∧
  (∀ rm, remotes w !! ra = Some rm → r_server rm = Some sa).

(** The client buffer after the first read was stored and decrypted in
    place: the decrypted bytes, then what the buffer held before. *)
Definition decrypted_buf (buf got : list byte) (c : enc_ctx) : list byte :=
  (decrypt_ctx got c).1 ++ drop (length got) buf.

(** The address header as the protocol lays it out: the target host, the
    target port in decimal, and the length of the header. *)
Definition header_target (buf : list byte) : option (list byte * list byte * nat) :=
  match buf !! 0%nat with
  | None => None
  | Some atyp =>
      if decide (char_val atyp = 1) then
        match buf_range buf 1 4, buf !! 5%nat, buf !! 6%nat with
        | Some a, Some hi, Some lo =>
            Some (inet_ntoa a,
                  decimal (Z.to_N (256 * byte_val hi + byte_val lo)), 7%nat)
        | _, _, _ => None
        end
      else if decide (char_val atyp = 3) then
        match buf !! 1%nat with
        | None => None
        | Some len =>
            let L := Z.to_nat (byte_val len) in
            match buf_range buf 2 L, buf !! (2 + L)%nat, buf !! (3 + L)%nat with
            | Some name, Some hi, Some lo =>
                Some (c_str name,
                      decimal (Z.to_N (256 * byte_val hi + byte_val lo)),
                      (4 + L)%nat)
            | _, _, _ => None
            end
        end
      else None
  end.

(** The state in which a successful header parse leaves the session:
    [got] are the bytes of the first read, [offset] is the header length. *)
Definition awaiting_upstream (w : world) (sa : positive) (sv : server)
    (e : env) (fd : Z) (got : list byte) (offset : nat)
    (host port : list byte) : world :=
  let ra := fresh (dom (remotes w)) in
  let fresh_buf := resize BUF_SIZE x00 (e_malloc e) in
  let dbuf := decrypted_buf (s_buf sv) got (s_d_ctx sv) in
  let payload := take (length got - offset) (drop offset dbuf) in
  World
    (<[sa := Server (s_fd sv) 4 dbuf (s_buf_len sv) false (s_send_io sv)
               (s_e_ctx sv) (decrypt_ctx got (s_d_ctx sv)).2
               (Some ra) (s_timeout sv)]> (servers w))
    (<[ra := Remote fd (payload ++ drop (length payload) fresh_buf)
               (Z.of_nat (length got - offset)) false true true false
               (s_timeout sv) (Some sa)]> (remotes w))
    (remote_conn w + 1) (server_conn w)
    (trace w ++ [EvGetaddrinfo host port; EvConnect fd]).

(** The state after a header parse that ends in tear-down: [events] are
    the system calls issued before the client socket is closed. *)
Definition header_closed (w : world) (sa : positive) (sv : server)
    (events : list event) : world :=
  World (delete sa (servers w)) (remotes w) (remote_conn w) (server_conn w - 1)
    (trace w ++ events ++ [EvClose (s_fd sv)]).

(** What the first read does once the header is parsed, by the answer of
    [getaddrinfo] and [socket]. *)
Definition header_outcome (w : world) (sa : positive) (sv : server)
    (e : env) (got : list byte) (offset : nat) (host port : list byte) : world :=
  match e_connect e with
  | GaiErr => header_closed w sa sv [EvGetaddrinfo host port]
  | Socket fd =>
      if decide (fd < 0)
      then header_closed w sa sv [EvGetaddrinfo host port; EvClose fd]
      else awaiting_upstream w sa sv e fd got offset host port
  end.

(** The one path of [server_recv_cb] that allocates: a first read that
    brings an address type of 1 or 3, with [getaddrinfo] succeeding and
    [socket] giving a descriptor, goes on to [new_remote]. *)
Definition reaches_new_remote sv (e : env) : Prop :=
  s_stage sv = 0 ∧
  ∃ data atyp fd,
    e_recv e = RecvData data ∧ take BUF_SIZE data ≠ [] ∧
    decrypted_buf (s_buf sv) (take BUF_SIZE data) (s_d_ctx sv) !! 0%nat
      = Some atyp ∧
    (char_val atyp = 1 ∨ char_val atyp = 3) ∧
    e_connect e = Socket fd ∧ 0 ≤ fd.

End Predicates.

(** * Vocabulary of the statements about whole runs *)

Section Steps.
Context `{Cipher}.
Implicit Types (w : world) (sa ra : positive) (sv : server) (rm : remote).

Local Open Scope Z_scope.

(** A callback has returned to the loop, and neither counter has grown:
    the run went through no [new_server] and no [new_remote], the only
    places where a counter is incremented and where memory is allocated. *)
Definition returns_no_alloc {A} w (o : outcome A) : Prop :=
  match o with
  | Ok _ w' => server_conn w' ≤ server_conn w ∧ remote_conn w' ≤ remote_conn w
  | _ => False
  end.

(** The same callback dispatched once for each of a list of kernel
    answers. *)
Fixpoint run_all (cb : env → M unit) (es : list env) : M unit :=
  match es with
  | [] => mret tt
  | e :: es => cb e;; run_all cb es
  end.

(** The two counters agree with the heap. *)
Definition counters_ok w : Prop :=
  server_conn w = Z.of_nat (size (servers w)) ∧
  remote_conn w = Z.of_nat (size (remotes w)).

(** A server record keeps its socket, and its stage stays or goes one
    step on. *)
Definition advances sv sv' : Prop :=
  s_fd sv' = s_fd sv ∧
  (s_stage sv' = s_stage sv ∨ (s_stage sv = 0 ∧ s_stage sv' = 4) ∨
   (s_stage sv = 4 ∧ s_stage sv' = 5)).

(** The records of the sessions other than [sa] are as they were. *)
Definition others_kept w w' sa : Prop :=
  (∀ a sv0, a ≠ sa → servers w !! a = Some sv0 → servers w' !! a = Some sv0) ∧
  (∀ a rm0, r_server rm0 ≠ Some sa → remotes w !! a = Some rm0 →
     remotes w' !! a = Some rm0).

(** The sockets of the records that are gone have been closed. *)
Definition closes_freed w w' : Prop :=
  ∃ evs, trace w' = trace w ++ evs ∧
    (∀ a sv, servers w !! a = Some sv → servers w' !! a = None →
       EvClose (s_fd sv) ∈ evs) ∧
    (∀ a rm, remotes w !! a = Some rm → remotes w' !! a = None →
       EvClose (r_fd rm) ∈ evs).

(** What one callback of the session [sa] does to the process. *)
Definition step_post w sa w' : Prop :=
  (counters_ok w → counters_ok w') ∧
  others_kept w w' sa ∧
  (∀ sv sv', servers w !! sa = Some sv → servers w' !! sa = Some sv' →
     advances sv sv') ∧
  closes_freed w w'.

End Steps.

(** * Start-up: the listening socket

    [setnonblocking] and [create_and_bind].  Each function gives its result
    and the calls it has made, oldest first; what the kernel answers is an
    argument. *)

Module Startup.

Local Open Scope Z_scope.

Inductive sys_call :=
  | SysGetfl (fd : Z)
  | SysSetfl (fd flags : Z)
  | SysGetaddrinfo (host port : string)
  | SysSocket (fd : Z)
  | SysSetsockopt (fd : Z)
  | SysBind (fd : Z)
  | SysClose (fd : Z)
  | SysFreeaddrinfo.

(** [setnonblocking]: [getfl] and [setfl] are what the two [fcntl] calls
    return, [O_NONBLOCK] is the constant of [fcntl.h]. *)
Definition setnonblocking (O_NONBLOCK : Z) (fd : Z) (getfl setfl : Z) :
    Z * list sys_call :=
  let flags := getfl in
  let flags := if decide (-1 = flags) then 0 else flags in
  (setfl, [SysGetfl fd; SysSetfl fd (Z.lor flags O_NONBLOCK)]).

(** An entry of the list [getaddrinfo] stores, with what the kernel
    answers to [socket], [setsockopt] and [bind] for it; a failure of
    [setsockopt] is reported and has no other effect. *)
Record candidate := Candidate {
  k_socket : Z;
  k_setsockopt : Z;
  k_bind : Z;
}.

(** The loop [for (rp = result; rp != NULL; rp = rp->ai_next)] of
    [create_and_bind]: the answer is [listen_sock] when the loop ends by
    [break], and [None] when it ends with [rp == NULL]. *)
Fixpoint bind_loop (rp : list candidate) : option Z * list sys_call :=
  match rp with
  | [] => (None, [])
  | ai :: ai_next =>
      let listen_sock := k_socket ai in
      if decide (listen_sock = -1) then
        let '(found, calls) := bind_loop ai_next in
        (found, SysSocket listen_sock :: calls)
      else
        let s := k_bind ai in
        if decide (s = 0) then
          (Some listen_sock,
           [SysSocket listen_sock; SysSetsockopt listen_sock; SysBind listen_sock])
        else
          let '(found, calls) := bind_loop ai_next in
          (found,
           SysSocket listen_sock :: SysSetsockopt listen_sock ::
           SysBind listen_sock :: SysClose listen_sock :: calls)
  end.

(** [create_and_bind]: [gai] and [result] are what [getaddrinfo] returns
    and stores. *)
Definition create_and_bind (host port : string) (gai : Z)
    (result : list candidate) : Z * list sys_call :=
  let s := gai in
  if decide (s ≠ 0) then (-1, [SysGetaddrinfo host port])
  else
    match bind_loop result with
    | (None, calls) => (-1, SysGetaddrinfo host port :: calls)
    | (Some listen_sock, calls) =>
        (listen_sock, SysGetaddrinfo host port :: calls ++ [SysFreeaddrinfo])
    end.

(** The sockets a run has created and the ones it has closed, in order. *)
Definition opened (calls : list sys_call) : list Z :=
  omap (λ c, match c with
             | SysSocket fd => if decide (fd = -1) then None else Some fd
             | _ => None
             end) calls.
Definition closed (calls : list sys_call) : list Z :=
  omap (λ c, match c with SysClose fd => Some fd | _ => None end) calls.

(** A candidate the loop stops at: it has a socket and [bind] succeeds. *)
Definition usable (ai : candidate) : Prop := k_socket ai ≠ -1 ∧ k_bind ai = 0.

(** A host with one address that is in use and one that is free. *)
Definition two_addresses : list candidate :=
  [Candidate (-1) 0 0; Candidate 5 0 (-1); Candidate 6 0 0; Candidate 7 0 0].

End Startup.

(** * Start-up: the settings

    [main], from its start to the default of [timeout]. *)

Module Settings.

Local Open Scope Z_scope.

(** The locals of [main] that hold the settings; a [char *] that is [NULL]
    is [None], and [server_num] is the length of [server_host]. *)
Record settings := Settings {
  server_host : list string;
  server_port : option string;
  password : option string;
  timeout : option string;
  method : option string;
  pid_flags : bool;
  pid_path : option string;
  conf_path : option string;
  verbose : bool;
}.

Definition no_settings : settings :=
  Settings [] None None None None false None None false.

(** The fields of [jconf_t] that [main] reads; [remote_num] is the length
    of [j_remote_host]. *)
Record jconf := Jconf {
  j_remote_host : list string;
  j_remote_port : option string;
  j_password : option string;
  j_method : option string;
  j_timeout : option string;
}.

(** [main] has printed the usage and left with [EXIT_FAILURE], has its
    settings, or has stored past the array [server_host]. *)
Inductive startup :=
  | UsageExit
  | Configured (v : settings)
  | Undefined.

Section Main.

(** [MAX_REMOTE_NUM], the size of the array [server_host]. *)
Variable MAX_REMOTE_NUM : nat.

(** [server_host[server_num++] = optarg]. *)
Definition push_host (optarg : string) (v : settings) : option settings :=
  if decide (length (server_host v) < MAX_REMOTE_NUM)%nat then
    Some (Settings (server_host v ++ [optarg]) (server_port v) (password v)
            (timeout v) (method v) (pid_flags v) (pid_path v) (conf_path v)
            (verbose v))
  else None.

(** The [switch (c)] of the option loop. *)
Definition option_case (c : ascii) (optarg : string) (v : settings) :
    option settings :=
  match c with
  | "s"%char => push_host optarg v
  | "p"%char =>
      Some (Settings (server_host v) (Some optarg) (password v) (timeout v)
              (method v) (pid_flags v) (pid_path v) (conf_path v) (verbose v))
  | "k"%char =>
      Some (Settings (server_host v) (server_port v) (Some optarg) (timeout v)
              (method v) (pid_flags v) (pid_path v) (conf_path v) (verbose v))
  | "f"%char =>
      Some (Settings (server_host v) (server_port v) (password v) (timeout v)
              (method v) true (Some optarg) (conf_path v) (verbose v))
  | "t"%char =>
      Some (Settings (server_host v) (server_port v) (password v) (Some optarg)
              (method v) (pid_flags v) (pid_path v) (conf_path v) (verbose v))
  | "m"%char =>
      Some (Settings (server_host v) (server_port v) (password v) (timeout v)
              (Some optarg) (pid_flags v) (pid_path v) (conf_path v) (verbose v))
  | "c"%char =>
      Some (Settings (server_host v) (server_port v) (password v) (timeout v)
              (method v) (pid_flags v) (pid_path v) (Some optarg) (verbose v))
  | "v"%char =>
      Some (Settings (server_host v) (server_port v) (password v) (timeout v)
              (method v) (pid_flags v) (pid_path v) (conf_path v) true)
  | _ => Some v
  end.

(** [while ((c = getopt (...)) != -1) switch (c) ...]: [args] are the
    option characters [getopt] returns before [-1], each with [optarg]. *)
Fixpoint getopt_loop (args : list (ascii * string)) (v : settings) :
    option settings :=
  match args with
  | [] => Some v
  | (c, optarg) :: args => option_case c optarg v ≫= getopt_loop args
  end.

(** The block [if (conf_path != NULL) { ... }], after [read_jconf]. *)
Definition apply_conf (conf : jconf) (v : settings) : option settings :=
  hosts ← (if decide (length (server_host v) = 0)%nat then
             if decide (length (j_remote_host conf) ≤ MAX_REMOTE_NUM)%nat
             then Some (j_remote_host conf) else None
           else Some (server_host v));
  Some (Settings hosts
          (if server_port v is None then j_remote_port conf else server_port v)
          (if password v is None then j_password conf else password v)
          (if timeout v is None then j_timeout conf else timeout v)
          (if method v is None then j_method conf else method v)
          (pid_flags v) (pid_path v) (conf_path v) (verbose v)).

(** [main] up to [if (timeout == NULL) timeout = "60"]; [read_jconf] is
    the function of that name.  [opterr] is set to 0 before the option
    loop, and [getopt] reads it without assigning it. *)
Definition main_settings (args : list (ascii * string))
    (read_jconf : string → jconf) : startup :=
  let opterr := 0 in
  match getopt_loop args no_settings with
  | None => Undefined
  | Some v =>
      if decide (opterr ≠ 0) then UsageExit
      else
        match (if conf_path v is Some path then apply_conf (read_jconf path) v
               else Some v) with
        | None => Undefined
        | Some v =>
            if decide (length (server_host v) = 0%nat ∨ server_port v = None ∨
                       password v = None)
            then UsageExit
            else
              Configured
                (Settings (server_host v) (server_port v) (password v)
                   (if timeout v is None then Some "60"%string else timeout v)
                   (method v) (pid_flags v) (pid_path v) (conf_path v) (verbose v))
        end
  end.

End Main.

(** The arguments given to the option [c], in the order given. *)
Definition args_of (c : ascii) (args : list (ascii * string)) : list string :=
  omap (λ a, if decide (a.1 = c) then Some a.2 else None) args.

(** What the option loop has set once it has gone through [args], from
    the state [v]. *)
Definition after_options (args : list (ascii * string)) (v : settings) : settings :=
  Settings (server_host v ++ args_of "s" args)
    (if last (args_of "p" args) is Some x then Some x else server_port v)
    (if last (args_of "k" args) is Some x then Some x else password v)
    (if last (args_of "t" args) is Some x then Some x else timeout v)
    (if last (args_of "m" args) is Some x then Some x else method v)
    (if args_of "f" args is [] then pid_flags v else true)
    (if last (args_of "f" args) is Some x then Some x else pid_path v)
    (if last (args_of "c" args) is Some x then Some x else conf_path v)
    (if args_of "v" args is [] then verbose v else true).

(** A command line and a configuration file. *)
Definition sample_args : list (ascii * string) :=
  [("s"%char, "0.0.0.0"%string); ("p"%char, "8388"%string);
   ("l"%char, "1080"%string); ("p"%char, "8389"%string);
   ("c"%char, "config.json"%string)].
Definition sample_conf (path : string) : jconf :=
  Jconf ["10.0.0.1"%string] (Some "443"%string) (Some "secret"%string)
    (Some "rc4"%string) None.

End Settings.

(** * A sample session

    One client, with a byte-wise XOR cipher and the usual buffer size: the
    states it goes through and the kernel answers that lead there. *)

Module Sample.

Local Open Scope Z_scope.

#[local] Instance cipher : Cipher := xor_cipher "*"%byte.
Definition BUF_SIZE : nat := 4096.

Definition world_of (o : outcome unit) : world :=
  match o with Ok _ w => w | Exit w => w | Undef => init_world end.
Definition server_of (w : world) : server :=
  default (Server 0 0 [] 0 false false tt tt NULL 0) (servers w !! 1%positive).
Definition remote_of (w : world) : remote :=
  default (Remote 0 [] 0 false false false false 0 NULL) (remotes w !! 1%positive).

Definition encrypted (plain : list byte) : list byte := (encrypt_ctx plain tt).1.

(** A client connects; the memory of its record still holds old bytes. *)
Definition stale : list byte := [x00; xc0; xa8; x01; x01; x1f; x90].
Definition e_accepted : env := Env 7 stale (RecvErr EAGAIN) (SendErr EAGAIN) 0 GaiErr.
Definition w_accepted : world := world_of (accept_cb BUF_SIZE 60 e_accepted init_world).

(** The first read brings [01 7f 00 00 01 00 50] and the payload "GET". *)
Definition request : list byte :=
  encrypted [x01; x7f; x00; x00; x01; x00; x50; "G"; "E"; "T"]%byte.
Definition e_request : env := Env 0 [] (RecvData request) (SendErr EAGAIN) 0 (Socket 9).
Definition w_connecting : world :=
  world_of (server_recv_cb BUF_SIZE (Some 1%positive) e_request w_accepted).

(** The upstream connects and takes one byte of the payload. *)
Definition e_connected : env := Env 0 [] (RecvErr EAGAIN) (SendAccept 1) 0 GaiErr.
Definition w_streaming : world :=
  world_of (remote_send_cb (Some 1%positive) e_connected w_connecting).

(** The upstream answers "OK!" while the client socket is not writable. *)
Definition e_answer : env :=
  Env 0 [] (RecvData ["O"; "K"; "!"]%byte) (SendErr EAGAIN) 0 GaiErr.
Definition w_busy : world :=
  world_of (remote_recv_cb BUF_SIZE (Some 1%positive) e_answer w_streaming).

(** Either peer closes; the send would take one byte. *)
Definition e_eof : env := Env 0 [] (RecvData []) (SendAccept 1) 0 GaiErr.

(** A first read that brings the address type only. *)
Definition e_atyp_only : env :=
  Env 0 [] (RecvData (encrypted [x01])) (SendErr EAGAIN) 0 (Socket 9).
(** A first read with the IPv6 address type. *)
Definition e_ipv6 : env :=
  Env 0 [] (RecvData (encrypted [x04; x00; x00; x00])) (SendErr EAGAIN) 0 (Socket 9).

End Sample.

(** * More of the sample session

    Further kernel answers, the session once its buffers are empty, and a
    second client. *)

Module Traffic.

Import Sample.
Local Open Scope Z_scope.

#[local] Existing Instance cipher.

Definition second_of (w : world) : server :=
  default (Server 0 0 [] 0 false false tt tt NULL 0) (servers w !! 2%positive).

(** The socket that is written to takes all there is. *)
Definition e_flush : env := Env 0 [] (RecvErr EAGAIN) (SendAccept 100) 0 GaiErr.

(** The upstream takes the rest of the payload: nothing is pending. *)
Definition w_idle : world :=
  world_of (remote_send_cb (Some 1%positive) e_flush w_streaming).

(** The upstream answers "OK!" while the client socket is not writable:
    the answer is pending, the other direction has nothing to send. *)
Definition w_backlog : world :=
  world_of (remote_recv_cb BUF_SIZE (Some 1%positive) e_answer w_idle).

(** The client sends "HI", the upstream answers "OK!"; all is taken. *)
Definition e_query : env :=
  Env 0 [] (RecvData (encrypted ["H"; "I"]%byte)) (SendAccept 100) 0 GaiErr.
Definition e_reply : env :=
  Env 0 [] (RecvData ["O"; "K"; "!"]%byte) (SendAccept 100) 0 GaiErr.

(** The client sends "HI" while the upstream socket is not writable, or
    has been reset. *)
Definition e_blocked : env :=
  Env 0 [] (RecvData (encrypted ["H"; "I"]%byte)) (SendErr EAGAIN) 0 GaiErr.
Definition e_broken : env :=
  Env 0 [] (RecvData (encrypted ["H"; "I"]%byte)) (SendErr 104) 0 GaiErr.

(** A socket has been reset: [ECONNRESET] on read and on write. *)
Definition e_reset : env := Env 0 [] (RecvErr 104) (SendErr 104) 0 GaiErr.
Definition w_reset : world :=
  world_of (remote_send_cb (Some 1%positive) e_reset w_busy).

(** A second client connects while the first is busy. *)
Definition e_second : env := Env 8 [] (RecvErr EAGAIN) (SendErr EAGAIN) 0 GaiErr.
Definition w_two : world := world_of (accept_cb BUF_SIZE 60 e_second w_busy).
Definition w_two_drained : world :=
  world_of (server_send_cb (Some 1%positive) e_flush w_two).

(** A first read that names the host "ab" and the port 443; the same
    with a resolver that fails. *)
Definition e_domain : env :=
  Env 0 [] (RecvData (encrypted [x03; x02; "a"; "b"; x01; xbb]%byte))
    (SendErr EAGAIN) 0 (Socket 9).
Definition e_unresolved : env :=
  Env 0 [] (RecvData request) (SendErr EAGAIN) 0 GaiErr.

End Traffic.

(** * Symbolic execution of the callbacks *)

Arguments get_server : simpl never.
Arguments get_remote : simpl never.
Arguments modify_server : simpl never.
Arguments modify_remote : simpl never.
Arguments free_server_mem : simpl never.
Arguments free_remote_mem : simpl never.
Arguments ev_io_set : simpl never.
Arguments ev_io_start : simpl never.
Arguments ev_io_stop : simpl never.
Arguments ev_timer_start : simpl never.
Arguments ev_timer_stop : simpl never.
Arguments load_buf : simpl never.
Arguments store_buf : simpl never.
Arguments recv : simpl never.
Arguments send : simpl never.
Arguments close : simpl never.
Arguments decrypt_in_place : simpl never.
Arguments encrypt_in_place : simpl never.
Arguments carry : simpl never.
Arguments new_remote : simpl never.
Arguments new_server : simpl never.
Arguments malloc_remote : simpl never.
Arguments malloc_server : simpl never.
Arguments free_remote : simpl never.
Arguments free_server : simpl never.
Arguments close_and_free_remote : simpl never.
Arguments close_and_free_server : simpl never.
Arguments connect_to_remote : simpl never.
Arguments remote_send_connect : simpl never.
Arguments remote_send_flush : simpl never.
Arguments lift : simpl never.
Arguments assert : simpl never.
Arguments modify : simpl never.
Arguments FATAL : simpl never.
Arguments undef : simpl never.
Arguments mbind : simpl never.
Arguments mret : simpl never.
Arguments Z.of_nat : simpl never.
Arguments Z.to_nat : simpl never.
Arguments Z.shiftl : simpl never.
Arguments Z.add : simpl never.
Arguments Z.sub : simpl never.
Arguments decimal : simpl never.
Arguments inet_ntoa : simpl never.
Arguments c_str : simpl never.
Arguments memcpy : simpl never.
Arguments buf_range : simpl never.
Arguments carry_over : simpl never.
Arguments resize : simpl never.
Arguments replicate : simpl never.
Arguments take : simpl never.
Arguments drop : simpl never.
Arguments length : simpl never.
Arguments app : simpl never.
Arguments would_block : simpl never.

Section Run.
Context `{Cipher}.
Implicit Types (w : world) (p : pointer).

Lemma run_bind {A B} (m : M A) (k : A → M B) w :
  (m ≫= k) w =
  match m w with Ok a w' => k a w' | Exit w' => Exit w' | Undef => Undef end.
Proof. reflexivity. Qed.
Lemma run_ret {A} (a : A) w : (mret a : M A) w = Ok a w.
Proof. reflexivity. Qed.
Lemma run_lift_Some {A} (a : A) w : lift (Some a) w = Ok a w.
Proof. reflexivity. Qed.
Lemma run_lift_None {A} w : lift (@None A) w = Undef.
Proof. reflexivity. Qed.
Lemma upd_servers_World f S R rc sc tr :
  upd_servers f (World S R rc sc tr) = World (f S) R rc sc tr.
Proof. reflexivity. Qed.
Lemma upd_remotes_World f S R rc sc tr :
  upd_remotes f (World S R rc sc tr) = World S (f R) rc sc tr.
Proof. reflexivity. Qed.
Lemma upd_remote_conn_World f S R rc sc tr :
  upd_remote_conn f (World S R rc sc tr) = World S R (f rc) sc tr.
Proof. reflexivity. Qed.
Lemma upd_server_conn_World f S R rc sc tr :
  upd_server_conn f (World S R rc sc tr) = World S R rc (f sc) tr.
Proof. reflexivity. Qed.
Lemma emit_World ev S R rc sc tr :
  emit ev (World S R rc sc tr) = World S R rc sc (tr ++ [ev]).
Proof. reflexivity. Qed.
Lemma run_if_decide {A} `{Decision P} (m1 m2 : M A) w :
  (if decide P then m1 else m2) w = if decide P then m1 w else m2 w.
Proof. by destruct (decide P). Qed.
Lemma run_if_bool {A} (b : bool) (m1 m2 : M A) w :
  (if b then m1 else m2) w = if b then m1 w else m2 w.
Proof. by destruct b. Qed.
End Run.

Create Rewrite HintDb relay_run.
#[export] Hint Rewrite @run_bind @run_ret @run_lift_Some @run_lift_None
  @run_if_decide @run_if_bool
  @upd_servers_World @upd_remotes_World @upd_remote_conn_World
  @upd_server_conn_World @emit_World : relay_run.

(** Unfolds a model function where it is applied to a state. *)
Ltac run_head f :=
  match goal with
  | |- context [f ?w] =>
      lazymatch type of w with world =>
        let t := constr:(f w) in let t' := eval unfold f in t in change t with t' end
  | |- context [f ?a ?w] =>
      lazymatch type of w with world =>
        let t := constr:(f a w) in let t' := eval unfold f in t in change t with t' end
  | |- context [f ?a ?b ?w] =>
      lazymatch type of w with world =>
        let t := constr:(f a b w) in let t' := eval unfold f in t in change t with t' end
  | |- context [f ?a ?b ?c ?w] =>
      lazymatch type of w with world =>
        let t := constr:(f a b c w) in let t' := eval unfold f in t in change t with t' end
  | |- context [f ?a ?b ?c ?d ?w] =>
      lazymatch type of w with world =>
        let t := constr:(f a b c d w) in let t' := eval unfold f in t in change t with t' end
  | |- context [f ?a ?b ?c ?d ?x ?w] =>
      lazymatch type of w with world =>
        let t := constr:(f a b c d x w) in let t' := eval unfold f in t in change t with t' end
  | |- context [f ?a ?b ?c ?d ?x ?y ?w] =>
      lazymatch type of w with world =>
        let t := constr:(f a b c d x y w) in let t' := eval unfold f in t in change t with t' end
  end.

Ltac run_defs :=
  first
  [ run_head (@get_server) | run_head (@get_remote)
  | run_head (@modify_server) | run_head (@modify_remote)
  | run_head (@free_server_mem) | run_head (@free_remote_mem)
  | run_head (@ev_io_start) | run_head (@ev_io_stop) | run_head (@ev_io_set)
  | run_head (@ev_timer_start) | run_head (@ev_timer_stop)
  | run_head (@load_buf) | run_head (@store_buf)
  | run_head (@recv) | run_head (@send) | run_head (@close)
  | run_head (@decrypt_in_place) | run_head (@encrypt_in_place) | run_head (@carry)
  | run_head (@new_remote) | run_head (@new_server)
  | run_head (@malloc_remote) | run_head (@malloc_server)
  | run_head (@free_remote) | run_head (@free_server)
  | run_head (@close_and_free_remote) | run_head (@close_and_free_server)
  | run_head (@connect_to_remote)
  | run_head (@remote_send_connect) | run_head (@remote_send_flush)
  | run_head (@assert) | run_head (@modify)
  | run_head (@FATAL) | run_head (@undef) ].

Ltac heap_lookup :=
  repeat match goal with
  | |- context [<[?a := _]> (<[?a := _]> _)] => rewrite insert_insert_eq
  | |- context [delete ?a (<[?a := _]> _)] => rewrite delete_insert_eq
  | |- context [<[?a := _]> _ !! ?a] => rewrite lookup_insert_eq
  | |- context [delete ?a _ !! ?a] => rewrite lookup_delete_eq
  | H : ?a ≠ ?b |- context [<[?a := _]> _ !! ?b] => rewrite (lookup_insert_ne _ a b) by exact H
  | H : ?m !! ?a = _ |- context [?m !! ?a] => rewrite H
  | H : ?x = Some _ |- context [match ?x with _ => _ end] => rewrite H
  | H : ?x = None |- context [match ?x with _ => _ end] => rewrite H
  | H : ?x = Some _ |- context [from_option _ _ ?x] => rewrite H
  | H : ?x = None |- context [from_option _ _ ?x] => rewrite H
  end.

Ltac dec_simpl :=
  repeat match goal with
  | |- context [decide ?P] =>
      first [ rewrite (decide_True (P := P)) by lia
            | rewrite (decide_False (P := P)) by lia ]
  | |- context [bool_decide ?P] =>
      first [ rewrite (bool_decide_eq_true_2 P) by lia
            | rewrite (bool_decide_eq_false_2 P) by lia ]
  end.

Ltac exec :=
  repeat (progress (autorewrite with relay_run; try run_defs; cbn; heap_lookup; dec_simpl)).


(** The term whose value the execution is waiting for. *)
Ltac head_scrut t :=
  lazymatch t with
  | match ?x with _ => _ end => head_scrut x
  | (match ?x with _ => _ end) _ => head_scrut x
  | from_option _ _ ?x _ => head_scrut x
  | from_option _ _ ?x => head_scrut x
  | @lift _ _ ?x _ => head_scrut x
  | _ => t
  end.

Ltac run_case_on X :=
  let t := head_scrut X in
  lazymatch type of t with
  | outcome _ => fail
  | _ =>
      lazymatch t with
      | decide ?P => destruct (decide P)
      | _ => destruct t eqn:?
      end
  end.

(** Case analysis on what blocks the execution. *)
Ltac run_case :=
  lazymatch goal with
  | |- ?X = _ → _ => run_case_on X
  | |- ?X = _ => run_case_on X
  end.

Ltac run := repeat (exec; try run_case); try (intros; discriminate).

(** * Buffers *)

Section Buffers.
Implicit Types (buf src dst : list byte).

Lemma memcpy_Some dst src new :
  memcpy dst src = Some new →
  length new = length dst ∧ take (length src) new = src ∧
  drop (length src) new = drop (length src) dst.
Proof.
  unfold memcpy. case_decide; [|done]. intros [= <-].
  rewrite length_app, length_drop, take_app_length, drop_app_length.
  split_and!; [lia|done..].
Qed.

Lemma memcpy_is_Some dst src :
  (length src ≤ length dst)%nat → memcpy dst src = Some (src ++ drop (length src) dst).
Proof. intros. unfold memcpy. by rewrite decide_True. Qed.

Lemma buf_range_Some buf i n l :
  buf_range buf i n = Some l →
  l = take n (drop i buf) ∧ length l = n ∧ (i + n ≤ length buf)%nat.
Proof.
  unfold buf_range. case_decide; [|done]. intros [= <-].
  rewrite length_take, length_drop. split_and!; [done|lia|done].
Qed.

Lemma buf_range_is_Some buf i n :
  (i + n ≤ length buf)%nat → buf_range buf i n = Some (take n (drop i buf)).
Proof. intros. unfold buf_range. by rewrite decide_True. Qed.

Lemma carry_loop_spec k : ∀ pt s buf,
  (pt + s + k ≤ length buf)%nat →
  ∃ buf', carry_loop k pt s buf = Some buf' ∧
    length buf' = length buf ∧
    (∀ i, (pt ≤ i < pt + k)%nat → buf' !! i = buf !! (i + s)%nat) ∧
    (∀ i, (i < pt ∨ pt + k ≤ i)%nat → buf' !! i = buf !! i).
Proof.
  induction k as [|k IH]; intros pt s buf Hlen; simpl.
  { exists buf. split_and!; auto. intros; lia. }
  destruct (lookup_lt_is_Some_2 buf (pt + s)) as [b Hb]; [lia|].
  rewrite Hb.
  destruct (IH (S pt) s (<[pt:=b]> buf)) as (buf' & Hrun & Hl & Hmoved & Hkept).
  { rewrite length_insert. lia. }
  exists buf'. rewrite length_insert in Hl. split_and!; auto.
  - intros i Hi. destruct (decide (i = pt)) as [->|Hne].
    + rewrite Hkept by lia. rewrite list_lookup_insert_eq by lia. done.
    + rewrite Hmoved by lia. rewrite list_lookup_insert_ne by lia. done.
  - intros i Hi. rewrite Hkept by lia. rewrite list_lookup_insert_ne by lia. done.
Qed.

Lemma carry_loop_length k : ∀ pt s buf buf',
  carry_loop k pt s buf = Some buf' → length buf' = length buf.
Proof.
  induction k as [|k IH]; intros pt s buf buf'; simpl; [by intros [= <-]|].
  destruct (buf !! (pt + s)%nat); [|done].
  intros Hrun. apply IH in Hrun. by rewrite length_insert in Hrun.
Qed.

Lemma carry_over_length buf s n buf' :
  carry_over buf s n = Some buf' → length buf' = length buf.
Proof. apply carry_loop_length. Qed.

(** The loop moves [buf[s..n-1]] to the front and touches nothing from
    index [n - s] on. *)
Lemma carry_over_spec buf s n :
  (s ≤ n)%nat → (n ≤ length buf)%nat →
  ∃ buf', carry_over buf s n = Some buf' ∧
    length buf' = length buf ∧
    take (n - s) buf' = take (n - s) (drop s buf) ∧
    drop (n - s) buf' = drop (n - s) buf.
Proof.
  intros Hs Hn. unfold carry_over.
  destruct (carry_loop_spec (n - s) 0 s buf) as (buf' & Hrun & Hl & Hmoved & Hkept); [lia|].
  exists buf'. split_and!; auto.
  - apply list_eq. intros i. destruct (decide (i < n - s)%nat).
    + rewrite !lookup_take_lt by lia. rewrite lookup_drop, Hmoved by lia. f_equal; lia.
    + rewrite !lookup_take_ge by lia. done.
  - apply list_eq. intros i. rewrite !lookup_drop. apply Hkept. lia.
Qed.

End Buffers.

(** * Strings *)

Section Strings.

Local Open Scope Z_scope.

Lemma c_str_no_nul (l : list byte) : Forall (λ b, b ≠ x00) l → c_str l = l.
Proof.
  induction 1 as [|b l Hb _ IH]; [done|]. change (c_str (b :: l)) with
    (if Byte.eqb b x00 then [] else b :: c_str l).
  destruct (Byte.eqb b x00) eqn:Heq; [|by rewrite IH].
  apply Byte.byte_dec_bl in Heq. done.
Qed.

Lemma c_str_app_nul (l : list byte) n : c_str (l ++ replicate n x00) = c_str l.
Proof.
  induction l as [|b l IH].
  - destruct n; done.
  - change (c_str ((b :: l) ++ replicate n x00)) with
      (if Byte.eqb b x00 then [] else b :: c_str (l ++ replicate n x00)).
    by rewrite IH.
Qed.

Lemma digits_no_nul (d : uint) :
  Forall (λ b, b ≠ x00) (list_byte_of_string (NilEmpty.string_of_uint d)).
Proof. induction d; simpl; constructor; done. Qed.

Lemma decimal_no_nul n : Forall (λ b, b ≠ x00) (decimal n).
Proof. apply digits_no_nul. Qed.

Lemma c_str_decimal n : c_str (decimal n) = decimal n.
Proof. apply c_str_no_nul, decimal_no_nul. Qed.

Lemma decimal_byte_length (b : byte) : (length (decimal (Byte.to_N b)) ≤ 3)%nat.
Proof. destruct b; vm_compute; lia. Qed.

Lemma inet_ntoa_length a : (length (inet_ntoa a) ≤ 15)%nat.
Proof.
  destruct a as [|b1 [|b2 [|b3 [|b4 [|? ?]]]]]; try (vm_compute; lia).
  unfold inet_ntoa.
  pose proof (decimal_byte_length b1). pose proof (decimal_byte_length b2).
  pose proof (decimal_byte_length b3). pose proof (decimal_byte_length b4).
  rewrite ?length_app, ?length_cons, ?length_app, ?length_cons, ?length_app,
    ?length_cons. lia.
Qed.

Lemma inet_ntoa_no_nul a : Forall (λ b, b ≠ x00) (inet_ntoa a).
Proof.
  destruct a as [|b1 [|b2 [|b3 [|b4 [|? ?]]]]]; try by constructor.
  unfold inet_ntoa.
  repeat first [ apply Forall_app_2 | apply Forall_cons_2 | apply decimal_no_nul | done ].
Qed.

(** The host array after [memset] and [memcpy] holds the copied string. *)
Lemma c_str_host (a : list byte) :
  c_str (a ++ drop (length a) (replicate 256 x00)) = c_str a.
Proof. rewrite drop_replicate. apply c_str_app_nul. Qed.

Lemma byte_val_range (b : byte) : 0 ≤ byte_val b < 256.
Proof. unfold byte_val. pose proof (Byte.to_N_bounded b). lia. Qed.

Lemma to_nat_sub_of_nat (a b : nat) :
  Z.to_nat (Z.of_nat a - Z.of_nat b) = (a - b)%nat.
Proof. lia. Qed.

Lemma port_value hi lo : 0 + hi ≪ 8 + lo = 256 * hi + lo.
Proof. rewrite Z.shiftl_mul_pow2 by lia. lia. Qed.

Lemma buf_range_4 (buf : list byte) i b1 b2 b3 b4 :
  buf !! i = Some b1 → buf !! S i = Some b2 →
  buf !! S (S i) = Some b3 → buf !! S (S (S i)) = Some b4 →
  buf_range buf i 4 = Some [b1; b2; b3; b4].
Proof.
  intros H1 H2 H3 H4. pose proof (lookup_lt_Some _ _ _ H4).
  rewrite buf_range_is_Some by lia. f_equal.
  apply list_eq. intros [|[|[|[|j]]]];
    rewrite ?lookup_take_lt, ?lookup_drop by lia.
  - by rewrite Nat.add_0_r.
  - by replace (i + 1)%nat with (S i) by lia.
  - by replace (i + 2)%nat with (S (S i)) by lia.
  - by replace (i + 3)%nat with (S (S (S i))) by lia.
  - rewrite lookup_take_ge by lia. done.
Qed.

End Strings.

Ltac solve_len :=
  repeat first
    [ rewrite decrypt_ctx_length | rewrite encrypt_ctx_length
    | rewrite length_app | rewrite length_take | rewrite length_drop
    | rewrite length_resize | rewrite length_replicate | rewrite Nat2Z.id ];
  lia.

Ltac buf_norm :=
  repeat first
    [ rewrite Nat2Z.id | rewrite drop_0
    | rewrite decrypt_ctx_length | rewrite encrypt_ctx_length
    | rewrite take_app_length | rewrite drop_app_length
    | rewrite take_app_length'
        by (rewrite ?decrypt_ctx_length, ?encrypt_ctx_length; done)
    | rewrite drop_app_length'
        by (rewrite ?decrypt_ctx_length, ?encrypt_ctx_length; done)
    | rewrite Nat.min_l by solve_len ].

(** Resolves the bounds checks of the model when the bounds hold. *)
Ltac run_in_range :=
  match goal with
  | |- context [buf_range ?b ?i ?n] => rewrite (buf_range_is_Some b i n) by solve_len
  | |- context [memcpy ?d ?s] => rewrite (memcpy_is_Some d s) by solve_len
  | |- context [carry_over ?b ?s ?n] =>
      let H := fresh "Hcarry" in
      destruct (carry_over_spec b s n) as (? & H & ? & ? & ?);
      [solve_len | solve_len | rewrite H]
  end.

Ltac run_total := repeat (exec; buf_norm; repeat (run_in_range; buf_norm)).


(** * Tear-down *)

Local Open Scope Z_scope.

Section TearDown.
Context `{Cipher}.
Implicit Types (w : world) (sa ra : positive) (sv : server) (rm : remote).

Lemma world_eq w1 w2 :
  servers w1 = servers w2 → remotes w1 = remotes w2 →
  remote_conn w1 = remote_conn w2 → server_conn w1 = server_conn w2 →
  trace w1 = trace w2 → w1 = w2.
Proof. destruct w1, w2; simpl; congruence. Qed.

Lemma close_pair_run w sa sv ra rm :
  linked w sa sv ra rm →
  (close_and_free_remote (Some ra) ≫= λ _, close_and_free_server (Some sa)) w
  = Ok tt (closed_pair w sa sv ra rm).
Proof.
  intros (Hs & Hr & Hsr & Hrs). run. f_equal. apply world_eq; cbn.
  - by rewrite !delete_insert_eq.
  - rewrite !delete_insert_eq. done.
  - done.
  - done.
  - by rewrite <-!app_assoc.
Qed.

Lemma close_server_run w sa sv :
  servers w !! sa = Some sv → s_remote sv = NULL →
  close_and_free_server (Some sa) w = Ok tt (closed_server w sa sv).
Proof.
  intros Hs Hsr. run. f_equal. apply world_eq; cbn; try done.
  by rewrite !delete_insert_eq.
Qed.


Lemma free_remote_run w sa sv ra rm :
  linked w sa sv ra rm →
  free_remote (Some ra) w =
  free_remote_mem (Some ra)
    (upd_servers <[sa := set_s_remote NULL sv]> (upd_remote_conn (λ n, n - 1) w)).
Proof. intros (Hs & Hr & Hsr & Hrs). unfold free_remote. exec. done. Qed.

Lemma free_server_run w sa sv ra rm :
  linked w sa sv ra rm →
  free_server (Some sa) w =
  free_server_mem (Some sa)
    (upd_remotes <[ra := set_r_server NULL rm]> (upd_server_conn (λ n, n - 1) w)).
Proof. intros (Hs & Hr & Hsr & Hrs). unfold free_server. exec. done. Qed.

Lemma links_ok_free_remote w sa sv ra rm :
  linked w sa sv ra rm → links_ok w →
  links_ok (upd_remotes (delete ra)
    (upd_servers <[sa := set_s_remote NULL sv]> (upd_remote_conn (λ n, n - 1) w))).
Proof.
  intros (Hs & Hr & Hsr & Hrs) [Hfwd Hback]. split; cbn.
  - intros a sv' ra' Ha Hptr. destruct (decide (a = sa)) as [->|Hne].
    { rewrite lookup_insert_eq in Ha. by injection Ha as <-. }
    rewrite lookup_insert_ne in Ha by done.
    destruct (Hfwd _ _ _ Ha Hptr) as (rm' & Hra' & Hrs').
    exists rm'. split; [|done]. rewrite lookup_delete_ne; [done|].
    intros <-. congruence.
  - intros ra' rm' a Hra' Hptr. destruct (decide (ra' = ra)) as [->|Hne].
    { by rewrite lookup_delete_eq in Hra'. }
    rewrite lookup_delete_ne in Hra' by done.
    destruct (Hback _ _ _ Hra' Hptr) as (sv' & Ha & Hsr').
    exists sv'. split; [|done]. rewrite lookup_insert_ne; [done|].
    intros <-. congruence.
Qed.

Lemma links_ok_free_server w sa sv ra rm :
  linked w sa sv ra rm → links_ok w →
  links_ok (upd_servers (delete sa)
    (upd_remotes <[ra := set_r_server NULL rm]> (upd_server_conn (λ n, n - 1) w))).
Proof.
  intros (Hs & Hr & Hsr & Hrs) [Hfwd Hback]. split; cbn.
  - intros a sv' ra' Ha Hptr. destruct (decide (a = sa)) as [->|Hne].
    { by rewrite lookup_delete_eq in Ha. }
    rewrite lookup_delete_ne in Ha by done.
    destruct (Hfwd _ _ _ Ha Hptr) as (rm' & Hra' & Hrs').
    exists rm'. split; [|done]. rewrite lookup_insert_ne; [done|].
    intros <-. congruence.
  - intros ra' rm' a Hra' Hptr. destruct (decide (ra' = ra)) as [->|Hne].
    { rewrite lookup_insert_eq in Hra'. by injection Hra' as <-. }
    rewrite lookup_insert_ne in Hra' by done.
    destruct (Hback _ _ _ Hra' Hptr) as (sv' & Ha & Hsr').
    exists sv'. split; [|done]. rewrite lookup_delete_ne; [done|].
    intros <-. congruence.
Qed.

(** C9. For a linked server/remote pair, [free_remote] first stores [NULL]
    in [remote->server->remote] and only then releases the remote (the state
    handed to the release has the remote live and the server's pointer
    null); afterwards the remote is gone, the surviving server's [remote]
    pointer is [NULL], and if no peer pointer dangled before none does
    after.  [free_server] does the same with the roles exchanged. *)
Theorem free_clears_back_reference w sa sv ra rm :
  linked w sa sv ra rm →
  (∃ w1 w',
      free_remote (Some ra) w = free_remote_mem (Some ra) w1 ∧
      remotes w1 !! ra = Some rm ∧
      servers w1 !! sa = Some (set_s_remote NULL sv) ∧
      free_remote (Some ra) w = Ok tt w' ∧
      remotes w' !! ra = None ∧
      servers w' !! sa = Some (set_s_remote NULL sv) ∧
      (links_ok w → links_ok w')) ∧
  (∃ w1 w',
      free_server (Some sa) w = free_server_mem (Some sa) w1 ∧
      servers w1 !! sa = Some sv ∧
      remotes w1 !! ra = Some (set_r_server NULL rm) ∧
      free_server (Some sa) w = Ok tt w' ∧
      servers w' !! sa = None ∧
      remotes w' !! ra = Some (set_r_server NULL rm) ∧
      (links_ok w → links_ok w')).
Proof.
  intros Hl. pose proof Hl as (Hs & Hr & Hsr & Hrs). split.
  - eexists _, _. split; [exact (free_remote_run _ _ _ _ _ Hl)|].
    rewrite (free_remote_run _ _ _ _ _ Hl). cbn.
    split_and!; [done|by rewrite lookup_insert_eq| | | |].
    + run. reflexivity.
    + cbn. by rewrite lookup_delete_eq.
    + cbn. by rewrite lookup_insert_eq.
    + exact (links_ok_free_remote _ _ _ _ _ Hl).
  - eexists _, _. split; [exact (free_server_run _ _ _ _ _ Hl)|].
    rewrite (free_server_run _ _ _ _ _ Hl). cbn.
    split_and!; [done|by rewrite lookup_insert_eq| | | |].
    + run. reflexivity.
    + cbn. by rewrite lookup_delete_eq.
    + cbn. by rewrite lookup_insert_eq.
    + exact (links_ok_free_server _ _ _ _ _ Hl).
Qed.

End TearDown.

(** * The invariant of the event loop *)

Lemma fresh_None {A} (m : gmap positive A) : m !! fresh (dom m) = None.
Proof. apply not_elem_of_dom, is_fresh. Qed.

Lemma take_cons_length {A} n (l : list A) x l' :
  take n l = x :: l' → (0 < length (x :: l') ≤ n)%nat.
Proof.
  intros Heq. rewrite <-Heq, length_take.
  assert (length (take n l) ≠ 0)%nat as Hne; [by rewrite Heq|].
  rewrite length_take in Hne. lia.
Qed.

Ltac frame_same :=
  intros ? ?; cbn; rewrite ?lookup_delete_ne, ?lookup_insert_ne by done; done.

Ltac learn_lengths :=
  repeat match goal with
  | H : memcpy _ _ = Some _ |- _ => apply memcpy_Some in H as (? & ? & ?)
  | H : carry_over _ _ _ = Some _ |- _ => apply carry_over_length in H
  | H : buf_range _ _ _ = Some _ |- _ => apply buf_range_Some in H as (? & ? & ?)
  | H : take _ _ = _ :: _ |- _ => apply take_cons_length in H
  end;
  rewrite ?length_resize, ?length_replicate in *.

Ltac known_lookup :=
  repeat match goal with
  | H : ?m !! ?a = _ |- context [?m !! ?a] => rewrite H
  end.
Ltac local_lookup :=
  cbn; rewrite ?lookup_delete_eq, ?lookup_insert_eq, ?fresh_None; known_lookup; cbn.
Ltac local_gone := local_lookup; by intros ? [=].
Ltac local_facts := local_lookup; intros ? [= <-]; cbn.

Ltac solve_side :=
  cbn; rewrite ?lookup_insert_eq, ?length_resize; known_lookup; cbn;
  repeat case_bool_decide;
  first [ done | reflexivity | congruence | lia
        | exfalso; lia | exfalso; congruence ].

Ltac solve_server_inv :=
  split; [solve_side|];
  first
  [ left; unfold stage0; cbn; split_and!; solve_side
  | right; eexists _, _; split_and!;
    [solve_side|solve_side|solve_side|solve_side|];
    first [ left; unfold awaiting; cbn; split_and!; solve_side
          | right; unfold streaming; cbn; split_and!; solve_side ] ].

Section Invariant.
Context `{Cipher} (BUF_SIZE : nat).
Implicit Types (w : world) (sa ra : positive) (sv : server) (rm : remote).

Local Abbreviation awaiting := (awaiting BUF_SIZE).
Local Abbreviation streaming := (streaming BUF_SIZE).
Local Abbreviation server_inv := (server_inv BUF_SIZE).
Local Abbreviation world_inv := (world_inv BUF_SIZE).
Local Abbreviation dispatch := (dispatch BUF_SIZE).
Local Abbreviation reachable := (reachable BUF_SIZE).

Lemma world_inv_frame w w' sa ra :
  world_inv w → pair_owned w sa ra →
  (∀ a, a ≠ sa → servers w' !! a = servers w !! a) →
  (∀ a, a ≠ ra → remotes w' !! a = remotes w !! a) →
  (∀ sv, servers w' !! sa = Some sv →
     server_inv w' sa sv ∧ (s_remote sv = NULL ∨ s_remote sv = Some ra)) →
  (∀ rm, remotes w' !! ra = Some rm → remote_inv w' ra rm) →
  world_inv w'.
Proof.
  intros [Hs Hr] [Hos Hor] Hfs Hfr Hns Hnr. split.
  - intros a sv Ha. destruct (decide (a = sa)) as [->|Hne]; [by apply Hns|].
    rewrite Hfs in Ha by done. destruct (Hs a sv Ha) as [Hlen Hst].
    split; [done|]. destruct Hst as [?|(ra' & rm & ? & Hra' & Hback & ? & ?)]; [by left|].
    right. exists ra', rm. split_and!; try done.
    rewrite Hfr; [done|]. intros ->. apply Hor in Hra'. congruence.
  - intros ra' rm Hra'. destruct (decide (ra' = ra)) as [->|Hne]; [by apply Hnr|].
    rewrite Hfr in Hra' by done. destruct (Hr ra' rm Hra') as (a & sv & ? & Ha & Hsr).
    exists a, sv. split_and!; try done.
    rewrite Hfs; [done|]. intros ->. apply Hos in Ha. destruct Ha; congruence.
Qed.

Lemma pair_owned_stage0 w sa sv :
  servers w !! sa = Some sv → s_remote sv = NULL →
  pair_owned w sa (fresh (dom (remotes w))).
Proof.
  intros Hs Hsr. split.
  - intros sv' ?. left. congruence.
  - intros rm. by rewrite fresh_None.
Qed.

Lemma pair_owned_linked w sa sv ra rm :
  linked w sa sv ra rm → pair_owned w sa ra.
Proof.
  intros (Hs & Hr & Hsr & Hrs). split.
  - intros sv' ?. right. congruence.
  - intros rm' ?. congruence.
Qed.

Lemma world_inv_linked w sa sv :
  world_inv w → servers w !! sa = Some sv →
  length (s_buf sv) = BUF_SIZE ∧
  (stage0 sv ∨ ∃ ra rm, linked w sa sv ra rm ∧ length (r_buf rm) = BUF_SIZE ∧
     (awaiting sv rm ∨ streaming sv rm)).
Proof.
  intros [Hs _] Ha. destruct (Hs _ _ Ha) as [? [?|(ra & rm & ? & ? & ? & ? & ?)]].
  - split; [done|]. by left.
  - split; [done|]. right. exists ra, rm. by split_and!.
Qed.

Lemma world_inv_linked_remote w ra rm :
  world_inv w → remotes w !! ra = Some rm →
  ∃ sa sv, linked w sa sv ra rm ∧ length (s_buf sv) = BUF_SIZE ∧
    length (r_buf rm) = BUF_SIZE ∧ (awaiting sv rm ∨ streaming sv rm).
Proof.
  intros Hinv Hr. destruct (proj2 Hinv _ _ Hr) as (sa & sv & Hrs & Hs & Hsr).
  exists sa, sv.
  destruct (world_inv_linked _ _ _ Hinv Hs) as [? [Hst|(ra' & rm' & Hl & ? & ?)]].
  { destruct Hst as (_ & ? & _). congruence. }
  destruct Hl as (_ & Hr' & Hsr' & _).
  assert (ra' = ra) as -> by congruence. assert (rm' = rm) as -> by congruence.
  by split_and!.
Qed.

Ltac solve_world_inv Hinv Hown :=
  eapply world_inv_frame;
  [ exact Hinv | exact Hown | frame_same | frame_same
  | first [ local_gone
          | local_facts; split; [solve_server_inv | first [by left | by right]] ]
  | first [ local_gone
          | local_facts; eexists _, _; split_and!; solve_side ] ].

Lemma server_recv_cb_inv w w' sa sv e :
  world_inv w → servers w !! sa = Some sv → s_recv_io sv = true →
  server_recv_cb BUF_SIZE (Some sa) e w = Ok tt w' → world_inv w'.
Proof.
  intros Hinv Ha Hio.
  destruct (world_inv_linked _ _ _ Hinv Ha) as [Hlen [Hst|(ra & rm & Hl & Hrlen & [Hst|Hst])]].
  - (* AwaitingHeader *)
    destruct Hst as (Hstage & Hrem & _ & Hsio & Hbl).
    pose proof (pair_owned_stage0 _ _ _ Ha Hrem) as Hown.
    destruct w as [S R rc sc tr]; cbn in *.
    unfold server_recv_cb. run.
    all: intros [= <-].
    all: learn_lengths.
    all: first [exact Hinv | solve_world_inv Hinv Hown].
  - (* AwaitingUpstream: the watcher is stopped *)
    destruct Hst as (_ & Hoff & _). congruence.
  - (* Streaming *)
    pose proof (pair_owned_linked _ _ _ _ _ Hl) as Hown.
    destruct Hl as (_ & Hr & Hsr & Hrs).
    destruct Hst as (Hstage & Hconn & Htimer & Hrb & Hsb & Hsrecv & Hrsend & Hrrecv & Hssend).
    assert (r_buf_len rm = 0) as Hempty.
    { rewrite Hio in Hsrecv. symmetry in Hsrecv. by apply bool_decide_eq_true in Hsrecv. }
    destruct w as [S R rc sc tr]; cbn in *.
    unfold server_recv_cb. run.
    all: intros [= <-].
    all: learn_lengths.
    all: first [exact Hinv | solve_world_inv Hinv Hown].
Qed.

Lemma server_send_cb_inv w w' sa sv e :
  world_inv w → servers w !! sa = Some sv → s_send_io sv = true →
  server_send_cb (Some sa) e w = Ok tt w' → world_inv w'.
Proof.
  intros Hinv Ha Hio.
  destruct (world_inv_linked _ _ _ Hinv Ha) as [Hlen [Hst|(ra & rm & Hl & Hrlen & [Hst|Hst])]].
  - destruct Hst as (_ & _ & _ & Hoff & _). congruence.
  - destruct Hst as (_ & _ & Hoff & _). congruence.
  - pose proof (pair_owned_linked _ _ _ _ _ Hl) as Hown.
    destruct Hl as (_ & Hr & Hsr & Hrs).
    destruct Hst as (Hstage & Hconn & Htimer & Hrb & Hsb & Hsrecv & Hrsend & Hrrecv & Hssend).
    destruct w as [S R rc sc tr]; cbn in *.
    unfold server_send_cb. run.
    all: intros [= <-].
    all: learn_lengths.
    all: first [exact Hinv | solve_world_inv Hinv Hown].
Qed.

Lemma remote_recv_cb_inv w w' ra rm e :
  world_inv w → remotes w !! ra = Some rm → r_recv_io rm = true →
  remote_recv_cb BUF_SIZE (Some ra) e w = Ok tt w' → world_inv w'.
Proof.
  intros Hinv Hr Hio.
  destruct (world_inv_linked_remote _ _ _ Hinv Hr) as (sa & sv & Hl & Hlen & Hrlen & [Hst|Hst]).
  - destruct Hst as (_ & _ & _ & _ & Hoff & _). congruence.
  - pose proof (pair_owned_linked _ _ _ _ _ Hl) as Hown.
    destruct Hl as (Ha & _ & Hsr & Hrs).
    destruct Hst as (Hstage & Hconn & Htimer & Hrb & Hsb & Hsrecv & Hrsend & Hrrecv & Hssend).
    destruct w as [S R rc sc tr]; cbn in *.
    unfold remote_recv_cb. run.
    all: intros [= <-].
    all: learn_lengths.
    all: first [exact Hinv | solve_world_inv Hinv Hown].
Qed.

Lemma remote_send_cb_inv w w' ra rm e :
  world_inv w → remotes w !! ra = Some rm → r_send_io rm = true →
  remote_send_cb (Some ra) e w = Ok tt w' → world_inv w'.
Proof.
  intros Hinv Hr Hio.
  destruct (world_inv_linked_remote _ _ _ Hinv Hr) as (sa & sv & Hl & Hlen & Hrlen & Hst).
  pose proof (pair_owned_linked _ _ _ _ _ Hl) as Hown.
  destruct Hl as (Ha & _ & Hsr & Hrs).
  destruct Hst as [Hst|Hst].
  - destruct Hst as (Hstage & Hsrecv & Hssend & Hsb & Hrrecv & Hrsend & Htimer & Hconn & Hrb).
    destruct w as [S R rc sc tr]; cbn in *.
    unfold remote_send_cb. run.
    all: intros [= <-].
    all: learn_lengths.
    all: first [exact Hinv | solve_world_inv Hinv Hown].
  - destruct Hst as (Hstage & Hconn & Htimer & Hrb & Hsb & Hsrecv & Hrsend & Hrrecv & Hssend).
    destruct w as [S R rc sc tr]; cbn in *.
    unfold remote_send_cb. run.
    all: intros [= <-].
    all: learn_lengths.
    all: first [exact Hinv | solve_world_inv Hinv Hown].
Qed.

Lemma remote_timeout_cb_inv w w' ra rm :
  world_inv w → remotes w !! ra = Some rm → r_watcher rm = true →
  remote_timeout_cb (Some ra) w = Ok tt w' → world_inv w'.
Proof.
  intros Hinv Hr Hio.
  destruct (world_inv_linked_remote _ _ _ Hinv Hr) as (sa & sv & Hl & Hlen & Hrlen & Hst).
  pose proof (pair_owned_linked _ _ _ _ _ Hl) as Hown.
  destruct Hl as (Ha & _ & Hsr & Hrs).
  destruct w as [S R rc sc tr]; cbn in *.
  unfold remote_timeout_cb. run.
  intros [= <-]. solve_world_inv Hinv Hown.
Qed.

Lemma accept_cb_inv w w' timeout e :
  world_inv w → accept_cb BUF_SIZE timeout e w = Ok tt w' → world_inv w'.
Proof.
  intros Hinv.
  assert (pair_owned w (fresh (dom (servers w))) (fresh (dom (remotes w)))) as Hown.
  { split; intros ?; by rewrite fresh_None. }
  destruct w as [S R rc sc tr]; cbn in *.
  unfold accept_cb. run.
  all: intros [= <-].
  all: first [exact Hinv | solve_world_inv Hinv Hown].
Qed.

Lemma world_inv_init : world_inv init_world.
Proof. split; intros ? ?; cbn; by rewrite lookup_empty. Qed.

Lemma dispatch_inv w w' : world_inv w → dispatch w w' → world_inv w'.
Proof.
  intros Hinv Hd. destruct Hd.
  - by eapply accept_cb_inv.
  - by eapply server_recv_cb_inv.
  - by eapply server_send_cb_inv.
  - by eapply remote_recv_cb_inv.
  - by eapply remote_send_cb_inv.
  - by eapply remote_timeout_cb_inv.
Qed.

Lemma reachable_inv w : reachable w → world_inv w.
Proof.
  unfold reachable. revert w.
  apply (rtc_ind_r (λ w, world_inv w)); [apply world_inv_init|].
  intros y z _ Hd IH. by eapply dispatch_inv.
Qed.

End Invariant.

(** * Back-pressure in the streaming stage *)

Section Streaming.
Context `{Cipher} (BUF_SIZE : nat).
Implicit Types (w : world) (sa ra : positive) (sv : server) (rm : remote).

(** C1. In every state the event loop can reach, a session in stage 5
    (Streaming) has, for each direction, the read watcher of the source
    socket started iff the forward buffer of that direction is empty
    ([buf_len == 0]) and the write watcher of the destination socket started
    iff it is not; exactly one of the two is started.  Client to upstream:
    [server->recv_ctx] and [remote->send_ctx] with [remote->buf_len];
    upstream to client: [remote->recv_ctx] and [server->send_ctx] with
    [server->buf_len]. *)
Theorem streaming_interest_follows_buffer w sa sv :
  reachable BUF_SIZE w → servers w !! sa = Some sv → s_stage sv = 5 →
  ∃ ra rm, linked w sa sv ra rm ∧
    (s_recv_io sv = true ↔ r_buf_len rm = 0) ∧
    (r_send_io rm = true ↔ r_buf_len rm ≠ 0) ∧
    s_recv_io sv = negb (r_send_io rm) ∧
    (r_recv_io rm = true ↔ s_buf_len sv = 0) ∧
    (s_send_io sv = true ↔ s_buf_len sv ≠ 0) ∧
    r_recv_io rm = negb (s_send_io sv).
Proof.
  intros Hreach Ha Hstage. apply reachable_inv in Hreach.
  destruct (world_inv_linked _ _ _ _ Hreach Ha)
    as [_ [Hst|(ra & rm & Hl & _ & [Hst|Hst])]].
  - destruct Hst as (? & _). lia.
  - destruct Hst as (? & _). lia.
  - exists ra, rm. split; [done|].
    destruct Hst as (_ & _ & _ & _ & _ & -> & -> & -> & ->).
    repeat case_bool_decide; cbn; split_and!; try done; split; done.
Qed.

Lemma server_recv_cb_no_exit w sa sv e w' :
  world_inv BUF_SIZE w → servers w !! sa = Some sv → s_recv_io sv = true →
  server_recv_cb BUF_SIZE (Some sa) e w = Exit w' → False.
Proof.
  intros Hinv Ha Hio.
  destruct (world_inv_linked _ _ _ _ Hinv Ha) as [Hlen [Hst|(ra & rm & Hl & Hrlen & [Hst|Hst])]].
  - destruct Hst as (Hstage & Hrem & _ & Hsio & Hbl).
    destruct w as [S R rc sc tr]; cbn in *.
    unfold server_recv_cb. run.
  - destruct Hst as (_ & Hoff & _). congruence.
  - destruct Hl as (_ & Hr & Hsr & Hrs).
    destruct Hst as (Hstage & Hconn & Htimer & Hrb & Hsb & Hsrecv & Hrsend & Hrrecv & Hssend).
    destruct w as [S R rc sc tr]; cbn in *.
    unfold server_recv_cb. run.
Qed.

(** C8. In every state the event loop can reach, a session in stage 4
    (AwaitingUpstream) has its client read watcher stopped; hence whenever
    [server_recv_cb] is dispatched (the watcher is started) the stage is 0
    or 5, and the callback never ends the process: the final
    [FATAL("server context error.")] is not reached, nor does an [assert]
    fail. *)
Theorem server_recv_cb_stage_0_or_5 w sa sv :
  reachable BUF_SIZE w → servers w !! sa = Some sv →
  (s_stage sv = 4 → s_recv_io sv = false) ∧
  (s_recv_io sv = true →
     (s_stage sv = 0 ∨ s_stage sv = 5) ∧
     ∀ e w', server_recv_cb BUF_SIZE (Some sa) e w ≠ Exit w').
Proof.
  intros Hreach Ha. apply reachable_inv in Hreach.
  destruct (world_inv_linked _ _ _ _ Hreach Ha)
    as [_ [Hst|(ra & rm & Hl & _ & [Hst|Hst])]].
  - destruct Hst as (Hstage & _). split; [lia|]. intros Hio. split; [by left|].
    intros e w' Hrun. by eapply server_recv_cb_no_exit.
  - destruct Hst as (Hstage & Hoff & _). split; [done|]. congruence.
  - destruct Hst as (Hstage & _). split; [lia|]. intros Hio. split; [by right|].
    intros e w' Hrun. by eapply server_recv_cb_no_exit.
Qed.

End Streaming.

(** * Partial writes *)

Section Carry.
Context `{Cipher} (BUF_SIZE : nat).
Implicit Types (w : world) (sa ra : positive) (sv : server) (rm : remote).


Lemma send_count k n (buf : list byte) :
  (k < n ≤ length buf)%nat → (k `min` length (take n buf))%nat = k.
Proof. intros. rewrite length_take. lia. Qed.

Lemma drop_take_pending {A} k n (buf : list A) :
  take (n - k) (drop k buf) = drop k (take n buf).
Proof. symmetry. apply skipn_firstn_comm. Qed.

Lemma take_drop_app_prefix {A} (D rest : list A) k n :
  length D = n → (k ≤ n)%nat → take (n - k) (drop k (D ++ rest)) = drop k D.
Proof.
  intros <- Hk. rewrite drop_app_le by done.
  apply take_app_length'. rewrite length_drop. done.
Qed.

Lemma server_send_cb_carry w sa sv ra rm e k :
  linked w sa sv ra rm →
  e_send e = SendAccept k →
  Z.of_nat k < s_buf_len sv ≤ Z.of_nat (length (s_buf sv)) →
  ∃ w' sv', server_send_cb (Some sa) e w = Ok tt w' ∧
    servers w' !! sa = Some sv' ∧
    s_buf_len sv' = s_buf_len sv - Z.of_nat k ∧
    take (Z.to_nat (s_buf_len sv) - k) (s_buf sv') =
      drop k (take (Z.to_nat (s_buf_len sv)) (s_buf sv)).
Proof.
  intros (Ha & Hr & Hsr & Hrs) Hsend Hk.
  destruct w as [S R rc sc tr]; cbn in *.
  unfold server_send_cb. run_total. rewrite Hsend. run_total.
  eexists _, _. split; [reflexivity|]. cbn. rewrite lookup_insert_eq.
  split_and!; [done|done|]. cbn. by rewrite <-drop_take_pending.
Qed.

Lemma remote_send_cb_carry w sa sv ra rm e k :
  linked w sa sv ra rm → r_connected rm = true →
  e_send e = SendAccept k →
  Z.of_nat k < r_buf_len rm ≤ Z.of_nat (length (r_buf rm)) →
  ∃ w' rm', remote_send_cb (Some ra) e w = Ok tt w' ∧
    remotes w' !! ra = Some rm' ∧
    r_buf_len rm' = r_buf_len rm - Z.of_nat k ∧
    take (Z.to_nat (r_buf_len rm) - k) (r_buf rm') =
      drop k (take (Z.to_nat (r_buf_len rm)) (r_buf rm)).
Proof.
  intros (Ha & Hr & Hsr & Hrs) Hconn Hsend Hk.
  destruct w as [S R rc sc tr]; cbn in *.
  unfold remote_send_cb. run_total. rewrite Hconn. run_total. rewrite Hsend. run_total.
  eexists _, _. split; [reflexivity|]. cbn. rewrite lookup_insert_eq.
  split_and!; [done|done|]. cbn. by rewrite <-drop_take_pending.
Qed.

Lemma server_recv_cb_carry w sa sv ra rm e data k :
  linked w sa sv ra rm → s_stage sv = 5 →
  length (r_buf rm) = BUF_SIZE →
  e_recv e = RecvData data → e_send e = SendAccept k →
  (k < length (take BUF_SIZE data))%nat →
  ∃ w' rm', server_recv_cb BUF_SIZE (Some sa) e w = Ok tt w' ∧
    remotes w' !! ra = Some rm' ∧
    r_buf_len rm' = Z.of_nat (length (take BUF_SIZE data)) - Z.of_nat k ∧
    take (length (take BUF_SIZE data) - k) (r_buf rm') =
      drop k (decrypt_ctx (take BUF_SIZE data) (s_d_ctx sv)).1.
Proof.
  intros (Ha & Hr & Hsr & Hrs) Hstage Hlen Hrecv Hsend Hk.
  destruct w as [S R rc sc tr]; cbn in *.
  unfold server_recv_cb. run_total. rewrite Hrecv. exec.
  destruct (take BUF_SIZE data) as [|b l] eqn:Hgot; [unfold length in Hk; lia|].
  apply take_cons_length in Hgot.
  run_total. rewrite Hsend. run_total.
  eexists _, _. split; [reflexivity|]. cbn. rewrite lookup_insert_eq.
  split_and!; [done|done|]. cbn.
  match goal with Heq : take _ _ = take _ _ |- _ => rewrite Heq end.
  apply take_drop_app_prefix; [apply decrypt_ctx_length|lia].
Qed.

Lemma remote_recv_cb_carry w sa sv ra rm e data k :
  linked w sa sv ra rm →
  length (s_buf sv) = BUF_SIZE →
  e_recv e = RecvData data → e_send e = SendAccept k →
  (k < length (take BUF_SIZE data))%nat →
  ∃ w' sv', remote_recv_cb BUF_SIZE (Some ra) e w = Ok tt w' ∧
    servers w' !! sa = Some sv' ∧
    s_buf_len sv' = Z.of_nat (length (take BUF_SIZE data)) - Z.of_nat k ∧
    take (length (take BUF_SIZE data) - k) (s_buf sv') =
      drop k (encrypt_ctx (take BUF_SIZE data) (s_e_ctx sv)).1.
Proof.
  intros (Ha & Hr & Hsr & Hrs) Hlen Hrecv Hsend Hk.
  destruct w as [S R rc sc tr]; cbn in *.
  unfold remote_recv_cb. run_total. rewrite Hrecv. exec.
  destruct (take BUF_SIZE data) as [|b l] eqn:Hgot; [unfold length in Hk; lia|].
  apply take_cons_length in Hgot.
  run_total. rewrite Hsend. run_total.
  eexists _, _. split; [reflexivity|]. cbn. rewrite lookup_insert_eq.
  split_and!; [done|done|]. cbn.
  match goal with Heq : take _ _ = take _ _ |- _ => rewrite Heq end.
  apply take_drop_app_prefix; [apply encrypt_ctx_length|lia].
Qed.

(** C2. In a streaming session, when a [send] takes [k] of the [n] pending
    bytes with [k < n], the carry-over loop leaves the [n - k] unsent bytes,
    in their order, at the start of the buffer and the occupancy becomes
    [n - k].  This holds at the four places that send: the two drains
    ([server_send_cb], [remote_send_cb], where the pending bytes are the
    first [buf_len] bytes of the buffer) and the two immediate sends after
    a read ([server_recv_cb], [remote_recv_cb], where they are the bytes
    just read, decrypted resp. encrypted). *)
Theorem partial_send_carries_tail_over w sa sv ra rm e k :
  linked w sa sv ra rm → s_stage sv = 5 → r_connected rm = true →
  length (s_buf sv) = BUF_SIZE → length (r_buf rm) = BUF_SIZE →
  e_send e = SendAccept k →
  (Z.of_nat k < s_buf_len sv ≤ Z.of_nat BUF_SIZE →
     ∃ w' sv', server_send_cb (Some sa) e w = Ok tt w' ∧
       servers w' !! sa = Some sv' ∧
       s_buf_len sv' = s_buf_len sv - Z.of_nat k ∧
       take (Z.to_nat (s_buf_len sv) - k) (s_buf sv') =
         drop k (take (Z.to_nat (s_buf_len sv)) (s_buf sv))) ∧
  (Z.of_nat k < r_buf_len rm ≤ Z.of_nat BUF_SIZE →
     ∃ w' rm', remote_send_cb (Some ra) e w = Ok tt w' ∧
       remotes w' !! ra = Some rm' ∧
       r_buf_len rm' = r_buf_len rm - Z.of_nat k ∧
       take (Z.to_nat (r_buf_len rm) - k) (r_buf rm') =
         drop k (take (Z.to_nat (r_buf_len rm)) (r_buf rm))) ∧
  (∀ data, e_recv e = RecvData data →
     (k < length (take BUF_SIZE data))%nat →
     (∃ w' rm', server_recv_cb BUF_SIZE (Some sa) e w = Ok tt w' ∧
        remotes w' !! ra = Some rm' ∧
        r_buf_len rm' = Z.of_nat (length (take BUF_SIZE data)) - Z.of_nat k ∧
        take (length (take BUF_SIZE data) - k) (r_buf rm') =
          drop k (decrypt_ctx (take BUF_SIZE data) (s_d_ctx sv)).1) ∧
     (∃ w' sv', remote_recv_cb BUF_SIZE (Some ra) e w = Ok tt w' ∧
        servers w' !! sa = Some sv' ∧
        s_buf_len sv' = Z.of_nat (length (take BUF_SIZE data)) - Z.of_nat k ∧
        take (length (take BUF_SIZE data) - k) (s_buf sv') =
          drop k (encrypt_ctx (take BUF_SIZE data) (s_e_ctx sv)).1)).
Proof.
  intros Hl Hstage Hconn Hslen Hrlen Hsend. split_and!.
  - intros Hk. eapply server_send_cb_carry; [done|done|lia].
  - intros Hk. eapply remote_send_cb_carry; [done|done|done|lia].
  - intros data Hrecv Hk. split.
    + by eapply server_recv_cb_carry.
    + by eapply remote_recv_cb_carry.
Qed.

End Carry.

(** * The address header *)

Section Header.
Context `{Cipher} (BUF_SIZE : nat).
Implicit Types (w : world) (sa ra : positive) (sv : server) (rm : remote).

Lemma header_parse_run w sa sv e data got host port offset :
  servers w !! sa = Some sv → s_stage sv = 0 → s_remote sv = NULL →
  length (s_buf sv) = BUF_SIZE →
  e_recv e = RecvData data → take BUF_SIZE data = got → got ≠ [] →
  header_target (decrypted_buf (s_buf sv) got (s_d_ctx sv)) = Some (host, port, offset) →
  server_recv_cb BUF_SIZE (Some sa) e w =
  Ok tt (header_outcome BUF_SIZE w sa sv e got offset host port).
Proof.
  intros Ha Hstage Hnull Hlen Hrecv Hgot Hne Htarget.
  destruct w as [Sv Rm rc sc tr]; cbn in *.
  unfold server_recv_cb. run_total. rewrite Hrecv. exec. rewrite Hgot.
  destruct got as [|b l]; [done|]. apply take_cons_length in Hgot.
  run_total. fold (decrypted_buf (s_buf sv) (b :: l) (s_d_ctx sv)).
  unfold header_target in Htarget. unfold header_outcome.
  set (dbuf := decrypted_buf (s_buf sv) (b :: l) (s_d_ctx sv)) in *.
  assert (length dbuf = BUF_SIZE) as Hdlen.
  { unfold dbuf, decrypted_buf. solve_len. }
  destruct (dbuf !! 0%nat) as [atyp|] eqn:Hatyp; [|done].
  exec.
  destruct (decide (char_val atyp = 1)) as [Hv4|Hnot4].
  - destruct (buf_range dbuf 1 4) as [a|] eqn:Ha4; [|done].
    destruct (dbuf !! 5%nat) as [hi|] eqn:Hhi; [|done].
    destruct (dbuf !! 6%nat) as [lo|] eqn:Hlo; [|done].
    injection Htarget as <- <- <-.
    pose proof (inet_ntoa_length a).
    run_total. rewrite c_str_host, c_str_decimal, port_value.
    rewrite (c_str_no_nul _ (inet_ntoa_no_nul a)).
    destruct (e_connect e) as [|fd]; [|destruct (decide (fd < 0))].
    + run_total. f_equal. apply world_eq; cbn; try done. by rewrite <-app_assoc.
    + run_total. f_equal. apply world_eq; cbn; try done. by rewrite <-!app_assoc.
    + run_total.
      destruct (decide (Z.of_nat (length (b :: l)) > Z.of_nat 7)) as [Hmore|Hshort];
        run_total; f_equal; unfold awaiting_upstream; apply world_eq; cbn;
        try done; try (by rewrite <-app_assoc); fold dbuf.
      * rewrite !to_nat_sub_of_nat, <-Nat2Z.inj_sub by lia. reflexivity.
      * rewrite (proj2 (Nat.sub_0_le _ _)) by lia. rewrite take_0. reflexivity.
  - destruct (decide (char_val atyp = 3)) as [Hdom|Hnotdom]; [|done].
    destruct (dbuf !! 1%nat) as [len|] eqn:Hlen1; [|done]. cbv zeta in Htarget.
    pose proof (byte_val_range len) as Hrange.
    remember (Z.to_nat (byte_val len)) as L eqn:HL.
    destruct (buf_range dbuf 2 L) as [name|] eqn:Hname; [|done].
    destruct (dbuf !! (2 + L)%nat) as [hi|] eqn:Hhi; [|done].
    destruct (dbuf !! (3 + L)%nat) as [lo|] eqn:Hlo; [|done].
    injection Htarget as <- <- <-.
    pose proof (buf_range_Some _ _ _ _ Hname) as (_ & Hnamelen & _).
    exec. rewrite <-HL, Hname. run_total.
    replace (S (L + 1))%nat with (2 + L)%nat by lia. rewrite Hhi.
    replace (S (2 + L))%nat with (3 + L)%nat by lia. rewrite Hlo.
    run_total. rewrite c_str_host, c_str_decimal, port_value.
    destruct (e_connect e) as [|fd]; [|destruct (decide (fd < 0))].
    + run_total. f_equal. apply world_eq; cbn; try done. by rewrite <-app_assoc.
    + run_total. f_equal. apply world_eq; cbn; try done. by rewrite <-!app_assoc.
    + run_total.
      destruct (decide (Z.of_nat (length (b :: l)) > Z.of_nat (S (3 + L))))
        as [Hmore|Hshort];
        run_total; f_equal; unfold awaiting_upstream; apply world_eq; cbn;
        try done; try (by rewrite <-app_assoc); fold dbuf.
      * rewrite !to_nat_sub_of_nat, <-Nat2Z.inj_sub by lia. reflexivity.
      * rewrite (proj2 (Nat.sub_0_le _ _)) by lia. rewrite take_0. reflexivity.
Qed.

Lemma header_unsupported_run w sa sv e data got atyp :
  servers w !! sa = Some sv → s_stage sv = 0 → s_remote sv = NULL →
  length (s_buf sv) = BUF_SIZE →
  e_recv e = RecvData data → take BUF_SIZE data = got → got ≠ [] →
  decrypted_buf (s_buf sv) got (s_d_ctx sv) !! 0%nat = Some atyp →
  char_val atyp ≠ 1 → char_val atyp ≠ 3 →
  server_recv_cb BUF_SIZE (Some sa) e w = Ok tt (header_closed w sa sv []).
Proof.
  intros Ha Hstage Hnull Hlen Hrecv Hgot Hne Hatyp Hnot4 Hnotdom.
  destruct w as [Sv Rm rc sc tr]; cbn in *.
  unfold server_recv_cb. run_total. rewrite Hrecv. exec. rewrite Hgot.
  destruct got as [|b l]; [done|]. apply take_cons_length in Hgot.
  run_total. fold (decrypted_buf (s_buf sv) (b :: l) (s_d_ctx sv)).
  rewrite Hatyp. run_total. done.
Qed.

(** A buffer of 259 bytes holds the longest header: the address type, the
    length byte, 255 bytes of name and the port. *)
Lemma header_target_is_Some (buf : list byte) b :
  (259 ≤ length buf)%nat → buf !! 0%nat = Some b →
  char_val b = 1 ∨ char_val b = 3 → is_Some (header_target buf).
Proof.
  intros Hlen Hb Hatyp. unfold header_target. rewrite Hb.
  destruct (decide (char_val b = 1)) as [|Hne].
  - rewrite buf_range_is_Some by lia.
    destruct (lookup_lt_is_Some_2 buf 5) as [b5 ->]; [lia|].
    destruct (lookup_lt_is_Some_2 buf 6) as [b6 ->]; [lia|]. eauto.
  - rewrite decide_True by (destruct Hatyp; done).
    destruct (lookup_lt_is_Some_2 buf 1) as [len ->]; [lia|].
    pose proof (byte_val_range len).
    rewrite buf_range_is_Some by lia.
    destruct (lookup_lt_is_Some_2 buf (2 + Z.to_nat (byte_val len))) as [hi ->]; [lia|].
    destruct (lookup_lt_is_Some_2 buf (3 + Z.to_nat (byte_val len))) as [lo ->]; [lia|].
    eauto.
Qed.

End Header.

Section HeaderClaims.
Context `{Cipher} (BUF_SIZE : nat).
Implicit Types (w : world) (sa ra : positive) (sv : server) (rm : remote).

Lemma header_outcome_trace w sa sv e got offset host port :
  trace (header_outcome BUF_SIZE w sa sv e got offset host port) !! length (trace w)
  = Some (EvGetaddrinfo host port).
Proof.
  unfold header_outcome, header_closed, awaiting_upstream.
  destruct (e_connect e) as [|fd]; [|destruct (decide (fd < 0))]; cbn;
    by rewrite lookup_app_r, Nat.sub_diag.
Qed.

(** C4. When the first byte of the decrypted first read is 1, the host
    handed to [getaddrinfo] is the dotted-decimal form of the four bytes at
    offsets 1 to 4 of the decrypted buffer, and the port is the decimal form
    of [256 * buf[5] + buf[6]], a 16-bit value. *)
Theorem ipv4_header_names_the_target w sa sv e data b0 b1 b2 b3 b4 b5 b6 :
  let got := take BUF_SIZE data in
  let dbuf := decrypted_buf (s_buf sv) got (s_d_ctx sv) in
  servers w !! sa = Some sv → stage0 sv → length (s_buf sv) = BUF_SIZE →
  e_recv e = RecvData data → got ≠ [] →
  dbuf !! 0%nat = Some b0 → char_val b0 = 1 →
  dbuf !! 1%nat = Some b1 → dbuf !! 2%nat = Some b2 →
  dbuf !! 3%nat = Some b3 → dbuf !! 4%nat = Some b4 →
  dbuf !! 5%nat = Some b5 → dbuf !! 6%nat = Some b6 →
  ∃ w', server_recv_cb BUF_SIZE (Some sa) e w = Ok tt w' ∧
    trace w' !! length (trace w) =
      Some (EvGetaddrinfo (inet_ntoa [b1; b2; b3; b4])
              (decimal (Z.to_N (256 * byte_val b5 + byte_val b6)))) ∧
    0 ≤ 256 * byte_val b5 + byte_val b6 < 65536.
Proof.
  intros got dbuf Ha (Hstage & Hnull & _) Hlen Hrecv Hne H0 Hv4 H1 H2 H3 H4 H5 H6.
  eexists. split; [|split].
  - eapply (header_parse_run BUF_SIZE); try done.
    fold got dbuf. unfold header_target. rewrite H0, decide_True by done.
    rewrite (buf_range_4 dbuf 1 b1 b2 b3 b4), H5, H6 by done. reflexivity.
  - apply header_outcome_trace.
  - pose proof (byte_val_range b5). pose proof (byte_val_range b6). lia.
Qed.

(** C6. When the first byte of the decrypted first read is neither 1 nor 3
    (so also for the reserved 2 and for 4, IPv6), the client socket is
    closed and the server record freed; nothing is resolved or connected
    and no remote record is made. *)
Theorem unsupported_atyp_closes_session w sa sv e data atyp :
  let got := take BUF_SIZE data in
  let dbuf := decrypted_buf (s_buf sv) got (s_d_ctx sv) in
  servers w !! sa = Some sv → stage0 sv → length (s_buf sv) = BUF_SIZE →
  e_recv e = RecvData data → got ≠ [] →
  dbuf !! 0%nat = Some atyp → char_val atyp ≠ 1 → char_val atyp ≠ 3 →
  ∃ w', server_recv_cb BUF_SIZE (Some sa) e w = Ok tt w' ∧
    servers w' !! sa = None ∧
    remotes w' = remotes w ∧
    trace w' = trace w ++ [EvClose (s_fd sv)].
Proof.
  intros got dbuf Ha (Hstage & Hnull & _) Hlen Hrecv Hne Hatyp Hnot4 Hnotdom.
  eexists. split; [by eapply (header_unsupported_run BUF_SIZE)|].
  cbn. by rewrite lookup_delete_eq.
Qed.


Lemma awaiting_upstream_flush w sa sv e fd got offset host port e2 k :
  let payload := drop offset (decrypt_ctx got (s_d_ctx sv)).1 in
  servers w !! sa = Some sv → (offset < length got ≤ BUF_SIZE)%nat →
  e_getpeername e2 = 0 → e_send e2 = SendAccept k →
  ∃ w'', remote_send_cb (Some (fresh (dom (remotes w)))) e2
           (awaiting_upstream BUF_SIZE w sa sv e fd got offset host port) = Ok tt w'' ∧
    trace w'' = trace w ++ [EvGetaddrinfo host port; EvConnect fd;
                            EvSend fd (take k payload)].
Proof.
  intros payload Ha Hoff Hpeer Hsend.
  assert (take (length got - offset)
            (drop offset (decrypted_buf (s_buf sv) got (s_d_ctx sv))) = payload) as Hpay.
  { apply take_drop_app_prefix; [apply decrypt_ctx_length|lia]. }
  assert (length payload = (length got - offset)%nat) as Hpaylen.
  { unfold payload. rewrite length_drop, decrypt_ctx_length. done. }
  unfold awaiting_upstream. rewrite Hpay.
  destruct w as [Sv Rm rc sc tr]; cbn in *.
  unfold remote_send_cb. run_total. rewrite Hsend. exec.
  destruct (decide (k < length payload)%nat) as [Hpart|Hall].
  - rewrite !Nat.min_l by lia. run_total.
    eexists. split; [reflexivity|]. cbn. by rewrite <-app_assoc.
  - rewrite !Nat.min_r by lia. run_total.
    eexists. split; [reflexivity|]. cbn.
    rewrite <-app_assoc, firstn_all, (take_ge payload k) by lia. done.
Qed.


(** C5. When the header parse succeeds and the first read brought [r]
    bytes with [r] greater than the header length [offset], the
    [r - offset] decrypted bytes after the header are at the start of the
    new remote's buffer and its [buf_len] is [r - offset]; once the connect
    is confirmed, the same dispatch of [remote_send_cb] sends them to the
    upstream socket. *)
Theorem piggybacked_payload_is_kept w sa sv e data host port offset fd :
  let got := take BUF_SIZE data in
  let dbuf := decrypted_buf (s_buf sv) got (s_d_ctx sv) in
  let payload := drop offset (decrypt_ctx got (s_d_ctx sv)).1 in
  servers w !! sa = Some sv → stage0 sv → length (s_buf sv) = BUF_SIZE →
  e_recv e = RecvData data →
  header_target dbuf = Some (host, port, offset) →
  (offset < length got)%nat →
  e_connect e = Socket fd → 0 ≤ fd →
  ∃ w' ra sv' rm',
    server_recv_cb BUF_SIZE (Some sa) e w = Ok tt w' ∧
    servers w' !! sa = Some sv' ∧ s_stage sv' = 4 ∧ s_remote sv' = Some ra ∧
    remotes w' !! ra = Some rm' ∧ r_fd rm' = fd ∧
    r_buf_len rm' = Z.of_nat (length got) - Z.of_nat offset ∧
    take (length got - offset) (r_buf rm') = payload ∧
    ∀ e2 k, e_getpeername e2 = 0 → e_send e2 = SendAccept k →
      ∃ w'', remote_send_cb (Some ra) e2 w' = Ok tt w'' ∧
        trace w'' = trace w' ++ [EvSend fd (take k payload)].
Proof.
  intros got dbuf payload Ha (Hstage & Hnull & _) Hlen Hrecv Htarget Hoff Hconn Hfd.
  assert (got ≠ []) as Hne.
  { intros Heq. rewrite Heq in Hoff. unfold length in Hoff. lia. }
  assert (length got ≤ BUF_SIZE)%nat as Hgot.
  { unfold got. rewrite length_take. lia. }
  exists (awaiting_upstream BUF_SIZE w sa sv e fd got offset host port).
  eexists (fresh (dom (remotes w))), _, _. split_and!.
  - rewrite (header_parse_run BUF_SIZE w sa sv e data got host port offset) by done.
    unfold header_outcome. rewrite Hconn, decide_False by lia. done.
  - cbn. by rewrite lookup_insert_eq.
  - done.
  - done.
  - cbn. by rewrite lookup_insert_eq.
  - done.
  - cbn. lia.
  - cbn. fold dbuf.
    assert (take (length got - offset) (drop offset dbuf) = payload) as ->.
    { apply take_drop_app_prefix; [apply decrypt_ctx_length|lia]. }
    apply take_app_length'. unfold payload.
    by rewrite length_drop, decrypt_ctx_length.
  - intros e2 k Hpeer Hsend.
    destruct (awaiting_upstream_flush w sa sv e fd got offset host port e2 k)
      as (w'' & Hrun & Htrace); try done.
    exists w''. split; [done|]. rewrite Htrace. cbn. by rewrite <-app_assoc.
Qed.

(** C7, as the code has it.  A first read shorter than the address header
    is not detected as such: the header is parsed from the buffer as it
    stands, the bytes past those read being what the buffer held before.
    The session is torn down on the grounds that end a complete header too,
    and on no other: when the address type is neither 1 nor 3 the client
    socket is closed and nothing is resolved or connected; when the address
    type is 1 or 3 and [getaddrinfo] fails or [socket] returns a negative
    descriptor the client socket is closed after [getaddrinfo] was called
    on the host and port so parsed.  When the address type is 1 or 3 and
    [getaddrinfo] and [socket] succeed, the target so obtained is connected
    to and the session goes on to stage 4, with no payload carried over:
    the new remote's [buf_len] is 0.  With buffers of at least 259 bytes an
    address type of 1 or 3 always gives a header, so these cases are all
    there are. *)
Theorem short_header_is_not_detected w sa sv e data :
  let got := take BUF_SIZE data in
  let dbuf := decrypted_buf (s_buf sv) got (s_d_ctx sv) in
  servers w !! sa = Some sv → stage0 sv → length (s_buf sv) = BUF_SIZE →
  e_recv e = RecvData data → got ≠ [] →
  (∀ i, (length got ≤ i)%nat → dbuf !! i = s_buf sv !! i) ∧
  (∀ atyp, dbuf !! 0%nat = Some atyp → char_val atyp ≠ 1 → char_val atyp ≠ 3 →
     ∃ w', server_recv_cb BUF_SIZE (Some sa) e w = Ok tt w' ∧
       servers w' !! sa = None ∧ remotes w' = remotes w ∧
       trace w' = trace w ++ [EvClose (s_fd sv)]) ∧
  (∀ host port offset,
     header_target dbuf = Some (host, port, offset) → (length got < offset)%nat →
     (e_connect e = GaiErr →
        ∃ w', server_recv_cb BUF_SIZE (Some sa) e w = Ok tt w' ∧
          servers w' !! sa = None ∧ remotes w' = remotes w ∧
          trace w' = trace w ++ [EvGetaddrinfo host port; EvClose (s_fd sv)]) ∧
     (∀ fd, e_connect e = Socket fd → fd < 0 →
        ∃ w', server_recv_cb BUF_SIZE (Some sa) e w = Ok tt w' ∧
          servers w' !! sa = None ∧ remotes w' = remotes w ∧
          trace w' = trace w ++
            [EvGetaddrinfo host port; EvClose fd; EvClose (s_fd sv)]) ∧
     (∀ fd, e_connect e = Socket fd → 0 ≤ fd →
        ∃ w' ra sv' rm',
          server_recv_cb BUF_SIZE (Some sa) e w = Ok tt w' ∧
          servers w' !! sa = Some sv' ∧ s_stage sv' = 4 ∧ s_remote sv' = Some ra ∧
          remotes w' !! ra = Some rm' ∧ r_fd rm' = fd ∧ r_buf_len rm' = 0 ∧
          trace w' = trace w ++ [EvGetaddrinfo host port; EvConnect fd])) ∧
  ((259 ≤ BUF_SIZE)%nat →
     ∀ atyp, dbuf !! 0%nat = Some atyp → char_val atyp = 1 ∨ char_val atyp = 3 →
       is_Some (header_target dbuf)).
Proof.
  intros got dbuf Ha (Hstage & Hnull & _) Hlen Hrecv Hne.
  split_and!.
  - intros i Hi. unfold dbuf, decrypted_buf.
    rewrite lookup_app_r; rewrite decrypt_ctx_length; [|done].
    rewrite lookup_drop. f_equal. lia.
  - intros atyp Hatyp Hnot4 Hnotdom.
    eexists. split; [by eapply (header_unsupported_run BUF_SIZE)|].
    cbn. by rewrite lookup_delete_eq.
  - intros host port offset Htarget Hshort.
    pose proof (header_parse_run BUF_SIZE w sa sv e data got host port offset
                  Ha Hstage Hnull Hlen Hrecv eq_refl Hne Htarget) as Hrun.
    unfold header_outcome in Hrun. split_and!.
    + intros Hconn. rewrite Hconn in Hrun.
      eexists. split; [exact Hrun|]. cbn. by rewrite lookup_delete_eq.
    + intros fd Hconn Hfd. rewrite Hconn, decide_True in Hrun by done.
      eexists. split; [exact Hrun|]. cbn. by rewrite lookup_delete_eq.
    + intros fd Hconn Hfd. rewrite Hconn, decide_False in Hrun by lia.
      exists (awaiting_upstream BUF_SIZE w sa sv e fd got offset host port).
      eexists (fresh (dom (remotes w))), _, _. split_and!.
      * done.
      * cbn. by rewrite lookup_insert_eq.
      * done.
      * done.
      * cbn. by rewrite lookup_insert_eq.
      * done.
      * cbn. lia.
      * done.
  - intros Hbig atyp Hatyp Hsup.
    apply (header_target_is_Some dbuf atyp); [|done..].
    unfold dbuf, decrypted_buf.
    rewrite length_app, decrypt_ctx_length, length_drop. unfold got.
    rewrite length_take. lia.
Qed.

End HeaderClaims.

(** * End of stream and connect completion *)

Ltac world_done :=
  f_equal; apply world_eq; cbn; rewrite ?delete_insert_eq, <-?app_assoc; done.

Section Connect.
Context `{Cipher} (BUF_SIZE : nat).
Implicit Types (w : world) (sa ra : positive) (sv : server) (rm : remote).

Lemma eof_before_header w sa sv e :
  servers w !! sa = Some sv → stage0 sv → e_recv e = RecvData [] →
  server_recv_cb BUF_SIZE (Some sa) e w = Ok tt (closed_server w sa sv).
Proof.
  intros Ha (Hstage & Hnull & _) Hrecv.
  destruct w as [Sv Rm rc sc tr]; cbn in *.
  unfold server_recv_cb. run_total. rewrite Hrecv, take_nil. run_total.
  world_done.
Qed.

(** C10. When [recv] returns 0, on the client socket or on the upstream
    socket, both records are closed and freed at once, whatever the forward
    buffers still hold: the only system calls are the two [close], so
    undelivered bytes are dropped. *)
Theorem eof_tears_down_at_once w sa sv ra rm e :
  linked w sa sv ra rm → e_recv e = RecvData [] →
  (s_stage sv ≠ 0 →
     server_recv_cb BUF_SIZE (Some sa) e w = Ok tt (closed_pair w sa sv ra rm)) ∧
  remote_recv_cb BUF_SIZE (Some ra) e w = Ok tt (closed_pair w sa sv ra rm) ∧
  servers (closed_pair w sa sv ra rm) !! sa = None ∧
  remotes (closed_pair w sa sv ra rm) !! ra = None ∧
  trace (closed_pair w sa sv ra rm) =
    trace w ++ [EvClose (r_fd rm); EvClose (s_fd sv)].
Proof.
  intros Hl Hrecv. pose proof Hl as (Ha & Hr & Hsr & Hrs).
  destruct w as [Sv Rm rc sc tr]; cbn in *. split_and!.
  - intros Hstage. unfold server_recv_cb. run_total.
    rewrite Hrecv, take_nil. run_total. world_done.
  - unfold remote_recv_cb. run_total.
    rewrite Hrecv, take_nil. run_total. world_done.
  - cbn. by rewrite lookup_delete_eq.
  - cbn. by rewrite lookup_delete_eq.
  - done.
Qed.

(** C3. In stage 4 the first write-ready event of the upstream socket
    asks [getpeername].  If it fails the session is closed.  If it succeeds,
    the block marks the remote connected, stops the connect timer, starts
    the upstream read watcher and sets the stage to 5; with an empty
    client-to-upstream buffer it also stops the upstream write watcher and
    starts the client read watcher, and returns; with carry-over bytes it
    leaves the upstream write watcher started and the client read watcher
    stopped, and control goes on to the send of those bytes. *)
Theorem connect_is_confirmed_by_getpeername w sa sv ra rm e :
  linked w sa sv ra rm → awaiting BUF_SIZE sv rm →
  (e_getpeername e ≠ 0 →
     remote_send_cb (Some ra) e w = Ok tt (closed_pair w sa sv ra rm)) ∧
  (e_getpeername e = 0 →
     ∃ w1 sv1 rm1,
       remote_send_connect (Some ra) (Some sa) e w
         = Ok (bool_decide (r_buf_len rm = 0)) w1 ∧
       servers w1 !! sa = Some sv1 ∧ remotes w1 !! ra = Some rm1 ∧
       s_stage sv1 = 5 ∧ r_connected rm1 = true ∧ r_watcher rm1 = false ∧
       r_recv_io rm1 = true ∧
       r_buf_len rm1 = r_buf_len rm ∧ r_buf rm1 = r_buf rm ∧
       (r_buf_len rm = 0 →
          r_send_io rm1 = false ∧ s_recv_io sv1 = true ∧
          remote_send_cb (Some ra) e w = Ok tt w1) ∧
       (r_buf_len rm ≠ 0 →
          r_send_io rm1 = true ∧ s_recv_io sv1 = false ∧
          remote_send_cb (Some ra) e w
            = remote_send_flush (Some ra) (Some sa) e w1 ∧
          ∀ k, e_send e = SendAccept k →
            (Z.to_nat (r_buf_len rm) ≤ length (r_buf rm))%nat →
            ∃ w2, remote_send_cb (Some ra) e w = Ok tt w2 ∧
              trace w2 = trace w ++
                [EvSend (r_fd rm)
                   (take k (take (Z.to_nat (r_buf_len rm)) (r_buf rm)))])).
Proof.
  intros Hl Haw. pose proof Hl as (Ha & Hr & Hsr & Hrs).
  destruct Haw as (Hstage & Hsrecv & Hssend & Hsb & Hrrecv & Hrsend & Htimer & Hconn & Hrb).
  destruct w as [Sv Rm rc sc tr]; cbn in *.
  split.
  - intros Hfail. unfold remote_send_cb. run_total. rewrite Hconn. run_total.
    world_done.
  - intros Hok.
    destruct (decide (r_buf_len rm = 0)) as [Hempty|Hdata].
    + eexists _, _, _. split_and!.
      * unfold remote_send_connect. run_total. reflexivity.
      * cbn. by rewrite lookup_insert_eq.
      * cbn. by rewrite lookup_insert_eq.
      * done.
      * done.
      * done.
      * done.
      * done.
      * done.
      * intros _. split_and!; [done|done|].
        unfold remote_send_cb. run_total. rewrite Hconn. run_total. done.
      * intros ?. done.
    + eexists _, _, _. split_and!.
      * unfold remote_send_connect. run_total. reflexivity.
      * cbn. by rewrite lookup_insert_eq.
      * cbn. by rewrite lookup_insert_eq.
      * done.
      * done.
      * done.
      * done.
      * done.
      * done.
      * intros ?. done.
      * intros _. split_and!; [done|done| |].
        -- unfold remote_send_cb. run_total. rewrite Hconn. run_total. done.
        -- intros k Hsend Hin.
           assert (length (take (Z.to_nat (r_buf_len rm)) (r_buf rm))
                   = Z.to_nat (r_buf_len rm)) as Hpend.
           { rewrite length_take. lia. }
           unfold remote_send_cb. run_total. rewrite Hconn. run_total.
           rewrite Hsend. exec. rewrite !Hpend.
           destruct (decide (k < Z.to_nat (r_buf_len rm))%nat).
           ++ rewrite !Nat.min_l by lia. run_total.
              eexists. split; [reflexivity|]. done.
           ++ rewrite !Nat.min_r by lia. run_total.
              eexists. split; [reflexivity|]. cbn.
              rewrite (take_ge _ k) by lia. by rewrite <-Hpend at 1; rewrite firstn_all.
Qed.

End Connect.

(** * One dispatch, as the rest of the process sees it *)

Section HeapSizes.

Lemma size_delete_live {A} (m : gmap positive A) i x :
  m !! i = Some x → Z.of_nat (size (delete i m)) = Z.of_nat (size m) - 1.
Proof.
  intros Hi. rewrite map_size_delete_Some by eauto.
  assert (size m ≠ 0)%nat; [|lia].
  intros Hz. apply map_size_empty_inv in Hz. subst. by rewrite lookup_empty in Hi.
Qed.

Lemma size_insert_live {A} (m : gmap positive A) i x y :
  m !! i = Some x → size (<[i:=y]> m) = size m.
Proof. intros Hi. apply map_size_insert_Some. eauto. Qed.

Lemma size_insert_fresh {A} (m : gmap positive A) y :
  Z.of_nat (size (<[fresh (dom m):=y]> m)) = Z.of_nat (size m) + 1.
Proof. rewrite map_size_insert_None by apply fresh_None. lia. Qed.

End HeapSizes.

Ltac size_norm :=
  repeat match goal with
  | H : ?m !! ?i = Some _ |- context [size (delete ?i ?m)] =>
      rewrite (size_delete_live m i _ H)
  | H : ?m !! ?i = Some _ |- context [size (<[?i:=?y]> ?m)] =>
      rewrite (size_insert_live m i _ y H)
  | |- context [size (<[fresh (dom ?m):=?y]> ?m)] =>
      rewrite (size_insert_fresh m y)
  end.

Ltac solve_counters :=
  unfold counters_ok; cbn; intros [? ?]; size_norm; split; lia.

(** [a0] is live in the old heap, so it is not the address [malloc] gives. *)
Ltac not_fresh a0 Hlive :=
  match goal with
  | |- context [<[fresh (dom ?R):=_]> ?R] =>
      assert (a0 ≠ fresh (dom R)) by (intros ->; rewrite fresh_None in Hlive; done)
  | H : context [<[fresh (dom ?R):=_]> ?R] |- _ =>
      assert (a0 ≠ fresh (dom R)) by (intros ->; rewrite fresh_None in Hlive; done)
  end.

Ltac solve_kept Hr :=
  split; cbn;
  [ intros ? ? ? ?; rewrite ?lookup_delete_ne, ?lookup_insert_ne by done; done
  | intros a0 rm0 Hother Hlive;
    first
    [ exact Hlive
    | not_fresh a0 Hlive; rewrite ?lookup_insert_ne by done; exact Hlive
    | match type of Hr with
      | ?R !! ?ra = Some ?rm =>
          assert (a0 ≠ ra) by (intros ->; rewrite Hr in Hlive; congruence);
          rewrite ?lookup_delete_ne, ?lookup_insert_ne by done; exact Hlive
      end ] ].

Ltac solve_advances :=
  cbn; rewrite ?lookup_delete_eq, ?lookup_insert_eq; known_lookup;
  intros ? ? [= <-]; first [ by intros [=] | intros [= <-]; split; cbn; [done|lia] ].

Ltac closed_event := rewrite ?elem_of_app, ?elem_of_cons; auto 10.

Ltac solve_gone Hlive Hgone a0 Hx :=
  first
  [ congruence
  | not_fresh a0 Hlive; rewrite ?lookup_insert_ne in Hgone by done; congruence
  | match type of Hx with
    | ?m !! ?x = Some ?v =>
        destruct (decide (a0 = x)) as [->|?];
        [ rewrite ?lookup_insert_eq, ?lookup_delete_eq in Hgone;
          first [ congruence
                | rewrite Hx in Hlive; injection Hlive as <-; closed_event ]
        | rewrite ?lookup_insert_ne, ?lookup_delete_ne in Hgone by done; congruence ]
    end ].

Ltac solve_closes Ha Hr :=
  unfold closes_freed; cbn; rewrite <-?app_assoc; eexists; split;
  [ first [reflexivity | symmetry; apply app_nil_r] |];
  split;
  [ intros a0 sv0 Hlive Hgone; solve_gone Hlive Hgone a0 Ha
  | intros a0 rm0 Hlive Hgone; solve_gone Hlive Hgone a0 Hr ].

Ltac solve_step Ha Hr :=
  intros [= <-];
  split; [solve_counters|split; [solve_kept Hr|split; [solve_advances|solve_closes Ha Hr]]].

Section StepLemmas.
Context `{Cipher} (BUF_SIZE : nat).
Implicit Types (w : world) (sa ra : positive) (sv : server) (rm : remote).

Lemma step_post_refl w sa : step_post w sa w.
Proof.
  split; [done|]. split; [by split|]. split.
  - intros sv sv' -> [= <-]. split; [done|by left].
  - exists []. rewrite app_nil_r. split; [done|]. split; intros; congruence.
Qed.

Lemma server_recv_cb_step w w' sa sv e :
  world_inv BUF_SIZE w → servers w !! sa = Some sv → s_recv_io sv = true →
  server_recv_cb BUF_SIZE (Some sa) e w = Ok tt w' → step_post w sa w'.
Proof.
  intros Hinv Ha Hio.
  destruct (world_inv_linked _ _ _ _ Hinv Ha)
    as [Hlen [Hst|(ra & rm & Hl & Hrlen & [Hst|Hst])]].
  - destruct Hst as (Hstage & Hrem & _ & Hsio & Hbl).
    destruct w as [S R rc sc tr]; cbn in *.
    unfold server_recv_cb. run.
    all: first [ intros [= <-]; apply step_post_refl | solve_step Ha Ha ].
  - destruct Hst as (_ & Hoff & _). congruence.
  - destruct Hl as (_ & Hr & Hsr & Hrs).
    destruct Hst as (Hstage & Hconn & Htimer & Hrb & Hsb & Hsrecv & Hrsend & Hrrecv & Hssend).
    destruct w as [S R rc sc tr]; cbn in *.
    unfold server_recv_cb. run.
    all: first [ intros [= <-]; apply step_post_refl | solve_step Ha Hr ].
Qed.

Lemma server_send_cb_step w w' sa sv e :
  world_inv BUF_SIZE w → servers w !! sa = Some sv → s_send_io sv = true →
  server_send_cb (Some sa) e w = Ok tt w' → step_post w sa w'.
Proof.
  intros Hinv Ha Hio.
  destruct (world_inv_linked _ _ _ _ Hinv Ha)
    as [Hlen [Hst|(ra & rm & Hl & Hrlen & [Hst|Hst])]].
  - destruct Hst as (_ & _ & _ & Hoff & _). congruence.
  - destruct Hst as (_ & _ & Hoff & _). congruence.
  - destruct Hl as (_ & Hr & Hsr & Hrs).
    destruct Hst as (Hstage & Hconn & Htimer & Hrb & Hsb & Hsrecv & Hrsend & Hrrecv & Hssend).
    destruct w as [S R rc sc tr]; cbn in *.
    unfold server_send_cb. run.
    all: first [ intros [= <-]; apply step_post_refl | solve_step Ha Hr ].
Qed.

Lemma remote_recv_cb_step w w' sa sv ra rm e :
  linked w sa sv ra rm →
  remote_recv_cb BUF_SIZE (Some ra) e w = Ok tt w' → step_post w sa w'.
Proof.
  intros (Ha & Hr & Hsr & Hrs).
  destruct w as [S R rc sc tr]; cbn in *.
  unfold remote_recv_cb. run.
  all: first [ intros [= <-]; apply step_post_refl | solve_step Ha Hr ].
Qed.

Lemma remote_send_cb_step w w' sa sv ra rm e :
  world_inv BUF_SIZE w → linked w sa sv ra rm → r_send_io rm = true →
  remote_send_cb (Some ra) e w = Ok tt w' → step_post w sa w'.
Proof.
  intros Hinv Hl Hio. pose proof Hl as (Ha & Hr & Hsr & Hrs).
  destruct (world_inv_linked _ _ _ _ Hinv Ha)
    as [Hlen [Hst|(ra' & rm' & Hl' & Hrlen & Hst)]].
  { destruct Hst as (_ & ? & _). congruence. }
  destruct Hl' as (_ & Hr' & Hsr' & _).
  assert (ra' = ra) as -> by congruence. assert (rm' = rm) as -> by congruence.
  destruct Hst as [Hst|Hst].
  - destruct Hst as (Hstage & Hsrecv & Hssend & Hsb & Hrrecv & Hrsend & Htimer & Hconn & Hrb).
    destruct w as [S R rc sc tr]; cbn in *.
    unfold remote_send_cb. run.
    all: first [ intros [= <-]; apply step_post_refl | solve_step Ha Hr ].
  - destruct Hst as (Hstage & Hconn & Htimer & Hrb & Hsb & Hsrecv & Hrsend & Hrrecv & Hssend).
    destruct w as [S R rc sc tr]; cbn in *.
    unfold remote_send_cb. run.
    all: first [ intros [= <-]; apply step_post_refl | solve_step Ha Hr ].
Qed.

Lemma remote_timeout_cb_step w w' sa sv ra rm :
  linked w sa sv ra rm →
  remote_timeout_cb (Some ra) w = Ok tt w' → step_post w sa w'.
Proof.
  intros (Ha & Hr & Hsr & Hrs).
  destruct w as [S R rc sc tr]; cbn in *.
  unfold remote_timeout_cb. run.
  all: first [ intros [= <-]; apply step_post_refl | solve_step Ha Hr ].
Qed.

Lemma accept_cb_step w w' timeout e :
  accept_cb BUF_SIZE timeout e w = Ok tt w' →
  step_post w (fresh (dom (servers w))) w'.
Proof.
  destruct w as [S R rc sc tr]; cbn in *.
  unfold accept_cb. run.
  all: first [ intros [= <-]; apply step_post_refl | idtac ].
  intros [= <-]. split; [solve_counters|]. split; [|split].
  - split; cbn; [|done]. intros a sv0 Hne Hlive. by rewrite lookup_insert_ne.
  - cbn. intros sv sv'. by rewrite fresh_None.
  - exists []. cbn. rewrite app_nil_r. split; [done|]. split.
    + intros a sv0 Hlive Hgone.
      assert (a ≠ fresh (dom S)) by (intros ->; rewrite fresh_None in Hlive; done).
      rewrite lookup_insert_ne in Hgone by done. congruence.
    + intros; congruence.
Qed.

(** The session a remote record belongs to. *)
Lemma linked_of_remote w sa sv ra rm :
  world_inv BUF_SIZE w → servers w !! sa = Some sv →
  s_remote sv = Some ra → remotes w !! ra = Some rm → linked w sa sv ra rm.
Proof.
  intros Hinv Ha Hsr Hr.
  destruct (world_inv_linked _ _ _ _ Hinv Ha) as [_ [Hst|(ra' & rm' & Hl' & _)]].
  { destruct Hst as (_ & ? & _). congruence. }
  destruct Hl' as (_ & Hr' & Hsr' & Hrs').
  assert (ra' = ra) as -> by congruence.
  assert (rm' = rm) as -> by congruence. by split_and!.
Qed.

Lemma dispatch_step w w' :
  world_inv BUF_SIZE w → dispatch BUF_SIZE w w' → ∃ sa, step_post w sa w'.
Proof.
  intros Hinv Hd. destruct Hd as [timeout e w w' Hrun|a sv e w w' Ha Hio Hrun
    |a sv e w w' Ha Hio Hrun|a rm e w w' Hr Hio Hrun|a rm e w w' Hr Hio Hrun
    |a rm w w' Hr Hio Hrun].
  - eexists. by eapply accept_cb_step.
  - exists a. by eapply server_recv_cb_step.
  - exists a. by eapply server_send_cb_step.
  - destruct (world_inv_linked_remote _ _ _ _ Hinv Hr) as (sa & sv & Hl & _).
    exists sa. by eapply remote_recv_cb_step.
  - destruct (world_inv_linked_remote _ _ _ _ Hinv Hr) as (sa & sv & Hl & _).
    exists sa. by eapply remote_send_cb_step.
  - destruct (world_inv_linked_remote _ _ _ _ Hinv Hr) as (sa & sv & Hl & _).
    exists sa. by eapply remote_timeout_cb_step.
Qed.

(** X2. In every state the event loop can reach, [server_conn] is the
    number of live [struct server] and [remote_conn] the number of live
    [struct remote]: each [new_*] counts one up and allocates one record,
    each [free_*] counts one down and releases one.  ([free_*] counts down
    for [NULL] too; the equality shows it is not reached with [NULL].) *)
Theorem connection_counters_count_live_records w :
  reachable BUF_SIZE w →
  server_conn w = Z.of_nat (size (servers w)) ∧
  remote_conn w = Z.of_nat (size (remotes w)).
Proof.
  unfold reachable. revert w.
  apply (rtc_ind_r (λ w, counters_ok w)).
  - split; cbn; by rewrite map_size_empty.
  - intros y z Hprefix Hd IH.
    destruct (dispatch_step y z (reachable_inv _ _ Hprefix) Hd) as (sa & Hpost & _).
    by apply Hpost.
Qed.

(** X3. Across one dispatch, a server record that stays live keeps its
    socket, and its stage either stays or goes from 0 to 4 or from 4 to 5:
    a session never goes back, and never skips the connect. *)
Theorem stage_only_advances w w' a sv sv' :
  reachable BUF_SIZE w → dispatch BUF_SIZE w w' →
  servers w !! a = Some sv → servers w' !! a = Some sv' →
  s_fd sv' = s_fd sv ∧
  (s_stage sv' = s_stage sv ∨ (s_stage sv = 0 ∧ s_stage sv' = 4) ∨
   (s_stage sv = 4 ∧ s_stage sv' = 5)).
Proof.
  intros Hreach Hd Ha Ha'.
  destruct (dispatch_step w w' (reachable_inv _ _ Hreach) Hd)
    as (sa & _ & [Hkept _] & Hadv & _).
  destruct (decide (a = sa)) as [->|Hne]; [by apply Hadv|].
  rewrite (Hkept _ _ Hne Ha) in Ha'. injection Ha' as <-. split; [done|by left].
Qed.

(** X5. Across one dispatch, whenever a server or remote record is
    released, [close] has been called on its socket in that dispatch: no
    descriptor is left open without a record. *)
Theorem freed_records_are_closed w w' :
  reachable BUF_SIZE w → dispatch BUF_SIZE w w' →
  ∃ evs, trace w' = trace w ++ evs ∧
    (∀ a sv, servers w !! a = Some sv → servers w' !! a = None →
       EvClose (s_fd sv) ∈ evs) ∧
    (∀ a rm, remotes w !! a = Some rm → remotes w' !! a = None →
       EvClose (r_fd rm) ∈ evs).
Proof.
  intros Hreach Hd.
  destruct (dispatch_step w w' (reachable_inv _ _ Hreach) Hd)
    as (sa & _ & _ & _ & Hcl).
  exact Hcl.
Qed.

(** X4. When one of the five callbacks of the session at [sa] has run
    (from a reachable state, its watcher being started), every server
    record at another address and every remote record of another session
    is exactly as before: the sessions do not touch each other. *)
Theorem other_sessions_are_untouched w sa sv e w' :
  reachable BUF_SIZE w → servers w !! sa = Some sv →
  (s_recv_io sv = true ∧ server_recv_cb BUF_SIZE (Some sa) e w = Ok tt w') ∨
  (s_send_io sv = true ∧ server_send_cb (Some sa) e w = Ok tt w') ∨
  (∃ ra rm, s_remote sv = Some ra ∧ remotes w !! ra = Some rm ∧
     ((r_recv_io rm = true ∧ remote_recv_cb BUF_SIZE (Some ra) e w = Ok tt w') ∨
      (r_send_io rm = true ∧ remote_send_cb (Some ra) e w = Ok tt w') ∨
      (r_watcher rm = true ∧ remote_timeout_cb (Some ra) w = Ok tt w'))) →
  (∀ a sv0, a ≠ sa → servers w !! a = Some sv0 → servers w' !! a = Some sv0) ∧
  (∀ a rm0, r_server rm0 ≠ Some sa → remotes w !! a = Some rm0 →
     remotes w' !! a = Some rm0).
Proof.
  intros Hreach Ha Hran. pose proof (reachable_inv _ _ Hreach) as Hinv.
  assert (step_post w sa w') as (_ & Hkept & _); [|exact Hkept].
  destruct Hran as [[Hio Hrun]|[[Hio Hrun]|(ra & rm & Hsr & Hr & Hran)]].
  - by eapply server_recv_cb_step.
  - by eapply server_send_cb_step.
  - pose proof (linked_of_remote _ _ _ _ _ Hinv Ha Hsr Hr) as Hl.
    destruct Hran as [[Hio Hrun]|[[Hio Hrun]|[Hio Hrun]]].
    + by eapply remote_recv_cb_step.
    + by eapply remote_send_cb_step.
    + by eapply remote_timeout_cb_step.
Qed.

End StepLemmas.

(** * The callbacks return to the loop

    [malloc] apart: the paths that go through [new_server] or [new_remote]
    are left out, and so is [accept_cb], which allocates whenever [accept]
    gives a descriptor. *)

Ltac returns_case :=
  lazymatch goal with |- returns_no_alloc _ ?X => run_case_on X end.
Ltac run_returns := repeat (run_total; try returns_case); try (cbn; lia).

Section Safe.
Context `{Cipher} (BUF_SIZE : nat).
Implicit Types (w : world) (sa ra : positive) (sv : server) (rm : remote).

Lemma returns_no_alloc_Ok w (o : outcome unit) :
  returns_no_alloc w o →
  ∃ w', o = Ok tt w' ∧
    server_conn w' ≤ server_conn w ∧ remote_conn w' ≤ remote_conn w.
Proof. destruct o as [[] w'| |]; [eauto|done..]. Qed.

Lemma server_recv_cb_returns w sa sv e :
  (259 ≤ BUF_SIZE)%nat →
  world_inv BUF_SIZE w → servers w !! sa = Some sv → s_recv_io sv = true →
  ¬ reaches_new_remote BUF_SIZE sv e →
  returns_no_alloc w (server_recv_cb BUF_SIZE (Some sa) e w).
Proof.
  intros Hbig Hinv Ha Hio Hfail.
  destruct (world_inv_linked _ _ _ _ Hinv Ha)
    as [Hlen [Hst|(ra & rm & Hl & Hrlen & [Hst|Hst])]].
  - destruct Hst as (Hstage & Hrem & _ & Hsio & Hbl).
    destruct (e_recv e) as [data|errno] eqn:Hrecv.
    + destruct (take BUF_SIZE data) as [|b l] eqn:Hgot.
      { destruct w as [S R rc sc tr]; cbn in *.
        unfold server_recv_cb. exec. rewrite Hrecv. exec. rewrite Hgot. run_returns. }
      assert (take BUF_SIZE data ≠ []) as Hne by (by rewrite Hgot).
      set (dbuf := decrypted_buf (s_buf sv) (take BUF_SIZE data) (s_d_ctx sv)).
      assert (length dbuf = BUF_SIZE) as Hdlen.
      { unfold dbuf, decrypted_buf.
        rewrite length_app, decrypt_ctx_length, length_drop, length_take. lia. }
      destruct (lookup_lt_is_Some_2 dbuf 0) as [atyp Hatyp]; [lia|].
      destruct (decide (char_val atyp = 1 ∨ char_val atyp = 3)) as [Hsup|Hunsup].
      * destruct (header_target_is_Some dbuf atyp) as [[[host port] offset] Htarget];
          [lia|done|done|].
        rewrite (header_parse_run BUF_SIZE w sa sv e data (take BUF_SIZE data)
                   host port offset) by done.
        unfold header_outcome.
        destruct (e_connect e) as [|fd] eqn:Hconn; [cbn; lia|].
        destruct (decide (fd < 0)) as [Hneg|Hfd]; [cbn; lia|].
        destruct Hfail. split; [done|].
        exists data, atyp, fd. split_and!; [done..|lia].
      * assert (char_val atyp ≠ 1 ∧ char_val atyp ≠ 3) as [? ?] by tauto.
        rewrite (header_unsupported_run BUF_SIZE w sa sv e data (take BUF_SIZE data)
                   atyp) by done.
        cbn. lia.
    + destruct w as [S R rc sc tr]; cbn in *.
      unfold server_recv_cb. exec. rewrite Hrecv. run_returns.
  - destruct Hst as (_ & Hoff & _). congruence.
  - destruct Hl as (_ & Hr & Hsr & Hrs).
    destruct Hst as (Hstage & Hconn & Htimer & Hrb & Hsb & Hsrecv & Hrsend & Hrrecv & Hssend).
    destruct w as [S R rc sc tr]; cbn in *.
    unfold server_recv_cb. exec.
    destruct (e_recv e) as [data|errno] eqn:Hrecv; [|run_returns].
    exec. destruct (take BUF_SIZE data) as [|b l] eqn:Hgot; [run_returns|].
    apply take_cons_length in Hgot.
    run_returns.
Qed.

Lemma server_send_cb_returns w sa sv e :
  world_inv BUF_SIZE w → servers w !! sa = Some sv → s_send_io sv = true →
  returns_no_alloc w (server_send_cb (Some sa) e w).
Proof.
  intros Hinv Ha Hio.
  destruct (world_inv_linked _ _ _ _ Hinv Ha)
    as [Hlen [Hst|(ra & rm & Hl & Hrlen & [Hst|Hst])]].
  - destruct Hst as (_ & _ & _ & Hoff & _). congruence.
  - destruct Hst as (_ & _ & Hoff & _). congruence.
  - destruct Hl as (_ & Hr & Hsr & Hrs).
    destruct Hst as (Hstage & Hconn & Htimer & Hrb & Hsb & Hsrecv & Hrsend & Hrrecv & Hssend).
    destruct w as [S R rc sc tr]; cbn in *.
    unfold server_send_cb. run_returns.
Qed.

Lemma remote_recv_cb_returns w ra rm e :
  world_inv BUF_SIZE w → remotes w !! ra = Some rm → r_recv_io rm = true →
  returns_no_alloc w (remote_recv_cb BUF_SIZE (Some ra) e w).
Proof.
  intros Hinv Hr Hio.
  destruct (world_inv_linked_remote _ _ _ _ Hinv Hr)
    as (sa & sv & Hl & Hlen & Hrlen & [Hst|Hst]).
  - destruct Hst as (_ & _ & _ & _ & Hoff & _). congruence.
  - destruct Hl as (Ha & _ & Hsr & Hrs).
    destruct Hst as (Hstage & Hconn & Htimer & Hrb & Hsb & Hsrecv & Hrsend & Hrrecv & Hssend).
    destruct w as [S R rc sc tr]; cbn in *.
    unfold remote_recv_cb. exec.
    destruct (e_recv e) as [data|errno] eqn:Hrecv; [|run_returns].
    exec. destruct (take BUF_SIZE data) as [|b l] eqn:Hgot; [run_returns|].
    apply take_cons_length in Hgot.
    run_returns.
Qed.

Lemma remote_send_cb_returns w ra rm e :
  world_inv BUF_SIZE w → remotes w !! ra = Some rm → r_send_io rm = true →
  returns_no_alloc w (remote_send_cb (Some ra) e w).
Proof.
  intros Hinv Hr Hio.
  destruct (world_inv_linked_remote _ _ _ _ Hinv Hr)
    as (sa & sv & Hl & Hlen & Hrlen & Hst).
  destruct Hl as (Ha & _ & Hsr & Hrs).
  destruct Hst as [Hst|Hst].
  - destruct Hst as (Hstage & Hsrecv & Hssend & Hsb & Hrrecv & Hrsend & Htimer & Hconn & Hrb).
    destruct w as [S R rc sc tr]; cbn in *.
    unfold remote_send_cb. run_returns.
  - destruct Hst as (Hstage & Hconn & Htimer & Hrb & Hsb & Hsrecv & Hrsend & Hrrecv & Hssend).
    destruct w as [S R rc sc tr]; cbn in *.
    unfold remote_send_cb. run_returns.
Qed.

Lemma remote_timeout_cb_returns w ra rm :
  world_inv BUF_SIZE w → remotes w !! ra = Some rm →
  returns_no_alloc w (remote_timeout_cb (Some ra) w).
Proof.
  intros Hinv Hr.
  destruct (world_inv_linked_remote _ _ _ _ Hinv Hr)
    as (sa & sv & Hl & Hlen & Hrlen & Hst).
  destruct Hl as (Ha & _ & Hsr & Hrs).
  destruct w as [S R rc sc tr]; cbn in *.
  unfold remote_timeout_cb. run_returns.
Qed.

(** X1. With buffers of at least 259 bytes (the longest address header),
    from every state the event loop can reach each session callback whose
    watcher is started returns to the loop on every path that allocates
    nothing, and neither connection counter grows: [server_send_cb],
    [remote_recv_cb], [remote_send_cb] and [remote_timeout_cb] whatever the
    kernel answers, and [server_recv_cb] whatever the kernel answers but
    for the first read that goes on to [new_remote] (an address type of 1
    or 3 with [getaddrinfo] and [socket] succeeding).  On these paths no
    [NULL] or freed record is dereferenced, no buffer is read or written
    out of bounds, no [assert] fails and [FATAL] is not reached.  The first
    read that goes on to [new_remote], and [accept_cb], are not covered:
    [malloc]'s result is used unchecked there. *)
Theorem dispatched_callbacks_return w :
  (259 ≤ BUF_SIZE)%nat → reachable BUF_SIZE w →
  let no_new w' :=
    server_conn w' ≤ server_conn w ∧ remote_conn w' ≤ remote_conn w in
  (∀ sa sv e, servers w !! sa = Some sv → s_recv_io sv = true →
     ¬ reaches_new_remote BUF_SIZE sv e →
     ∃ w', server_recv_cb BUF_SIZE (Some sa) e w = Ok tt w' ∧ no_new w') ∧
  (∀ sa sv e, servers w !! sa = Some sv → s_send_io sv = true →
     ∃ w', server_send_cb (Some sa) e w = Ok tt w' ∧ no_new w') ∧
  (∀ ra rm e, remotes w !! ra = Some rm → r_recv_io rm = true →
     ∃ w', remote_recv_cb BUF_SIZE (Some ra) e w = Ok tt w' ∧ no_new w') ∧
  (∀ ra rm e, remotes w !! ra = Some rm → r_send_io rm = true →
     ∃ w', remote_send_cb (Some ra) e w = Ok tt w' ∧ no_new w') ∧
  (∀ ra rm, remotes w !! ra = Some rm → r_watcher rm = true →
     ∃ w', remote_timeout_cb (Some ra) w = Ok tt w' ∧ no_new w').
Proof.
  intros Hbig Hreach no_new. pose proof (reachable_inv _ _ Hreach) as Hinv.
  split_and!; intros.
  - apply returns_no_alloc_Ok. by eapply server_recv_cb_returns.
  - apply returns_no_alloc_Ok. by eapply server_send_cb_returns.
  - apply returns_no_alloc_Ok. by eapply remote_recv_cb_returns.
  - apply returns_no_alloc_Ok. by eapply remote_send_cb_returns.
  - apply returns_no_alloc_Ok. by eapply remote_timeout_cb_returns.
Qed.

End Safe.

(** * The shape of the reachable states *)

Section Shape.
Context `{Cipher} (BUF_SIZE : nat).
Implicit Types (w : world) (sa ra : positive) (sv : server) (rm : remote).

(** X6. In every state the event loop can reach, no peer pointer dangles:
    a [server->remote] that is not [NULL] refers to a live remote whose
    [server] points back, and the other way round; every live remote has
    a server ([remote->server] is never [NULL]), and a server has a remote
    exactly when it has left stage 0. *)
Theorem peers_point_at_each_other w :
  reachable BUF_SIZE w →
  links_ok w ∧
  (∀ ra rm, remotes w !! ra = Some rm → r_server rm ≠ NULL) ∧
  (∀ sa sv, servers w !! sa = Some sv → (s_remote sv = NULL ↔ s_stage sv = 0)).
Proof.
  intros Hreach. apply reachable_inv in Hreach. split_and!.
  - split.
    + intros sa sv ra Ha Hsr.
      destruct (world_inv_linked _ _ _ _ Hreach Ha) as [_ [Hst|(ra' & rm & Hl & _)]].
      { destruct Hst as (_ & ? & _). congruence. }
      destruct Hl as (_ & Hr & Hsr' & Hrs).
      assert (ra' = ra) as -> by congruence. eauto.
    + intros ra rm sa Hr Hrs.
      destruct (world_inv_linked_remote _ _ _ _ Hreach Hr) as (sa' & sv & Hl & _).
      destruct Hl as (Ha & _ & Hsr & Hrs').
      assert (sa' = sa) as -> by congruence. eauto.
  - intros ra rm Hr.
    destruct (world_inv_linked_remote _ _ _ _ Hreach Hr) as (sa & sv & Hl & _).
    destruct Hl as (_ & _ & _ & Hrs). congruence.
  - intros sa sv Ha.
    destruct (world_inv_linked _ _ _ _ Hreach Ha)
      as [_ [Hst|(ra & rm & Hl & _ & [Hst|Hst])]].
    + destruct Hst as (? & ? & _). done.
    + destruct Hl as (_ & _ & Hsr & _). destruct Hst as (? & _).
      split; [congruence|lia].
    + destruct Hl as (_ & _ & Hsr & _). destruct Hst as (? & _).
      split; [congruence|lia].
Qed.

(** X7. In every state the event loop can reach, a session is in stage
    0, 4 or 5.  In stage 0 only the client read watcher is started.  The
    connect timer runs exactly in stage 4 and [connected] is set exactly
    in stage 5; in stage 4 the upstream write watcher is the only [ev_io]
    watcher started. *)
Theorem watchers_follow_the_stage w sa sv :
  reachable BUF_SIZE w → servers w !! sa = Some sv →
  (s_stage sv = 0 ∨ s_stage sv = 4 ∨ s_stage sv = 5) ∧
  (s_stage sv = 0 → s_recv_io sv = true ∧ s_send_io sv = false) ∧
  (∀ ra rm, s_remote sv = Some ra → remotes w !! ra = Some rm →
     (r_watcher rm = true ↔ s_stage sv = 4) ∧
     (r_connected rm = true ↔ s_stage sv = 5) ∧
     (s_stage sv = 4 →
        s_recv_io sv = false ∧ s_send_io sv = false ∧
        r_recv_io rm = false ∧ r_send_io rm = true)).
Proof.
  intros Hreach Ha. apply reachable_inv in Hreach.
  destruct (world_inv_linked _ _ _ _ Hreach Ha)
    as [_ [Hst|(ra & rm & Hl & _ & Hst)]].
  - destruct Hst as (Hstage & Hnull & Hrecv & Hsend & _).
    split_and!; [by left|done|]. intros ra rm Hsr. congruence.
  - destruct Hl as (_ & Hr & Hsr & _).
    assert (∀ ra' rm', s_remote sv = Some ra' → remotes w !! ra' = Some rm' →
              rm' = rm) as Hsame.
    { intros ra' rm' Hsr' Hr'. assert (ra' = ra) as -> by congruence. congruence. }
    destruct Hst as [Hst|Hst].
    + destruct Hst as (Hstage & Hsrecv & Hssend & _ & Hrrecv & Hrsend & Htimer & Hconn & _).
      split_and!; [by right; left|lia|].
      intros ra' rm' Hsr' Hr'. rewrite (Hsame _ _ Hsr' Hr').
      split_and!; [done|split; [congruence|lia]|done].
    + destruct Hst as (Hstage & Hconn & Htimer & _).
      split_and!; [by right; right|lia|].
      intros ra' rm' Hsr' Hr'. rewrite (Hsame _ _ Hsr' Hr').
      split_and!; [split; [congruence|lia]|done|lia].
Qed.

(** X8. In every state the event loop can reach, both buffers of a session
    keep their [BUF_SIZE] bytes and their occupancy stays between 0 and
    [BUF_SIZE]; before stage 5 the upstream-to-client buffer is empty. *)
Theorem buffers_stay_within_capacity w :
  reachable BUF_SIZE w →
  (∀ sa sv, servers w !! sa = Some sv →
     length (s_buf sv) = BUF_SIZE ∧ 0 ≤ s_buf_len sv ≤ Z.of_nat BUF_SIZE ∧
     (s_stage sv ≠ 5 → s_buf_len sv = 0)) ∧
  (∀ ra rm, remotes w !! ra = Some rm →
     length (r_buf rm) = BUF_SIZE ∧ 0 ≤ r_buf_len rm ≤ Z.of_nat BUF_SIZE).
Proof.
  intros Hreach. apply reachable_inv in Hreach. split.
  - intros sa sv Ha.
    destruct (world_inv_linked _ _ _ _ Hreach Ha)
      as [Hlen [Hst|(ra & rm & Hl & _ & [Hst|Hst])]].
    + destruct Hst as (_ & _ & _ & _ & Hbl). split_and!; [done|lia|lia|done].
    + destruct Hst as (_ & _ & _ & Hbl & _). split_and!; [done|lia|lia|done].
    + destruct Hst as (Hstage & _ & _ & _ & Hsb & _). split_and!; [done|lia|lia|lia].
  - intros ra rm Hr.
    destruct (world_inv_linked_remote _ _ _ _ Hreach Hr)
      as (sa & sv & _ & _ & Hlen & [Hst|Hst]).
    + destruct Hst as (_ & _ & _ & _ & _ & _ & _ & _ & Hrb). done.
    + destruct Hst as (_ & _ & _ & Hrb & _). done.
Qed.

End Shape.

(** * Forwarding *)

Section Forward.
Context `{Cipher} (BUF_SIZE : nat).
Implicit Types (w : world) (sa ra : positive) (sv : server) (rm : remote).

Lemma take_all_min {A} (l : list A) k n :
  length l = n → (n ≤ k)%nat → take (k `min` n) l = l.
Proof. intros <- Hk. apply take_ge. lia. Qed.

(** X9. In stage 5, when the client socket has data and the upstream
    socket takes all of it, what is sent upstream is the decryption, under
    the session's [d_ctx], of the at most [BUF_SIZE] bytes read; [d_ctx]
    moves on by those bytes and nothing else of the session changes but
    the contents of the buffer. *)
Theorem client_bytes_are_decrypted_and_forwarded w sa sv ra rm e data k :
  let got := take BUF_SIZE data in
  linked w sa sv ra rm → s_stage sv = 5 → length (r_buf rm) = BUF_SIZE →
  e_recv e = RecvData data → got ≠ [] →
  e_send e = SendAccept k → (length got ≤ k)%nat →
  ∃ w', server_recv_cb BUF_SIZE (Some sa) e w = Ok tt w' ∧
    trace w' = trace w ++ [EvSend (r_fd rm) (decrypt_ctx got (s_d_ctx sv)).1] ∧
    servers w' !! sa = Some (set_s_d_ctx (decrypt_ctx got (s_d_ctx sv)).2 sv) ∧
    remotes w' !! ra =
      Some (set_r_buf (decrypted_buf (r_buf rm) got (s_d_ctx sv)) rm).
Proof.
  intros got (Ha & Hr & Hsr & Hrs) Hstage Hlen Hrecv Hne Hsend Hk.
  destruct w as [Sv Rm rc sc tr]; cbn in *.
  unfold server_recv_cb. run_total. rewrite Hrecv. exec.
  subst got. destruct (take BUF_SIZE data) as [|b l] eqn:Hgot; [done|].
  apply take_cons_length in Hgot.
  run_total. rewrite Hsend. run_total.
  eexists. split; [reflexivity|]. cbn. rewrite !lookup_insert_eq.
  rewrite take_all_min by (rewrite ?decrypt_ctx_length; done). done.
Qed.

(** X10. When the upstream socket has data and the client socket takes
    all of it, what is sent to the client is the encryption, under the
    session's [e_ctx], of the at most [BUF_SIZE] bytes read; [e_ctx] moves
    on by those bytes and the remote record is unchanged. *)
Theorem upstream_bytes_are_encrypted_and_forwarded w sa sv ra rm e data k :
  let got := take BUF_SIZE data in
  linked w sa sv ra rm → length (s_buf sv) = BUF_SIZE →
  e_recv e = RecvData data → got ≠ [] →
  e_send e = SendAccept k → (length got ≤ k)%nat →
  ∃ w', remote_recv_cb BUF_SIZE (Some ra) e w = Ok tt w' ∧
    trace w' = trace w ++ [EvSend (s_fd sv) (encrypt_ctx got (s_e_ctx sv)).1] ∧
    servers w' !! sa =
      Some (set_s_e_ctx (encrypt_ctx got (s_e_ctx sv)).2
              (set_s_buf ((encrypt_ctx got (s_e_ctx sv)).1 ++
                          drop (length got) (s_buf sv)) sv)) ∧
    remotes w' !! ra = Some rm.
Proof.
  intros got (Ha & Hr & Hsr & Hrs) Hlen Hrecv Hne Hsend Hk.
  destruct w as [Sv Rm rc sc tr]; cbn in *.
  unfold remote_recv_cb. run_total. rewrite Hrecv. exec.
  subst got. destruct (take BUF_SIZE data) as [|b l] eqn:Hgot; [done|].
  apply take_cons_length in Hgot.
  run_total. rewrite Hsend. run_total.
  eexists. split; [reflexivity|]. cbn. rewrite !lookup_insert_eq.
  rewrite take_all_min by (rewrite ?encrypt_ctx_length; done). done.
Qed.

(** X11. A [recv] that fails with [EAGAIN] or [EWOULDBLOCK] changes
    nothing: [server_recv_cb], in whatever stage the session is (so also
    at the first read, before there is a remote), and [remote_recv_cb]
    return with the process state, and so the cipher contexts, the buffers
    and the watchers, as they were. *)
Theorem read_would_block_changes_nothing w e errno :
  e_recv e = RecvErr errno → errno = EAGAIN ∨ errno = EWOULDBLOCK →
  (∀ sa sv, servers w !! sa = Some sv →
     server_recv_cb BUF_SIZE (Some sa) e w = Ok tt w) ∧
  (∀ ra rm, remotes w !! ra = Some rm → r_server rm ≠ NULL →
     remote_recv_cb BUF_SIZE (Some ra) e w = Ok tt w).
Proof.
  intros Hrecv Herr.
  assert (would_block errno = true) as Hwb.
  { unfold would_block. by apply bool_decide_eq_true. }
  destruct w as [Sv Rm rc sc tr]; cbn in *. split.
  - intros sa sv Ha.
    unfold server_recv_cb. run_total. rewrite Hrecv. run_total. cbn.
    rewrite Hwb. done.
  - intros ra rm Hr Hrs. destruct (r_server rm) as [sa|] eqn:Hsrv; [|done].
    unfold remote_recv_cb. run_total. rewrite Hrecv. run_total. cbn.
    rewrite Hwb. done.
Qed.

(** X12. A [recv] that fails with any other [errno] ends the session, on
    either socket: both records are closed and freed in that dispatch. *)
Theorem read_error_tears_down w sa sv ra rm e errno :
  linked w sa sv ra rm →
  e_recv e = RecvErr errno → errno ≠ EAGAIN → errno ≠ EWOULDBLOCK →
  (s_stage sv ≠ 0 →
     server_recv_cb BUF_SIZE (Some sa) e w = Ok tt (closed_pair w sa sv ra rm)) ∧
  remote_recv_cb BUF_SIZE (Some ra) e w = Ok tt (closed_pair w sa sv ra rm).
Proof.
  intros (Ha & Hr & Hsr & Hrs) Hrecv Herr1 Herr2.
  assert (would_block errno = false) as Hwb.
  { unfold would_block. apply bool_decide_eq_false. tauto. }
  destruct w as [Sv Rm rc sc tr]; cbn in *. split.
  - intros Hstage. unfold server_recv_cb. run_total. rewrite Hrecv. run_total. cbn.
    rewrite Hwb. run_total. world_done.
  - unfold remote_recv_cb. run_total. rewrite Hrecv. run_total. cbn.
    rewrite Hwb. run_total. world_done.
Qed.

(** X22. Before the header has been read there is no remote:
    [close_and_free_remote(NULL)] does nothing, so end of stream or a read
    error closes the client socket and frees the server record only, and
    [remote_conn] is not counted down. *)
Theorem close_before_header_frees_the_client_only w sa sv e :
  servers w !! sa = Some sv → stage0 sv →
  e_recv e = RecvData [] ∨
  (∃ errno, e_recv e = RecvErr errno ∧ errno ≠ EAGAIN ∧ errno ≠ EWOULDBLOCK) →
  server_recv_cb BUF_SIZE (Some sa) e w = Ok tt (closed_server w sa sv) ∧
  remotes (closed_server w sa sv) = remotes w ∧
  remote_conn (closed_server w sa sv) = remote_conn w ∧
  trace (closed_server w sa sv) = trace w ++ [EvClose (s_fd sv)].
Proof.
  intros Ha (Hstage & Hnull & _) Hend. split; [|done].
  destruct w as [Sv Rm rc sc tr]; cbn in *.
  destruct Hend as [Hrecv|(errno & Hrecv & Herr1 & Herr2)].
  - unfold server_recv_cb. run_total. rewrite Hrecv, take_nil. run_total.
    world_done.
  - assert (would_block errno = false) as Hwb.
    { unfold would_block. apply bool_decide_eq_false. tauto. }
    unfold server_recv_cb. run_total. rewrite Hrecv. run_total. cbn.
    rewrite Hwb. run_total. world_done.
Qed.

(** X13. When the [send] that follows a read fails with [EAGAIN] or
    [EWOULDBLOCK], nothing is sent and all the bytes read stay in the
    buffer, transformed, with [buf_len] their number; the read watcher of
    the source is stopped and the write watcher of the destination
    started. *)
Theorem blocked_send_keeps_all_bytes w sa sv ra rm e data errno :
  let got := take BUF_SIZE data in
  linked w sa sv ra rm → s_stage sv = 5 →
  length (s_buf sv) = BUF_SIZE → length (r_buf rm) = BUF_SIZE →
  e_recv e = RecvData data → got ≠ [] →
  e_send e = SendErr errno → errno = EAGAIN ∨ errno = EWOULDBLOCK →
  (∃ w', server_recv_cb BUF_SIZE (Some sa) e w = Ok tt w' ∧
     trace w' = trace w ∧
     servers w' !! sa =
       Some (set_s_recv_io false
               (set_s_d_ctx (decrypt_ctx got (s_d_ctx sv)).2 sv)) ∧
     remotes w' !! ra =
       Some (set_r_send_io true
               (set_r_buf_len (Z.of_nat (length got))
                  (set_r_buf (decrypted_buf (r_buf rm) got (s_d_ctx sv)) rm)))) ∧
  (∃ w', remote_recv_cb BUF_SIZE (Some ra) e w = Ok tt w' ∧
     trace w' = trace w ∧
     servers w' !! sa =
       Some (set_s_send_io true
               (set_s_buf_len (Z.of_nat (length got))
                  (set_s_e_ctx (encrypt_ctx got (s_e_ctx sv)).2
                     (set_s_buf ((encrypt_ctx got (s_e_ctx sv)).1 ++
                                 drop (length got) (s_buf sv)) sv)))) ∧
     remotes w' !! ra = Some (set_r_recv_io false rm)).
Proof.
  intros got (Ha & Hr & Hsr & Hrs) Hstage Hlen Hrlen Hrecv Hne Hsend Herr.
  assert (would_block errno = true) as Hwb.
  { unfold would_block. by apply bool_decide_eq_true. }
  destruct w as [Sv Rm rc sc tr]; cbn in *.
  subst got. destruct (take BUF_SIZE data) as [|b l] eqn:Hgot; [done|].
  pose proof (take_cons_length _ _ _ _ Hgot) as Hgl.
  split.
  - unfold server_recv_cb. run_total. rewrite Hrecv. exec. rewrite Hgot.
    run_total. rewrite Hsend. run_total. cbn. rewrite Hwb. run_total.
    eexists. split; [reflexivity|]. cbn. rewrite !lookup_insert_eq. done.
  - unfold remote_recv_cb. run_total. rewrite Hrecv. exec. rewrite Hgot.
    run_total. rewrite Hsend. run_total. cbn. rewrite Hwb. run_total.
    eexists. split; [reflexivity|]. cbn. rewrite !lookup_insert_eq. done.
Qed.

(** X16. When the [send] that follows a read fails with any other
    [errno], the session ends: both records are closed and freed, and the
    bytes just read are lost. *)
Theorem send_error_after_read_tears_down w sa sv ra rm e data errno :
  linked w sa sv ra rm → s_stage sv = 5 →
  length (s_buf sv) = BUF_SIZE → length (r_buf rm) = BUF_SIZE →
  e_recv e = RecvData data → take BUF_SIZE data ≠ [] →
  e_send e = SendErr errno → errno ≠ EAGAIN → errno ≠ EWOULDBLOCK →
  ∃ w1 w2,
    server_recv_cb BUF_SIZE (Some sa) e w = Ok tt w1 ∧
    remote_recv_cb BUF_SIZE (Some ra) e w = Ok tt w2 ∧
    servers w1 !! sa = None ∧ remotes w1 !! ra = None ∧
    servers w2 !! sa = None ∧ remotes w2 !! ra = None ∧
    trace w1 = trace w ++ [EvClose (r_fd rm); EvClose (s_fd sv)] ∧
    trace w2 = trace w ++ [EvClose (r_fd rm); EvClose (s_fd sv)].
Proof.
  intros (Ha & Hr & Hsr & Hrs) Hstage Hlen Hrlen Hrecv Hne Hsend Herr1 Herr2.
  assert (would_block errno = false) as Hwb.
  { unfold would_block. apply bool_decide_eq_false. tauto. }
  destruct w as [Sv Rm rc sc tr]; cbn in *.
  destruct (take BUF_SIZE data) as [|b l] eqn:Hgot; [done|].
  pose proof (take_cons_length _ _ _ _ Hgot) as Hgl.
  eexists _, _. split; [|split].
  - unfold server_recv_cb. run_total. rewrite Hrecv. exec. rewrite Hgot.
    run_total. rewrite Hsend. run_total. cbn. rewrite Hwb. run_total. reflexivity.
  - unfold remote_recv_cb. run_total. rewrite Hrecv. exec. rewrite Hgot.
    run_total. rewrite Hsend. run_total. cbn. rewrite Hwb. run_total. reflexivity.
  - cbn. rewrite !lookup_delete_eq, <-!app_assoc. done.
Qed.

End Forward.

(** * Draining a buffer *)

Section Drain.
Context `{Cipher} (BUF_SIZE : nat).
Implicit Types (w : world) (sa ra : positive) (sv : server) (rm : remote).

Lemma server_send_cb_partial w sa sv ra rm e k :
  linked w sa sv ra rm →
  e_send e = SendAccept k →
  Z.of_nat k < s_buf_len sv ≤ Z.of_nat (length (s_buf sv)) →
  ∃ buf',
    server_send_cb (Some sa) e w =
      Ok tt (World
               (<[sa := set_s_buf_len (s_buf_len sv - Z.of_nat k) (set_s_buf buf' sv)]>
                  (servers w))
               (remotes w) (remote_conn w) (server_conn w)
               (trace w ++
                [EvSend (s_fd sv)
                   (take k (take (Z.to_nat (s_buf_len sv)) (s_buf sv)))])) ∧
    length buf' = length (s_buf sv) ∧
    take (Z.to_nat (s_buf_len sv) - k) buf' =
      drop k (take (Z.to_nat (s_buf_len sv)) (s_buf sv)).
Proof.
  intros (Ha & Hr & Hsr & Hrs) Hsend Hk.
  destruct w as [S R rc sc tr]; cbn in *.
  unfold server_send_cb. run_total. rewrite Hsend. run_total.
  eexists. split; [reflexivity|]. split; [done|].
  by rewrite <-drop_take_pending.
Qed.

Lemma server_send_cb_last w sa sv ra rm e k :
  linked w sa sv ra rm →
  e_send e = SendAccept k →
  0 < s_buf_len sv ≤ Z.of_nat (length (s_buf sv)) → s_buf_len sv ≤ Z.of_nat k →
  server_send_cb (Some sa) e w =
    Ok tt (World
             (<[sa := set_s_send_io false (set_s_buf_len 0 sv)]> (servers w))
             (<[ra := set_r_recv_io true rm]> (remotes w))
             (remote_conn w) (server_conn w)
             (trace w ++
              [EvSend (s_fd sv) (take (Z.to_nat (s_buf_len sv)) (s_buf sv))])).
Proof.
  intros (Ha & Hr & Hsr & Hrs) Hsend Hn Hk.
  destruct w as [Sv Rm rc sc tr]; cbn in *.
  unfold server_send_cb. run_total. rewrite Hsend. exec.
  rewrite length_take, (Nat.min_l (Z.to_nat (s_buf_len sv))), Nat.min_r by lia.
  run_total. rewrite take_take, Nat.min_id. done.
Qed.

Lemma remote_send_cb_last w sa sv ra rm e k :
  linked w sa sv ra rm → r_connected rm = true →
  e_send e = SendAccept k →
  0 < r_buf_len rm ≤ Z.of_nat (length (r_buf rm)) → r_buf_len rm ≤ Z.of_nat k →
  remote_send_cb (Some ra) e w =
    Ok tt (World
             (<[sa := set_s_recv_io true sv]> (servers w))
             (<[ra := set_r_send_io false (set_r_buf_len 0 rm)]> (remotes w))
             (remote_conn w) (server_conn w)
             (trace w ++
              [EvSend (r_fd rm) (take (Z.to_nat (r_buf_len rm)) (r_buf rm))])).
Proof.
  intros (Ha & Hr & Hsr & Hrs) Hconn Hsend Hn Hk.
  destruct w as [Sv Rm rc sc tr]; cbn in *.
  unfold remote_send_cb. run_total. rewrite Hconn. run_total.
  rewrite Hsend. exec.
  rewrite length_take, (Nat.min_l (Z.to_nat (r_buf_len rm))), Nat.min_r by lia.
  run_total. rewrite take_take, Nat.min_id. done.
Qed.

(** X14. When a drain's [send] takes all the pending bytes, exactly the
    first [buf_len] bytes of the buffer are sent, [buf_len] becomes 0, the
    write watcher that ran is stopped and the read watcher of the opposite
    socket is started; this holds for [server_send_cb] and, once
    connected, for [remote_send_cb]. *)
Theorem complete_drain_reopens_the_source w sa sv ra rm e k :
  linked w sa sv ra rm → r_connected rm = true →
  e_send e = SendAccept k →
  (0 < s_buf_len sv ≤ Z.of_nat (length (s_buf sv)) → s_buf_len sv ≤ Z.of_nat k →
     ∃ w', server_send_cb (Some sa) e w = Ok tt w' ∧
       trace w' = trace w ++
         [EvSend (s_fd sv) (take (Z.to_nat (s_buf_len sv)) (s_buf sv))] ∧
       servers w' !! sa = Some (set_s_send_io false (set_s_buf_len 0 sv)) ∧
       remotes w' !! ra = Some (set_r_recv_io true rm)) ∧
  (0 < r_buf_len rm ≤ Z.of_nat (length (r_buf rm)) → r_buf_len rm ≤ Z.of_nat k →
     ∃ w', remote_send_cb (Some ra) e w = Ok tt w' ∧
       trace w' = trace w ++
         [EvSend (r_fd rm) (take (Z.to_nat (r_buf_len rm)) (r_buf rm))] ∧
       remotes w' !! ra = Some (set_r_send_io false (set_r_buf_len 0 rm)) ∧
       servers w' !! sa = Some (set_s_recv_io true sv)).
Proof.
  intros Hl Hconn Hsend. split; intros Hn Hk.
  - rewrite (server_send_cb_last w sa sv ra rm e k) by done.
    eexists. split; [reflexivity|]. cbn. by rewrite !lookup_insert_eq.
  - rewrite (remote_send_cb_last w sa sv ra rm e k) by done.
    eexists. split; [reflexivity|]. cbn. by rewrite !lookup_insert_eq.
Qed.

(** X15. A drain whose [send] fails with [EAGAIN] or [EWOULDBLOCK]
    leaves the process state as it was, to be tried again at the next
    write-ready event; with any other [errno] the session ends, both
    records closed and freed.  This holds for [server_send_cb] whenever the
    upstream-to-client buffer has bytes pending and, once connected, for
    [remote_send_cb] whenever the client-to-upstream buffer has; the other
    buffer may be empty. *)
Theorem send_error_in_drain w sa sv ra rm e errno :
  linked w sa sv ra rm → e_send e = SendErr errno →
  (0 < s_buf_len sv ≤ Z.of_nat (length (s_buf sv)) →
     (errno = EAGAIN ∨ errno = EWOULDBLOCK →
        server_send_cb (Some sa) e w = Ok tt w) ∧
     (errno ≠ EAGAIN → errno ≠ EWOULDBLOCK →
        server_send_cb (Some sa) e w = Ok tt (closed_pair w sa sv ra rm))) ∧
  (r_connected rm = true → 0 < r_buf_len rm ≤ Z.of_nat (length (r_buf rm)) →
     (errno = EAGAIN ∨ errno = EWOULDBLOCK →
        remote_send_cb (Some ra) e w = Ok tt w) ∧
     (errno ≠ EAGAIN → errno ≠ EWOULDBLOCK →
        remote_send_cb (Some ra) e w = Ok tt (closed_pair w sa sv ra rm))).
Proof.
  intros (Ha & Hr & Hsr & Hrs) Hsend.
  assert (errno = EAGAIN ∨ errno = EWOULDBLOCK → would_block errno = true) as Hyes.
  { intros Herr. unfold would_block. by apply bool_decide_eq_true. }
  assert (errno ≠ EAGAIN → errno ≠ EWOULDBLOCK → would_block errno = false) as Hno.
  { intros Herr1 Herr2. unfold would_block. apply bool_decide_eq_false. tauto. }
  destruct w as [Sv Rm rc sc tr]; cbn in *. split.
  - intros Hsn. split.
    + intros Herr. unfold server_send_cb. run_total. rewrite Hsend. run_total. cbn.
      rewrite Hyes by done. done.
    + intros Herr1 Herr2.
      unfold server_send_cb. run_total. rewrite Hsend. run_total. cbn.
      rewrite Hno by done. run_total. world_done.
  - intros Hconn Hrn. split.
    + intros Herr. unfold remote_send_cb. run_total. rewrite Hconn. run_total.
      rewrite Hsend. run_total. cbn. rewrite Hyes by done. done.
    + intros Herr1 Herr2.
      unfold remote_send_cb. run_total. rewrite Hconn. run_total.
      rewrite Hsend. run_total. cbn. rewrite Hno by done. run_total. world_done.
Qed.

(** X20. When the connect timer fires, the session ends: both records are
    closed and freed. *)
Theorem connect_timeout_tears_down w sa sv ra rm :
  linked w sa sv ra rm →
  remote_timeout_cb (Some ra) w = Ok tt (closed_pair w sa sv ra rm) ∧
  servers (closed_pair w sa sv ra rm) !! sa = None ∧
  remotes (closed_pair w sa sv ra rm) !! ra = None.
Proof.
  intros (Ha & Hr & Hsr & Hrs).
  destruct w as [Sv Rm rc sc tr]; cbn in *. split_and!.
  - unfold remote_timeout_cb. run_total. world_done.
  - by rewrite lookup_delete_eq.
  - by rewrite lookup_delete_eq.
Qed.

Lemma run_all_app cb es1 es2 w :
  run_all cb (es1 ++ es2) w =
  match run_all cb es1 w with
  | Ok _ w' => run_all cb es2 w'
  | Exit w' => Exit w'
  | Undef => Undef
  end.
Proof.
  revert w. induction es1 as [|e es1 IH]; intros w; [done|].
  change (run_all cb ((e :: es1) ++ es2) w) with
    (match cb e w with
     | Ok _ w' => run_all cb (es1 ++ es2) w'
     | Exit w' => Exit w' | Undef => Undef end).
  change (run_all cb (e :: es1) w) with
    (match cb e w with
     | Ok _ w' => run_all cb es1 w'
     | Exit w' => Exit w' | Undef => Undef end).
  destruct (cb e w); [apply IH|done..].
Qed.

Lemma partial_drains w sa ra rm (ks : list nat) : ∀ es sv,
  linked w sa sv ra rm →
  e_send <$> es = SendAccept <$> ks →
  Z.of_nat (sum_list ks) < s_buf_len sv ≤ Z.of_nat (length (s_buf sv)) →
  ∃ w' sv' chunks,
    run_all (server_send_cb (Some sa)) es w = Ok tt w' ∧
    linked w' sa sv' ra rm ∧ s_fd sv' = s_fd sv ∧
    length (s_buf sv') = length (s_buf sv) ∧
    s_buf_len sv' = s_buf_len sv - Z.of_nat (sum_list ks) ∧
    take (Z.to_nat (s_buf_len sv')) (s_buf sv') =
      drop (sum_list ks) (take (Z.to_nat (s_buf_len sv)) (s_buf sv)) ∧
    trace w' = trace w ++ (EvSend (s_fd sv) <$> chunks) ∧
    length chunks = length ks ∧
    concat chunks = take (sum_list ks) (take (Z.to_nat (s_buf_len sv)) (s_buf sv)).
Proof.
  revert w. induction ks as [|k ks IH]; intros w es sv Hl Hes Hn.
  - destruct es; [|done]. exists w, sv, []. cbn.
    rewrite app_nil_r, drop_0, take_0, Z.sub_0_r. by split_and!.
  - destruct es as [|e es]; [done|]. injection Hes as Hsend Hes.
    change (sum_list (k :: ks)) with (k + sum_list ks)%nat in *.
    destruct (server_send_cb_partial w sa sv ra rm e k Hl Hsend)
      as (buf' & Hrun & Hblen & Hbuf'); [lia|].
    set (sv1 := set_s_buf_len (s_buf_len sv - Z.of_nat k) (set_s_buf buf' sv)) in *.
    match type of Hrun with _ = Ok tt ?W => set (w1 := W) in * end.
    assert (linked w1 sa sv1 ra rm) as Hl1.
    { destruct Hl as (Ha & Hr & Hsr & Hrs). unfold linked, w1. cbn.
      rewrite lookup_insert_eq. done. }
    destruct (IH w1 es sv1 Hl1 Hes)
      as (w' & sv' & chunks & Hrest & Hl' & Hfd & Hlen' & Hbl & Hpend & Htr
          & Hcount & Hcat).
    { cbn. lia. }
    exists w', sv', (take k (take (Z.to_nat (s_buf_len sv)) (s_buf sv)) :: chunks).
    cbn in Hfd, Hlen', Hbl, Hpend, Htr, Hcat.
    split_and!.
    + change (run_all (server_send_cb (Some sa)) (e :: es) w) with
        (match server_send_cb (Some sa) e w with
         | Ok _ w' => run_all (server_send_cb (Some sa)) es w'
         | Exit w' => Exit w' | Undef => Undef end).
      rewrite Hrun. exact Hrest.
    + done.
    + done.
    + congruence.
    + lia.
    + rewrite Hpend.
      replace (Z.to_nat (s_buf_len sv - Z.of_nat k))
        with (Z.to_nat (s_buf_len sv) - k)%nat by lia.
      rewrite Hbuf', drop_drop. f_equal; lia.
    + rewrite Htr. cbn. by rewrite <-app_assoc.
    + by rewrite !length_cons, Hcount.
    + cbn. rewrite Hcat.
      replace (Z.to_nat (s_buf_len sv - Z.of_nat k))
        with (Z.to_nat (s_buf_len sv) - k)%nat by lia.
      rewrite Hbuf'. rewrite <-take_take_drop. done.
Qed.

(** X17. However the kernel cuts the writes, a drain delivers the pending
    bytes once and in order: when [server_send_cb] is dispatched again and
    again, its [send] taking [ks] bytes that add up to less than the
    pending ones and then the rest, the data of the successive [send] on
    the client socket, put together, are exactly the bytes that were
    pending; the buffer is then empty, the client write watcher stopped
    and the upstream read watcher started. *)
Theorem drain_delivers_every_byte_in_order w sa sv ra rm es ks e_last k_last :
  let pending := take (Z.to_nat (s_buf_len sv)) (s_buf sv) in
  linked w sa sv ra rm →
  0 < s_buf_len sv ≤ Z.of_nat (length (s_buf sv)) →
  e_send <$> es = SendAccept <$> ks → e_send e_last = SendAccept k_last →
  Z.of_nat (sum_list ks) < s_buf_len sv ≤ Z.of_nat (sum_list ks + k_last) →
  ∃ w' sv' chunks,
    run_all (server_send_cb (Some sa)) (es ++ [e_last]) w = Ok tt w' ∧
    trace w' = trace w ++ (EvSend (s_fd sv) <$> chunks) ∧
    concat chunks = pending ∧ length chunks = S (length ks) ∧
    servers w' !! sa = Some sv' ∧
    s_buf_len sv' = 0 ∧ s_send_io sv' = false ∧
    remotes w' !! ra = Some (set_r_recv_io true rm).
Proof.
  intros pending Hl Hn Hes Hlast Hsum.
  destruct (partial_drains w sa ra rm ks es sv Hl Hes)
    as (w1 & sv1 & chunks & Hrun & Hl1 & Hfd & Hlen1 & Hbl & Hpend & Htr
        & Hcount & Hcat); [lia|].
  exists (World (<[sa := set_s_send_io false (set_s_buf_len 0 sv1)]> (servers w1))
            (<[ra := set_r_recv_io true rm]> (remotes w1))
            (remote_conn w1) (server_conn w1)
            (trace w1 ++
             [EvSend (s_fd sv1) (take (Z.to_nat (s_buf_len sv1)) (s_buf sv1))])).
  exists (set_s_send_io false (set_s_buf_len 0 sv1)),
    (chunks ++ [drop (sum_list ks) pending]).
  split_and!.
  - rewrite run_all_app, Hrun.
    change (run_all (server_send_cb (Some sa)) [e_last] w1) with
      (match server_send_cb (Some sa) e_last w1 with
       | Ok _ w' => Ok tt w' | Exit w' => Exit w' | Undef => Undef end).
    rewrite (server_send_cb_last w1 sa sv1 ra rm e_last k_last Hl1 Hlast) by lia.
    done.
  - cbn. rewrite Htr, Hpend, Hfd, fmap_app, <-app_assoc. done.
  - rewrite concat_app, Hcat. cbn. rewrite app_nil_r. apply take_drop.
  - rewrite length_app, Hcount.
    change (length [drop (sum_list ks) pending]) with 1%nat. lia.
  - cbn. by rewrite lookup_insert_eq.
  - done.
  - done.
  - cbn. by rewrite lookup_insert_eq.
Qed.

End Drain.

(** * More of the first read, and [accept_cb] *)

Section Header2.
Context `{Cipher} (BUF_SIZE : nat).
Implicit Types (w : world) (sa ra : positive) (sv : server) (rm : remote).

(** X18. When the first byte of the decrypted first read is 3, the host
    handed to [getaddrinfo] is the [len] bytes from offset 2, [len] being
    the byte at offset 1 read as unsigned (so at most 255, which with the
    terminator fits [host]), up to their first NUL if they have one; the
    port is the decimal form of [256 * buf[2 + len] + buf[3 + len]]. *)
Theorem domain_header_names_the_target w sa sv e data b0 len hi lo :
  let got := take BUF_SIZE data in
  let dbuf := decrypted_buf (s_buf sv) got (s_d_ctx sv) in
  let L := Z.to_nat (byte_val len) in
  servers w !! sa = Some sv → stage0 sv → length (s_buf sv) = BUF_SIZE →
  e_recv e = RecvData data → got ≠ [] →
  dbuf !! 0%nat = Some b0 → char_val b0 = 3 →
  dbuf !! 1%nat = Some len →
  dbuf !! (2 + L)%nat = Some hi → dbuf !! (3 + L)%nat = Some lo →
  ∃ w', server_recv_cb BUF_SIZE (Some sa) e w = Ok tt w' ∧
    trace w' !! length (trace w) =
      Some (EvGetaddrinfo (c_str (take L (drop 2 dbuf)))
              (decimal (Z.to_N (256 * byte_val hi + byte_val lo)))) ∧
    (L ≤ 255)%nat.
Proof.
  intros got dbuf L Ha (Hstage & Hnull & _) Hlen Hrecv Hne H0 Hdom H1 Hhi Hlo.
  eexists. split; [|split].
  - eapply (header_parse_run BUF_SIZE); try done.
    fold got dbuf. unfold header_target. rewrite H0.
    rewrite decide_False by lia. rewrite decide_True by done.
    rewrite H1. cbv zeta. fold L.
    pose proof (lookup_lt_Some _ _ _ Hhi).
    rewrite buf_range_is_Some by lia. rewrite Hhi, Hlo. reflexivity.
  - apply header_outcome_trace.
  - pose proof (byte_val_range len). lia.
Qed.

(** X19. When the header is parsed but [getaddrinfo] fails, or [socket]
    returns a negative descriptor, [connect_to_remote] returns [NULL]: no
    remote record is made, and the client socket is closed and its server
    record freed.  In the second case [close] is called on the negative
    descriptor. *)
Theorem failed_connect_closes_client w sa sv e data host port offset :
  let got := take BUF_SIZE data in
  let dbuf := decrypted_buf (s_buf sv) got (s_d_ctx sv) in
  servers w !! sa = Some sv → stage0 sv → length (s_buf sv) = BUF_SIZE →
  e_recv e = RecvData data → got ≠ [] →
  header_target dbuf = Some (host, port, offset) →
  (e_connect e = GaiErr →
     ∃ w', server_recv_cb BUF_SIZE (Some sa) e w = Ok tt w' ∧
       servers w' !! sa = None ∧ remotes w' = remotes w ∧
       remote_conn w' = remote_conn w ∧
       trace w' = trace w ++ [EvGetaddrinfo host port; EvClose (s_fd sv)]) ∧
  (∀ fd, e_connect e = Socket fd → fd < 0 →
     ∃ w', server_recv_cb BUF_SIZE (Some sa) e w = Ok tt w' ∧
       servers w' !! sa = None ∧ remotes w' = remotes w ∧
       remote_conn w' = remote_conn w ∧
       trace w' = trace w ++
         [EvGetaddrinfo host port; EvClose fd; EvClose (s_fd sv)]).
Proof.
  intros got dbuf Ha (Hstage & Hnull & _) Hlen Hrecv Hne Htarget.
  pose proof (header_parse_run BUF_SIZE w sa sv e data got host port offset
                Ha Hstage Hnull Hlen Hrecv eq_refl Hne Htarget) as Hrun.
  unfold header_outcome in Hrun. split.
  - intros Hgai. rewrite Hgai in Hrun. eexists. split; [exact Hrun|].
    cbn. by rewrite lookup_delete_eq.
  - intros fd Hsock Hneg. rewrite Hsock, decide_True in Hrun by done.
    eexists. split; [exact Hrun|]. cbn. by rewrite lookup_delete_eq.
Qed.

(** X21. [accept_cb] changes nothing when [accept] fails.  Otherwise it
    makes one server record, at an address not in use, in stage 0 with no
    remote and an empty buffer of [BUF_SIZE] bytes, with the accepted
    socket, the timeout of the listener and fresh cipher contexts, and
    with its read watcher alone started; the records already there and the
    remotes are as before. *)
Theorem accept_cb_opens_a_session w timeout e :
  (e_accept e = -1 → accept_cb BUF_SIZE timeout e w = Ok tt w) ∧
  (e_accept e ≠ -1 →
     ∃ w' sa sv,
       accept_cb BUF_SIZE timeout e w = Ok tt w' ∧
       servers w !! sa = None ∧ servers w' = <[sa := sv]> (servers w) ∧
       remotes w' = remotes w ∧ trace w' = trace w ∧
       server_conn w' = server_conn w + 1 ∧
       stage0 sv ∧ s_fd sv = e_accept e ∧ s_timeout sv = timeout ∧
       length (s_buf sv) = BUF_SIZE ∧
       s_e_ctx sv = enc_ctx_init true ∧ s_d_ctx sv = enc_ctx_init false).
Proof.
  destruct w as [Sv Rm rc sc tr]; cbn in *. split.
  - intros Hfail. unfold accept_cb. run_total. done.
  - intros Hok. unfold accept_cb. run_total.
    eexists _, (fresh (dom Sv)), _. split; [reflexivity|]. cbn.
    split; [apply fresh_None|]. split; [reflexivity|].
    unfold stage0. cbn. rewrite length_resize. by split_and!.
Qed.

End Header2.

(** * Start-up *)

Section SocketFacts.
Import Startup.

Lemma bind_loop_none rp :
  Forall (λ ai, ¬ usable ai) rp → (bind_loop rp).1 = None.
Proof.
  induction 1 as [|ai rp Hai _ IH]; [done|]. cbn [bind_loop].
  destruct (decide (k_socket ai = -1)) as [Hs|Hs].
  - by destruct (bind_loop rp).
  - destruct (decide (k_bind ai = 0)) as [Hb|Hb]; [by destruct Hai|].
    by destruct (bind_loop rp).
Qed.

Lemma bind_loop_first skipped ai rest :
  Forall (λ ai, ¬ usable ai) skipped → usable ai →
  (bind_loop (skipped ++ ai :: rest)).1 = Some (k_socket ai).
Proof.
  intros Hskip [Hs Hb]. induction Hskip as [|ai' rp Hai _ IH].
  - change ([] ++ ai :: rest) with (ai :: rest). cbn [bind_loop].
    by rewrite decide_False, decide_True.
  - change ((ai' :: rp) ++ ai :: rest) with (ai' :: (rp ++ ai :: rest)).
    cbn [bind_loop]. destruct (decide (k_socket ai' = -1)).
    + by destruct (bind_loop (rp ++ ai :: rest)).
    + destruct (decide (k_bind ai' = 0)); [by destruct Hai|].
      by destruct (bind_loop (rp ++ ai :: rest)).
Qed.

Lemma bind_loop_balance rp :
  opened (snd (bind_loop rp))
    = closed (snd (bind_loop rp)) ++ option_list (fst (bind_loop rp)) ∧
  (SysFreeaddrinfo ∉ snd (bind_loop rp)) ∧
  (∀ fd, fst (bind_loop rp) = Some fd → fd ≠ -1).
Proof.
  induction rp as [|ai rp (IH & IHf & IHs)].
  { split_and!; [done|apply not_elem_of_nil|done]. }
  cbn [bind_loop]. destruct (decide (k_socket ai = -1)) as [Hs|Hs].
  - destruct (bind_loop rp) as [found calls]. cbn in *.
    rewrite decide_True by done. split_and!; [done| |done].
    rewrite elem_of_cons. intros [?|?]; [done|tauto].
  - destruct (decide (k_bind ai = 0)) as [Hb|Hb].
    + cbn. rewrite decide_False by done. split_and!; [done| |congruence].
      rewrite !elem_of_cons, elem_of_nil. intros [?|[?|[?|?]]]; done.
    + destruct (bind_loop rp) as [found calls]. cbn in *.
      rewrite decide_False by done. split_and!; [by rewrite IH| |done].
      rewrite !elem_of_cons. intros [?|[?|[?|[?|?]]]]; done.
Qed.

(** X23. [create_and_bind] returns -1 when [getaddrinfo] fails and when
    no address of the list has both a socket and a successful [bind] (so
    also for an empty list); otherwise it returns the socket of the first
    address that has, and that socket is not -1. *)
Theorem create_and_bind_takes_the_first_usable host port gai result :
  let fd := (create_and_bind host port gai result).1 in
  (gai ≠ 0 → fd = -1) ∧
  (gai = 0 → Forall (λ ai, ¬ usable ai) result → fd = -1) ∧
  (∀ skipped ai rest, gai = 0 → result = skipped ++ ai :: rest →
     Forall (λ ai, ¬ usable ai) skipped → usable ai →
     fd = k_socket ai ∧ fd ≠ -1).
Proof.
  unfold create_and_bind. split_and!.
  - intros Hgai. by rewrite decide_True.
  - intros -> Hnone. rewrite decide_False by (intros ?; done).
    pose proof (bind_loop_none result Hnone) as Hfound.
    destruct (bind_loop result) as [found calls]. cbn in *. by subst.
  - intros skipped ai rest -> -> Hskip Hai.
    rewrite decide_False by (intros ?; done).
    pose proof (bind_loop_first skipped ai rest Hskip Hai) as Hfound.
    destruct (bind_loop (skipped ++ ai :: rest)) as [found calls]. cbn in *.
    subst. cbn. split; [done|]. by destruct Hai.
Qed.

(** X24. [create_and_bind] closes every socket it has created and could
    not bind, in the order created, and only those: the sockets created are
    the sockets closed, followed by the one returned if there is one.  The
    list of addresses is freed as the last call on success, and is not
    freed on the paths that return -1. *)
Theorem create_and_bind_closes_what_it_gives_up host port gai result :
  let fd := (create_and_bind host port gai result).1 in
  let calls := (create_and_bind host port gai result).2 in
  (fd = -1 → opened calls = closed calls ∧ SysFreeaddrinfo ∉ calls) ∧
  (fd ≠ -1 → opened calls = closed calls ++ [fd] ∧
     last calls = Some SysFreeaddrinfo).
Proof.
  unfold create_and_bind.
  pose proof (bind_loop_balance result) as (Hbal & Hfree & Hsock).
  destruct (decide (gai ≠ 0)) as [Hgai|Hgai]; cbn.
  { split; [|done]. intros _. split; [done|].
    rewrite elem_of_cons, elem_of_nil. intros [?|?]; done. }
  destruct (bind_loop result) as [[sock|] calls]; cbn in *.
  - specialize (Hsock sock eq_refl).
    split; [done|]. intros _. split.
    + unfold opened, closed in *. rewrite !omap_app. cbn.
      rewrite !app_nil_r. exact Hbal.
    + rewrite app_comm_cons. apply last_snoc.
  - split; [|done]. intros _. rewrite app_nil_r in Hbal. split; [done|].
    rewrite elem_of_cons. intros [?|?]; [done|tauto].
Qed.

(** X25. [setnonblocking] reads the flags and writes them back with
    [O_NONBLOCK] added: every flag that was set stays set.  When reading
    the flags fails it still sets [O_NONBLOCK], alone.  Its result is that
    of the second [fcntl]. *)
Theorem setnonblocking_adds_the_flag O_NONBLOCK fd getfl setfl :
  ∃ flags,
    setnonblocking O_NONBLOCK fd getfl setfl
      = (setfl, [SysGetfl fd; SysSetfl fd flags]) ∧
    Z.land flags O_NONBLOCK = O_NONBLOCK ∧
    (getfl = -1 → flags = O_NONBLOCK) ∧
    (getfl ≠ -1 → Z.land flags getfl = getfl ∧
       ∀ n, Z.testbit flags n = Z.testbit getfl n || Z.testbit O_NONBLOCK n).
Proof.
  unfold setnonblocking. eexists. split; [reflexivity|]. split_and!.
  - apply Z.bits_inj'. intros n _. rewrite Z.land_spec, Z.lor_spec.
    destruct (Z.testbit O_NONBLOCK n); [by rewrite orb_true_r|by rewrite andb_false_r].
  - intros ->. rewrite decide_True by done. apply Z.lor_0_l.
  - intros Hok. rewrite decide_False by congruence. split.
    + apply Z.bits_inj'. intros n _. rewrite Z.land_spec, Z.lor_spec.
      destruct (Z.testbit getfl n); [done|by rewrite andb_false_r].
    + intros n. apply Z.lor_spec.
Qed.

End SocketFacts.

Ltac list_len := cbn in *; rewrite ?length_app, ?length_cons, ?length_nil in *; lia.

Section SettingsFacts.
Import Settings.
Variable MAX_REMOTE_NUM : nat.

Local Abbreviation getopt_loop := (getopt_loop MAX_REMOTE_NUM).
Local Abbreviation option_case := (option_case MAX_REMOTE_NUM).
Local Abbreviation main_settings := (main_settings MAX_REMOTE_NUM).

Lemma args_of_cons c c' a args :
  args_of c ((c', a) :: args) =
  if decide (c' = c) then a :: args_of c args else args_of c args.
Proof. unfold args_of. cbn. by destruct (decide (c' = c)). Qed.

Lemma last_cons_cases {A} (x : A) l (d : option A) :
  (if last (x :: l) is Some y then Some y else d) =
  (if last l is Some y then Some y else Some x).
Proof. rewrite last_cons. by destruct (last l). Qed.

Lemma after_options_cons c a args v :
  after_options ((c, a) :: args) v = after_options args (after_options [(c, a)] v).
Proof.
  unfold after_options. rewrite !args_of_cons. cbn.
  repeat case_decide; subst; cbn; try discriminate;
    rewrite ?app_nil_r, ?last_cons_cases, <-?app_assoc; try reflexivity.
  all: f_equal; by destruct (args_of _ args).
Qed.

Lemma option_case_spec c a v :
  (length (server_host v) + length (args_of "s" [(c, a)]) ≤ MAX_REMOTE_NUM)%nat →
  option_case c a v = Some (after_options [(c, a)] v).
Proof.
  intros Hfit. destruct (decide (c = "s"%char)) as [->|Hs].
  - rewrite args_of_cons, decide_True in Hfit by done.
    change (length (a :: args_of "s" [])) with 1%nat in Hfit.
    cbn. unfold push_host. rewrite decide_True by lia.
    by destruct v.
  - unfold after_options. rewrite !args_of_cons.
    destruct c as [[] [] [] [] [] [] [] []]; try done; cbn;
      rewrite ?app_nil_r; by destruct v.
Qed.

Lemma getopt_loop_spec args : ∀ v,
  (length (server_host v) + length (args_of "s" args) ≤ MAX_REMOTE_NUM)%nat →
  getopt_loop args v = Some (after_options args v).
Proof.
  induction args as [|[c a] args IH]; intros v Hfit.
  - unfold after_options. cbn. rewrite app_nil_r. by destruct v.
  - cbn [Settings.getopt_loop]. rewrite args_of_cons in Hfit.
    rewrite option_case_spec, (after_options_cons c a args v).
    + cbn. apply IH. cbn.
      destruct (decide (c = "s"%char)); list_len.
    + rewrite args_of_cons. destruct (decide (c = "s"%char)); list_len.
Qed.

Lemma getopt_loop_overflow args : ∀ v,
  (length (server_host v) ≤ MAX_REMOTE_NUM)%nat →
  (MAX_REMOTE_NUM < length (server_host v) + length (args_of "s" args))%nat →
  getopt_loop args v = None.
Proof.
  induction args as [|[c a] args IH]; intros v Hin Hover.
  - list_len.
  - cbn [Settings.getopt_loop]. rewrite args_of_cons in Hover.
    destruct (decide (c = "s"%char)) as [->|Hs].
    + cbn. unfold push_host. case_decide; [|done]. cbn. apply IH; list_len.
    + assert (∃ v', option_case c a v = Some v' ∧ server_host v' = server_host v)
        as (v' & -> & Hsame).
      { destruct c as [[] [] [] [] [] [] [] []]; try done; cbn; eauto. }
      cbn. apply IH; rewrite Hsame; done.
Qed.

Lemma getopt_loop_bound args : ∀ v v',
  (length (server_host v) ≤ MAX_REMOTE_NUM)%nat →
  getopt_loop args v = Some v' → (length (server_host v') ≤ MAX_REMOTE_NUM)%nat.
Proof.
  intros v v' Hin Hrun.
  destruct (decide (length (server_host v) + length (args_of "s" args)
                    ≤ MAX_REMOTE_NUM)%nat) as [Hfit|Hover].
  - rewrite getopt_loop_spec in Hrun by done. injection Hrun as <-.
    list_len.
  - rewrite getopt_loop_overflow in Hrun by lia. done.
Qed.

(** X26. The option loop of [main] keeps the arguments of [-s] in the
    order given and, for each of [-p], [-k], [-t], [-m], [-c] and [-f], the
    argument of its last occurrence; any other option character leaves
    these as they are.  With more than [MAX_REMOTE_NUM] options [-s] it
    stores past the array [server_host]. *)
Theorem option_loop_reads_the_command_line args :
  ((length (args_of "s" args) ≤ MAX_REMOTE_NUM)%nat →
     ∃ v, getopt_loop args no_settings = Some v ∧
       server_host v = args_of "s" args ∧
       server_port v = last (args_of "p" args) ∧
       password v = last (args_of "k" args) ∧
       timeout v = last (args_of "t" args) ∧
       method v = last (args_of "m" args) ∧
       conf_path v = last (args_of "c" args) ∧
       pid_path v = last (args_of "f" args)) ∧
  ((MAX_REMOTE_NUM < length (args_of "s" args))%nat →
     getopt_loop args no_settings = None).
Proof.
  split.
  - intros Hfit. eexists. split; [by apply getopt_loop_spec|]. cbn.
    split_and!; try done; by destruct (last _).
  - intros Hover. apply getopt_loop_overflow; list_len.
Qed.

(** X27. A setting given on the command line is the one [main] uses,
    whatever the configuration file says; the file, read only when [-c] is
    given, supplies the hosts when there is no [-s] and each of port,
    password, method and timeout that has no option; a timeout given by
    neither is "60". *)
Theorem command_line_precedes_the_config_file args read_jconf v0 v :
  getopt_loop args no_settings = Some v0 →
  main_settings args read_jconf = Configured v →
  (server_host v0 ≠ [] → server_host v = server_host v0) ∧
  (∀ x, server_port v0 = Some x → server_port v = Some x) ∧
  (∀ x, password v0 = Some x → password v = Some x) ∧
  (∀ x, method v0 = Some x → method v = Some x) ∧
  (∀ x, timeout v0 = Some x → timeout v = Some x) ∧
  (∀ path, conf_path v0 = Some path →
     (server_host v0 = [] → server_host v = j_remote_host (read_jconf path)) ∧
     (server_port v0 = None → server_port v = j_remote_port (read_jconf path)) ∧
     (password v0 = None → password v = j_password (read_jconf path)) ∧
     (method v0 = None → method v = j_method (read_jconf path)) ∧
     (timeout v0 = None →
        timeout v = Some (default "60"%string (j_timeout (read_jconf path))))) ∧
  (conf_path v0 = None →
     method v = method v0 ∧
     timeout v = Some (default "60"%string (timeout v0))).
Proof.
  intros Hopts Hmain. unfold Settings.main_settings in Hmain.
  rewrite Hopts in Hmain. cbn in Hmain.
  destruct (decide (0 ≠ 0)) as [|_] in Hmain; [done|].
  destruct (conf_path v0) as [path|] eqn:Hconf.
  - unfold apply_conf in Hmain.
    destruct (decide (length (server_host v0) = 0%nat)) as [Hnone|Hsome].
    + destruct (decide (length (j_remote_host (read_jconf path)) ≤ MAX_REMOTE_NUM)%nat);
        [|done].
      cbv [mbind option_bind] in Hmain. cbn in Hmain.
      destruct (decide _) as [|Hcheck] in Hmain; [done|].
      injection Hmain as <-. cbn.
      apply length_zero_iff_nil in Hnone.
      split_and!; try (by intros ? ->); try done.
      * intros path' [= <-].
        split_and!; try (by intros ->); try done.
        intros ->. by destruct (j_timeout (read_jconf path)).
    + cbv [mbind option_bind] in Hmain. cbn in Hmain.
      destruct (decide _) as [|Hcheck] in Hmain; [done|].
      injection Hmain as <-. cbn.
      split_and!; try (by intros ? ->); try done.
      * intros path' [= <-].
        split_and!; try (by intros ->); try done.
        -- intros Hnil. rewrite Hnil in Hsome. done.
        -- intros ->. by destruct (j_timeout (read_jconf path)).
  - destruct (decide _) as [|Hcheck] in Hmain; [done|]. injection Hmain as <-. cbn.
    split_and!; try (by intros ? ->); try done.
    by destruct (timeout v0).
Qed.

(** X28. The settings [main] goes on with always have a host (at most
    [MAX_REMOTE_NUM] of them), a port, a password and a timeout, while the
    method may be missing.  Without [-c], a command line that lacks [-s],
    [-p] or [-k] ends in the usage text and [EXIT_FAILURE]. *)
Theorem incomplete_settings_end_in_usage args read_jconf :
  (∀ v, main_settings args read_jconf = Configured v →
     server_host v ≠ [] ∧ (length (server_host v) ≤ MAX_REMOTE_NUM)%nat ∧
     is_Some (server_port v) ∧ is_Some (password v) ∧ is_Some (timeout v)) ∧
  ((length (args_of "s" args) ≤ MAX_REMOTE_NUM)%nat →
   args_of "c" args = [] →
   args_of "s" args = [] ∨ args_of "p" args = [] ∨ args_of "k" args = [] →
   main_settings args read_jconf = UsageExit).
Proof.
  split.
  - intros v Hmain. unfold Settings.main_settings in Hmain.
    destruct (getopt_loop args no_settings) as [v0|] eqn:Hopts; [|done].
    pose proof (getopt_loop_bound args no_settings v0 (Nat.le_0_l _) Hopts) as Hbound.
    cbn in Hmain. destruct (decide (0 ≠ 0)) as [|_] in Hmain; [done|].
    destruct (conf_path v0) as [path|].
    + unfold apply_conf in Hmain.
      destruct (decide (length (server_host v0) = 0%nat)) as [Hnone|Hsome].
      * destruct (decide (length (j_remote_host (read_jconf path)) ≤ MAX_REMOTE_NUM)%nat);
          [|done].
        cbv [mbind option_bind] in Hmain. cbn in Hmain.
      destruct (decide _) as [|Hcheck] in Hmain; [done|].
        injection Hmain as <-. cbn in *.
        split_and!.
        -- intros Hnil. apply Hcheck. left. by rewrite Hnil.
        -- done.
        -- destruct (server_port v0), (j_remote_port (read_jconf path));
             try by eauto. exfalso. apply Hcheck. by right; left.
        -- destruct (password v0), (j_password (read_jconf path));
             try by eauto. exfalso. apply Hcheck. by right; right.
        -- destruct (timeout v0), (j_timeout (read_jconf path)); by eauto.
      * cbv [mbind option_bind] in Hmain. cbn in Hmain.
      destruct (decide _) as [|Hcheck] in Hmain; [done|].
        injection Hmain as <-. cbn in *.
        split_and!.
        -- intros Hnil. apply Hcheck. left. by rewrite Hnil.
        -- done.
        -- destruct (server_port v0), (j_remote_port (read_jconf path));
             try by eauto. exfalso. apply Hcheck. by right; left.
        -- destruct (password v0), (j_password (read_jconf path));
             try by eauto. exfalso. apply Hcheck. by right; right.
        -- destruct (timeout v0), (j_timeout (read_jconf path)); by eauto.
    + destruct (decide _) as [|Hcheck] in Hmain; [done|].
      injection Hmain as <-. cbn in *.
      split_and!.
      * intros Hnil. apply Hcheck. left. by rewrite Hnil.
      * done.
      * destruct (server_port v0); [by eauto|]. exfalso. apply Hcheck. by right; left.
      * destruct (password v0); [by eauto|]. exfalso. apply Hcheck. by right; right.
      * destruct (timeout v0); by eauto.
  - intros Hfit Hnoconf Hmissing. unfold Settings.main_settings.
    rewrite getopt_loop_spec by list_len. cbn.
    destruct (decide (0 ≠ 0)) as [|_]; [done|].
    rewrite Hnoconf. cbn. rewrite decide_True; [done|].
    destruct Hmissing as [->|[->| ->]]; cbn; auto.
Qed.

End SettingsFacts.

(** * The sample session, run

    Each statement above is applied to the sample session. *)

Import Sample.

(** The sample session is a run of the event loop. *)
Lemma w_accepted_reachable : reachable BUF_SIZE w_accepted.
Proof.
  eapply rtc_r; [apply rtc_refl|].
  apply (dispatch_accept BUF_SIZE 60 e_accepted). vm_compute. reflexivity.
Defined.

Lemma w_connecting_reachable : reachable BUF_SIZE w_connecting.
Proof.
  eapply rtc_r; [apply w_accepted_reachable|].
  apply (dispatch_server_recv BUF_SIZE 1 (server_of w_accepted) e_request);
    vm_compute; reflexivity.
Defined.

Lemma w_streaming_reachable : reachable BUF_SIZE w_streaming.
Proof.
  eapply rtc_r; [apply w_connecting_reachable|].
  apply (dispatch_remote_send BUF_SIZE 1 (remote_of w_connecting) e_connected);
    vm_compute; reflexivity.
Defined.

Lemma w_busy_reachable : reachable BUF_SIZE w_busy.
Proof.
  eapply rtc_r; [apply w_streaming_reachable|].
  apply (dispatch_remote_recv BUF_SIZE 1 (remote_of w_streaming) e_answer);
    vm_compute; reflexivity.
Defined.

Lemma w_busy_linked : linked w_busy 1 (server_of w_busy) 1 (remote_of w_busy).
Proof. unfold linked. split_and!; vm_compute; reflexivity. Defined.

Lemma w_connecting_linked :
  linked w_connecting 1 (server_of w_connecting) 1 (remote_of w_connecting).
Proof. unfold linked. split_and!; vm_compute; reflexivity. Defined.

Lemma streaming_interest_witness :
  reachable BUF_SIZE w_busy ∧
  servers w_busy !! 1%positive = Some (server_of w_busy) ∧
  s_stage (server_of w_busy) = 5 ∧
  ∃ ra rm, linked w_busy 1 (server_of w_busy) ra rm ∧
    (s_recv_io (server_of w_busy) = true ↔ r_buf_len rm = 0) ∧
    (r_send_io rm = true ↔ r_buf_len rm ≠ 0) ∧
    s_recv_io (server_of w_busy) = negb (r_send_io rm) ∧
    (r_recv_io rm = true ↔ s_buf_len (server_of w_busy) = 0) ∧
    (s_send_io (server_of w_busy) = true ↔ s_buf_len (server_of w_busy) ≠ 0) ∧
    r_recv_io rm = negb (s_send_io (server_of w_busy)).
Proof.
  split; [apply w_busy_reachable|].
  split; [vm_compute; reflexivity|].
  split; [vm_compute; reflexivity|].
  apply (streaming_interest_follows_buffer BUF_SIZE w_busy 1 (server_of w_busy)).
  - apply w_busy_reachable.
  - vm_compute; reflexivity.
  - vm_compute; reflexivity.
Defined.

Lemma server_recv_cb_stage_witness :
  reachable BUF_SIZE w_accepted ∧
  servers w_accepted !! 1%positive = Some (server_of w_accepted) ∧
  s_recv_io (server_of w_accepted) = true ∧
  (s_stage (server_of w_accepted) = 0 ∨ s_stage (server_of w_accepted) = 5) ∧
  ∀ e w', server_recv_cb BUF_SIZE (Some 1%positive) e w_accepted ≠ Exit w'.
Proof.
  split; [apply w_accepted_reachable|].
  split; [vm_compute; reflexivity|].
  split; [vm_compute; reflexivity|].
  apply (server_recv_cb_stage_0_or_5 BUF_SIZE w_accepted 1 (server_of w_accepted)).
  - apply w_accepted_reachable.
  - vm_compute; reflexivity.
  - vm_compute; reflexivity.
Defined.

Lemma partial_send_witness :
  linked w_busy 1 (server_of w_busy) 1 (remote_of w_busy) ∧
  s_stage (server_of w_busy) = 5 ∧ r_connected (remote_of w_busy) = true ∧
  e_send e_eof = SendAccept 1 ∧
  (∃ w' sv', server_send_cb (Some 1%positive) e_eof w_busy = Ok tt w' ∧
     servers w' !! 1%positive = Some sv' ∧
     s_buf_len sv' = 2 ∧ take 2 (s_buf sv') = encrypted ["K"; "!"]%byte) ∧
  (∃ w' rm', remote_send_cb (Some 1%positive) e_eof w_busy = Ok tt w' ∧
     remotes w' !! 1%positive = Some rm' ∧
     r_buf_len rm' = 1 ∧ take 1 (r_buf rm') = ["T"]%byte).
Proof.
  split; [apply w_busy_linked|].
  split; [vm_compute; reflexivity|].
  split; [vm_compute; reflexivity|].
  split; [vm_compute; reflexivity|].
  destruct (partial_send_carries_tail_over BUF_SIZE w_busy 1 (server_of w_busy)
              1 (remote_of w_busy) e_eof 1) as (Hss & Hrs & _).
  - apply w_busy_linked.
  - vm_compute; reflexivity.
  - vm_compute; reflexivity.
  - vm_compute; reflexivity.
  - vm_compute; reflexivity.
  - vm_compute; reflexivity.
  - split.
    + destruct Hss as (w' & sv' & Hrun & Hlk & Hlen & Hbytes).
      { vm_compute. split; [reflexivity|discriminate]. }
      exists w', sv'. split; [exact Hrun|]. split; [exact Hlk|].
      vm_compute in Hlen, Hbytes. split; [exact Hlen|exact Hbytes].
    + destruct Hrs as (w' & rm' & Hrun & Hlk & Hlen & Hbytes).
      { vm_compute. split; [reflexivity|discriminate]. }
      exists w', rm'. split; [exact Hrun|]. split; [exact Hlk|].
      vm_compute in Hlen, Hbytes. split; [exact Hlen|exact Hbytes].
Defined.

Lemma connect_witness :
  linked w_connecting 1 (server_of w_connecting) 1 (remote_of w_connecting) ∧
  awaiting BUF_SIZE (server_of w_connecting) (remote_of w_connecting) ∧
  e_getpeername e_connected = 0 ∧
  ∃ w1 sv1 rm1,
    remote_send_connect (Some 1%positive) (Some 1%positive) e_connected w_connecting
      = Ok false w1 ∧
    servers w1 !! 1%positive = Some sv1 ∧ remotes w1 !! 1%positive = Some rm1 ∧
    s_stage sv1 = 5 ∧ r_connected rm1 = true ∧ r_watcher rm1 = false ∧
    r_recv_io rm1 = true ∧ r_send_io rm1 = true ∧ s_recv_io sv1 = false.
Proof.
  assert (awaiting BUF_SIZE (server_of w_connecting) (remote_of w_connecting))
    as Haw.
  { unfold awaiting. split_and!; vm_compute; first [reflexivity | discriminate]. }
  split; [apply w_connecting_linked|]. split; [exact Haw|].
  split; [reflexivity|].
  destruct (connect_is_confirmed_by_getpeername BUF_SIZE w_connecting
              1 (server_of w_connecting) 1 (remote_of w_connecting) e_connected
              w_connecting_linked Haw) as (_ & Hok).
  destruct (Hok eq_refl)
    as (w1 & sv1 & rm1 & Hrun & Hs & Hr & Hst & Hc & Ht & Hrr & _ & _ & _ & Hdata).
  destruct Hdata as (Hrs & Hsr & _); [vm_compute; discriminate|].
  exists w1, sv1, rm1. vm_compute in Hrun.
  split; [exact Hrun|]. by split_and!.
Defined.

Lemma w_accepted_stage0 : stage0 (server_of w_accepted).
Proof. unfold stage0. split_and!; vm_compute; reflexivity. Defined.

Lemma ipv4_header_witness :
  servers w_accepted !! 1%positive = Some (server_of w_accepted) ∧
  stage0 (server_of w_accepted) ∧
  e_recv e_request = RecvData request ∧
  ∃ w', server_recv_cb BUF_SIZE (Some 1%positive) e_request w_accepted = Ok tt w' ∧
    trace w' !! 0%nat =
      Some (EvGetaddrinfo (inet_ntoa [x7f; x00; x00; x01]) (decimal 80)).
Proof.
  split; [vm_compute; reflexivity|]. split; [exact w_accepted_stage0|].
  split; [reflexivity|].
  pose proof (ipv4_header_names_the_target BUF_SIZE w_accepted 1
                (server_of w_accepted) e_request request
                x01 x7f x00 x00 x01 x00 x50) as Hthm.
  cbv zeta in Hthm.
  destruct Hthm as (w' & Hrun & Htrace & _).
  1: (vm_compute; reflexivity).
  1: exact w_accepted_stage0.
  1: (vm_compute; reflexivity).
  1: reflexivity.
  1: (vm_compute; discriminate).
  1-8: (vm_compute; reflexivity).
  exists w'. split; [exact Hrun|]. vm_compute in Htrace. exact Htrace.
Defined.

Lemma piggybacked_payload_witness :
  servers w_accepted !! 1%positive = Some (server_of w_accepted) ∧
  stage0 (server_of w_accepted) ∧
  e_recv e_request = RecvData request ∧ e_connect e_request = Socket 9 ∧
  ∃ w' ra rm',
    server_recv_cb BUF_SIZE (Some 1%positive) e_request w_accepted = Ok tt w' ∧
    remotes w' !! ra = Some rm' ∧
    r_buf_len rm' = 3 ∧ take 3 (r_buf rm') = ["G"; "E"; "T"]%byte.
Proof.
  split; [vm_compute; reflexivity|]. split; [exact w_accepted_stage0|].
  split; [reflexivity|]. split; [reflexivity|].
  pose proof (piggybacked_payload_is_kept BUF_SIZE w_accepted 1
                (server_of w_accepted) e_request request
                (inet_ntoa [x7f; x00; x00; x01]) (decimal 80) 7 9) as Hthm.
  cbv zeta in Hthm.
  destruct Hthm
    as (w' & ra & sv' & rm' & Hrun & Hs & _ & Hsr & Hr & _ & Hlen & Hbytes & _).
  1: (vm_compute; reflexivity).
  1: exact w_accepted_stage0.
  1: (vm_compute; reflexivity).
  1: reflexivity.
  1: (vm_compute; reflexivity).
  1: (vm_compute; lia).
  1: reflexivity.
  1: lia.
  exists w', ra, rm'. split; [exact Hrun|]. split; [exact Hr|].
  vm_compute in Hlen, Hbytes. split; [exact Hlen|exact Hbytes].
Defined.

Lemma unsupported_atyp_witness :
  servers w_accepted !! 1%positive = Some (server_of w_accepted) ∧
  stage0 (server_of w_accepted) ∧
  e_recv e_ipv6 = RecvData (encrypted [x04; x00; x00; x00]) ∧
  ∃ w', server_recv_cb BUF_SIZE (Some 1%positive) e_ipv6 w_accepted = Ok tt w' ∧
    servers w' !! 1%positive = None ∧
    remotes w' = remotes w_accepted ∧
    trace w' = [EvClose 7].
Proof.
  split; [vm_compute; reflexivity|]. split; [exact w_accepted_stage0|].
  split; [reflexivity|].
  pose proof (unsupported_atyp_closes_session BUF_SIZE w_accepted 1
                (server_of w_accepted) e_ipv6 (encrypted [x04; x00; x00; x00])
                x04) as Hthm.
  cbv zeta in Hthm.
  destruct Hthm as (w' & Hrun & Hgone & Hrem & Htrace).
  1: (vm_compute; reflexivity).
  1: exact w_accepted_stage0.
  1: (vm_compute; reflexivity).
  1: reflexivity.
  1: (vm_compute; discriminate).
  1: (vm_compute; reflexivity).
  1-2: (vm_compute; discriminate).
  exists w'. split; [exact Hrun|]. split; [exact Hgone|]. split; [exact Hrem|].
  vm_compute in Htrace. exact Htrace.
Defined.

Lemma short_header_witness :
  servers w_accepted !! 1%positive = Some (server_of w_accepted) ∧
  stage0 (server_of w_accepted) ∧
  e_recv e_atyp_only = RecvData (encrypted [x01]) ∧
  e_connect e_atyp_only = Socket 9 ∧
  ∃ w' ra sv' rm',
    server_recv_cb BUF_SIZE (Some 1%positive) e_atyp_only w_accepted = Ok tt w' ∧
    servers w' !! 1%positive = Some sv' ∧ s_stage sv' = 4 ∧
    remotes w' !! ra = Some rm' ∧ r_buf_len rm' = 0 ∧
    trace w' =
      [EvGetaddrinfo (inet_ntoa [xc0; xa8; x01; x01]) (decimal 8080);
       EvConnect 9].
Proof.
  split; [vm_compute; reflexivity|]. split; [exact w_accepted_stage0|].
  split; [reflexivity|]. split; [reflexivity|].
  pose proof (short_header_is_not_detected BUF_SIZE w_accepted 1
                (server_of w_accepted) e_atyp_only (encrypted [x01])) as Hthm.
  cbv zeta in Hthm.
  destruct Hthm as (_ & _ & Hparsed & _).
  1: (vm_compute; reflexivity).
  1: exact w_accepted_stage0.
  1: (vm_compute; reflexivity).
  1: reflexivity.
  1: (vm_compute; discriminate).
  destruct (Hparsed (inet_ntoa [xc0; xa8; x01; x01]) (decimal 8080) 7%nat)
    as (_ & _ & Hgoes_on).
  1: (vm_compute; reflexivity).
  1: (vm_compute; lia).
  destruct (Hgoes_on 9)
    as (w' & ra & sv' & rm' & Hrun & Hs & Hst & _ & Hr & _ & Hlen & Htrace).
  1: reflexivity.
  1: lia.
  exists w', ra, sv', rm'. split; [exact Hrun|]. split; [exact Hs|].
  split; [exact Hst|]. split; [exact Hr|]. split; [exact Hlen|].
  vm_compute in Htrace. exact Htrace.
Defined.

(** The read of the address type alone is not a clean failure: the session
    goes on to resolve and connect to a target made of old buffer bytes. *)
Lemma short_header_counterexample :
  length (encrypted [x01]) = 1%nat ∧
  header_target
    (decrypted_buf (s_buf (server_of w_accepted)) (encrypted [x01])
       (s_d_ctx (server_of w_accepted)))
    = Some (inet_ntoa [xc0; xa8; x01; x01], decimal 8080, 7%nat) ∧
  ¬ ∃ w', server_recv_cb BUF_SIZE (Some 1%positive) e_atyp_only w_accepted = Ok tt w' ∧
      servers w' !! 1%positive = None ∧
      ∀ host port, EvGetaddrinfo host port ∉ trace w'.
Proof.
  split; [reflexivity|]. split; [vm_compute; reflexivity|].
  intros (w' & Hrun & Hgone & _).
  vm_compute in Hrun. injection Hrun as <-. vm_compute in Hgone. discriminate.
Qed.

Lemma free_witness :
  linked w_busy 1 (server_of w_busy) 1 (remote_of w_busy) ∧
  (∃ w', free_remote (Some 1%positive) w_busy = Ok tt w' ∧
     remotes w' !! 1%positive = None ∧
     (∃ sv', servers w' !! 1%positive = Some sv' ∧ s_remote sv' = NULL)) ∧
  (∃ w', free_server (Some 1%positive) w_busy = Ok tt w' ∧
     servers w' !! 1%positive = None ∧
     (∃ rm', remotes w' !! 1%positive = Some rm' ∧ r_server rm' = NULL)).
Proof.
  split; [apply w_busy_linked|].
  destruct (free_clears_back_reference w_busy 1 (server_of w_busy)
              1 (remote_of w_busy) w_busy_linked) as (Hr & Hs).
  split.
  - destruct Hr as (_ & w' & _ & _ & _ & Hrun & Hgone & Hpeer & _).
    exists w'. split; [exact Hrun|]. split; [exact Hgone|].
    eexists. split; [exact Hpeer|reflexivity].
  - destruct Hs as (_ & w' & _ & _ & _ & Hrun & Hgone & Hpeer & _).
    exists w'. split; [exact Hrun|]. split; [exact Hgone|].
    eexists. split; [exact Hpeer|reflexivity].
Defined.

Lemma eof_witness :
  linked w_busy 1 (server_of w_busy) 1 (remote_of w_busy) ∧
  e_recv e_eof = RecvData [] ∧
  s_buf_len (server_of w_busy) = 3 ∧ r_buf_len (remote_of w_busy) = 2 ∧
  server_recv_cb BUF_SIZE (Some 1%positive) e_eof w_busy
    = Ok tt (closed_pair w_busy 1 (server_of w_busy) 1 (remote_of w_busy)) ∧
  remote_recv_cb BUF_SIZE (Some 1%positive) e_eof w_busy
    = Ok tt (closed_pair w_busy 1 (server_of w_busy) 1 (remote_of w_busy)) ∧
  trace (closed_pair w_busy 1 (server_of w_busy) 1 (remote_of w_busy))
    = trace w_busy ++ [EvClose 9; EvClose 7].
Proof.
  split; [apply w_busy_linked|]. split; [reflexivity|].
  split; [vm_compute; reflexivity|]. split; [vm_compute; reflexivity|].
  destruct (eof_tears_down_at_once BUF_SIZE w_busy 1 (server_of w_busy)
              1 (remote_of w_busy) e_eof w_busy_linked eq_refl)
    as (Hsrv & Hrem & _ & _ & Htrace).
  split; [apply Hsrv; vm_compute; discriminate|]. split; [exact Hrem|].
  vm_compute in Htrace. vm_compute. exact Htrace.
Defined.

(** * The further statements, applied to the sample session *)

Import Traffic.

Lemma buffers_hold_a_header : (259 ≤ BUF_SIZE)%nat.
Proof. unfold BUF_SIZE. lia. Defined.

Lemma w_streaming_dispatch : dispatch BUF_SIZE w_connecting w_streaming.
Proof.
  apply (dispatch_remote_send BUF_SIZE 1 (remote_of w_connecting) e_connected);
    vm_compute; reflexivity.
Defined.

Lemma w_reset_dispatch : dispatch BUF_SIZE w_busy w_reset.
Proof.
  apply (dispatch_remote_send BUF_SIZE 1 (remote_of w_busy) e_reset);
    vm_compute; reflexivity.
Defined.

Lemma w_two_reachable : reachable BUF_SIZE w_two.
Proof.
  eapply rtc_r; [apply w_busy_reachable|].
  apply (dispatch_accept BUF_SIZE 60 e_second). vm_compute. reflexivity.
Defined.

Lemma w_idle_linked : linked w_idle 1 (server_of w_idle) 1 (remote_of w_idle).
Proof. unfold linked. split_and!; vm_compute; reflexivity. Defined.

Lemma dispatched_callbacks_witness :
  (259 ≤ BUF_SIZE)%nat ∧ reachable BUF_SIZE w_busy ∧
  s_send_io (server_of w_busy) = true ∧
  (∃ w', server_send_cb (Some 1%positive) e_reset w_busy = Ok tt w' ∧
     server_conn w' ≤ server_conn w_busy ∧ remote_conn w' ≤ remote_conn w_busy) ∧
  reachable BUF_SIZE w_accepted ∧
  ¬ reaches_new_remote BUF_SIZE (server_of w_accepted) e_unresolved ∧
  (∃ w', server_recv_cb BUF_SIZE (Some 1%positive) e_unresolved w_accepted = Ok tt w' ∧
     server_conn w' ≤ server_conn w_accepted ∧
     remote_conn w' ≤ remote_conn w_accepted).
Proof.
  assert (¬ reaches_new_remote BUF_SIZE (server_of w_accepted) e_unresolved)
    as Hfails.
  { intros (_ & data & atyp & fd & _ & _ & _ & _ & Hconn & _).
    vm_compute in Hconn. discriminate. }
  split; [exact buffers_hold_a_header|]. split; [apply w_busy_reachable|].
  split; [vm_compute; reflexivity|].
  pose proof (dispatched_callbacks_return BUF_SIZE w_busy buffers_hold_a_header
                w_busy_reachable) as Hthm.
  cbv zeta in Hthm. destruct Hthm as (_ & Hsend & _).
  split; [apply (Hsend 1%positive (server_of w_busy)); vm_compute; reflexivity|].
  split; [apply w_accepted_reachable|]. split; [exact Hfails|].
  pose proof (dispatched_callbacks_return BUF_SIZE w_accepted
                buffers_hold_a_header w_accepted_reachable) as Hthm.
  cbv zeta in Hthm. destruct Hthm as (Hrecv & _).
  apply (Hrecv 1%positive (server_of w_accepted));
    [vm_compute; reflexivity|vm_compute; reflexivity|exact Hfails].
Defined.

Lemma connection_counters_witness :
  reachable BUF_SIZE w_two ∧
  server_conn w_two = Z.of_nat (size (servers w_two)) ∧
  remote_conn w_two = Z.of_nat (size (remotes w_two)).
Proof.
  split; [apply w_two_reachable|].
  apply (connection_counters_count_live_records BUF_SIZE w_two w_two_reachable).
Defined.

Lemma stage_advances_witness :
  reachable BUF_SIZE w_connecting ∧ dispatch BUF_SIZE w_connecting w_streaming ∧
  s_stage (server_of w_connecting) = 4 ∧ s_stage (server_of w_streaming) = 5 ∧
  s_fd (server_of w_streaming) = s_fd (server_of w_connecting).
Proof.
  split; [apply w_connecting_reachable|]. split; [apply w_streaming_dispatch|].
  split; [vm_compute; reflexivity|]. split; [vm_compute; reflexivity|].
  pose proof (stage_only_advances BUF_SIZE w_connecting w_streaming 1
                (server_of w_connecting) (server_of w_streaming)
                w_connecting_reachable w_streaming_dispatch) as Hthm.
  destruct Hthm as [Hfd _].
  1-2: (vm_compute; reflexivity).
  exact Hfd.
Defined.

Lemma other_sessions_witness :
  reachable BUF_SIZE w_two ∧
  server_send_cb (Some 1%positive) e_flush w_two = Ok tt w_two_drained ∧
  servers w_two !! 2%positive = Some (second_of w_two) ∧
  servers w_two_drained !! 2%positive = Some (second_of w_two).
Proof.
  assert (server_send_cb (Some 1%positive) e_flush w_two = Ok tt w_two_drained)
    as Hrun by (vm_compute; reflexivity).
  assert (servers w_two !! 2%positive = Some (second_of w_two))
    as Hsecond by (vm_compute; reflexivity).
  split; [apply w_two_reachable|]. split; [exact Hrun|]. split; [exact Hsecond|].
  destruct (other_sessions_are_untouched BUF_SIZE w_two 1 (server_of w_two)
              e_flush w_two_drained w_two_reachable) as [Hkept _].
  - vm_compute; reflexivity.
  - right; left. split; [vm_compute; reflexivity|exact Hrun].
  - apply (Hkept 2%positive (second_of w_two)); [discriminate|exact Hsecond].
Defined.

Lemma freed_records_witness :
  reachable BUF_SIZE w_busy ∧ dispatch BUF_SIZE w_busy w_reset ∧
  ∃ evs, trace w_reset = trace w_busy ++ evs ∧
    EvClose (s_fd (server_of w_busy)) ∈ evs ∧
    EvClose (r_fd (remote_of w_busy)) ∈ evs.
Proof.
  split; [apply w_busy_reachable|]. split; [apply w_reset_dispatch|].
  destruct (freed_records_are_closed BUF_SIZE w_busy w_reset
              w_busy_reachable w_reset_dispatch) as (evs & Htr & Hs & Hr).
  exists evs. split; [exact Htr|]. split.
  - apply (Hs 1%positive); vm_compute; reflexivity.
  - apply (Hr 1%positive); vm_compute; reflexivity.
Defined.

Lemma peers_witness :
  reachable BUF_SIZE w_two ∧ links_ok w_two ∧
  (s_remote (second_of w_two) = NULL ↔ s_stage (second_of w_two) = 0).
Proof.
  split; [apply w_two_reachable|].
  destruct (peers_point_at_each_other BUF_SIZE w_two w_two_reachable)
    as (Hlinks & _ & Hstage).
  split; [exact Hlinks|].
  apply (Hstage 2%positive). vm_compute; reflexivity.
Defined.

Lemma watchers_witness :
  reachable BUF_SIZE w_connecting ∧
  servers w_connecting !! 1%positive = Some (server_of w_connecting) ∧
  (r_watcher (remote_of w_connecting) = true ↔ s_stage (server_of w_connecting) = 4).
Proof.
  split; [apply w_connecting_reachable|]. split; [vm_compute; reflexivity|].
  destruct (watchers_follow_the_stage BUF_SIZE w_connecting 1
              (server_of w_connecting) w_connecting_reachable)
    as (_ & _ & Hremote).
  - vm_compute; reflexivity.
  - destruct (Hremote 1%positive (remote_of w_connecting)) as (Htimer & _).
    1-2: (vm_compute; reflexivity).
    exact Htimer.
Defined.

Lemma buffers_witness :
  reachable BUF_SIZE w_busy ∧
  length (s_buf (server_of w_busy)) = BUF_SIZE ∧
  0 ≤ s_buf_len (server_of w_busy) ≤ Z.of_nat BUF_SIZE.
Proof.
  split; [apply w_busy_reachable|].
  destruct (buffers_stay_within_capacity BUF_SIZE w_busy w_busy_reachable)
    as (Hservers & _).
  destruct (Hservers 1%positive (server_of w_busy)) as (Hlen & Hocc & _).
  - vm_compute; reflexivity.
  - split; [exact Hlen|exact Hocc].
Defined.

Lemma client_bytes_witness :
  linked w_idle 1 (server_of w_idle) 1 (remote_of w_idle) ∧
  s_stage (server_of w_idle) = 5 ∧
  ∃ w', server_recv_cb BUF_SIZE (Some 1%positive) e_query w_idle = Ok tt w' ∧
    trace w' = trace w_idle ++ [EvSend 9 ["H"; "I"]%byte].
Proof.
  split; [apply w_idle_linked|]. split; [vm_compute; reflexivity|].
  pose proof (client_bytes_are_decrypted_and_forwarded BUF_SIZE w_idle 1
                (server_of w_idle) 1 (remote_of w_idle) e_query
                (encrypted ["H"; "I"]%byte) 100 w_idle_linked) as Hthm.
  cbv zeta in Hthm.
  destruct Hthm as (w' & Hrun & Htr & _).
  1-3: (vm_compute; reflexivity).
  1: (vm_compute; discriminate).
  1: reflexivity.
  1: (vm_compute; lia).
  exists w'. split; [exact Hrun|].
  match type of Htr with _ = _ ++ [?ev] =>
    replace ev with (EvSend 9 ["H"; "I"]%byte) in Htr by (vm_compute; reflexivity)
  end.
  exact Htr.
Defined.

Lemma upstream_bytes_witness :
  linked w_idle 1 (server_of w_idle) 1 (remote_of w_idle) ∧
  ∃ w', remote_recv_cb BUF_SIZE (Some 1%positive) e_reply w_idle = Ok tt w' ∧
    trace w' = trace w_idle ++ [EvSend 7 (encrypted ["O"; "K"; "!"]%byte)].
Proof.
  split; [apply w_idle_linked|].
  pose proof (upstream_bytes_are_encrypted_and_forwarded BUF_SIZE w_idle 1
                (server_of w_idle) 1 (remote_of w_idle) e_reply
                ["O"; "K"; "!"]%byte 100 w_idle_linked) as Hthm.
  cbv zeta in Hthm.
  destruct Hthm as (w' & Hrun & Htr & _).
  1-2: (vm_compute; reflexivity).
  1: (vm_compute; discriminate).
  1: reflexivity.
  1: (vm_compute; lia).
  exists w'. split; [exact Hrun|].
  match type of Htr with _ = _ ++ [?ev] =>
    replace ev with (EvSend 7 (encrypted ["O"; "K"; "!"]%byte)) in Htr
      by (vm_compute; reflexivity)
  end.
  exact Htr.
Defined.

Lemma read_would_block_witness :
  e_recv e_accepted = RecvErr EAGAIN ∧
  servers w_accepted !! 1%positive = Some (server_of w_accepted) ∧
  s_stage (server_of w_accepted) = 0 ∧
  server_recv_cb BUF_SIZE (Some 1%positive) e_accepted w_accepted
    = Ok tt w_accepted ∧
  server_recv_cb BUF_SIZE (Some 1%positive) e_accepted w_busy = Ok tt w_busy ∧
  remote_recv_cb BUF_SIZE (Some 1%positive) e_accepted w_busy = Ok tt w_busy.
Proof.
  assert (servers w_accepted !! 1%positive = Some (server_of w_accepted))
    as Hfirst by (vm_compute; reflexivity).
  split; [reflexivity|]. split; [exact Hfirst|]. split; [reflexivity|].
  destruct (read_would_block_changes_nothing BUF_SIZE w_accepted e_accepted
              EAGAIN eq_refl (or_introl eq_refl)) as (Hstage0 & _).
  destruct (read_would_block_changes_nothing BUF_SIZE w_busy e_accepted
              EAGAIN eq_refl (or_introl eq_refl)) as (Hclient & Hupstream).
  destruct w_busy_linked as (Hs & Hr & _ & Hback).
  split; [exact (Hstage0 1%positive (server_of w_accepted) Hfirst)|].
  split; [exact (Hclient 1%positive (server_of w_busy) Hs)|].
  apply (Hupstream 1%positive (remote_of w_busy) Hr).
  rewrite Hback. discriminate.
Defined.

Lemma read_error_witness :
  linked w_busy 1 (server_of w_busy) 1 (remote_of w_busy) ∧
  e_recv e_reset = RecvErr 104 ∧
  server_recv_cb BUF_SIZE (Some 1%positive) e_reset w_busy
    = Ok tt (closed_pair w_busy 1 (server_of w_busy) 1 (remote_of w_busy)) ∧
  remote_recv_cb BUF_SIZE (Some 1%positive) e_reset w_busy
    = Ok tt (closed_pair w_busy 1 (server_of w_busy) 1 (remote_of w_busy)).
Proof.
  split; [apply w_busy_linked|]. split; [reflexivity|].
  destruct (read_error_tears_down BUF_SIZE w_busy 1 (server_of w_busy)
              1 (remote_of w_busy) e_reset 104 w_busy_linked eq_refl)
    as (Hsrv & Hrem).
  1-2: (vm_compute; discriminate).
  split; [apply Hsrv; vm_compute; discriminate|exact Hrem].
Defined.

Lemma close_before_header_witness :
  servers w_accepted !! 1%positive = Some (server_of w_accepted) ∧
  stage0 (server_of w_accepted) ∧ e_recv e_eof = RecvData [] ∧
  server_recv_cb BUF_SIZE (Some 1%positive) e_eof w_accepted
    = Ok tt (closed_server w_accepted 1 (server_of w_accepted)) ∧
  remote_conn (closed_server w_accepted 1 (server_of w_accepted))
    = remote_conn w_accepted.
Proof.
  split; [vm_compute; reflexivity|]. split; [exact w_accepted_stage0|].
  split; [reflexivity|].
  destruct (close_before_header_frees_the_client_only BUF_SIZE w_accepted 1
              (server_of w_accepted) e_eof) as (Hrun & _ & Hcount & _).
  - vm_compute; reflexivity.
  - exact w_accepted_stage0.
  - by left.
  - split; [exact Hrun|exact Hcount].
Defined.

Lemma blocked_send_witness :
  linked w_idle 1 (server_of w_idle) 1 (remote_of w_idle) ∧
  e_send e_blocked = SendErr EAGAIN ∧
  ∃ w' rm', server_recv_cb BUF_SIZE (Some 1%positive) e_blocked w_idle = Ok tt w' ∧
    trace w' = trace w_idle ∧ remotes w' !! 1%positive = Some rm' ∧
    r_buf_len rm' = 2 ∧ take 2 (r_buf rm') = ["H"; "I"]%byte ∧
    r_send_io rm' = true.
Proof.
  split; [apply w_idle_linked|]. split; [reflexivity|].
  pose proof (blocked_send_keeps_all_bytes BUF_SIZE w_idle 1
                (server_of w_idle) 1 (remote_of w_idle) e_blocked
                (encrypted ["H"; "I"]%byte) EAGAIN w_idle_linked) as Hthm.
  cbv zeta in Hthm.
  destruct Hthm as ((w' & Hrun & Htr & _ & Hrm) & _).
  1-3: (vm_compute; reflexivity).
  1: reflexivity.
  1: (vm_compute; discriminate).
  1: reflexivity.
  1: by left.
  eexists w', _. split; [exact Hrun|]. split; [exact Htr|]. split; [exact Hrm|].
  split_and!; vm_compute; reflexivity.
Defined.

Lemma send_error_after_read_witness :
  linked w_idle 1 (server_of w_idle) 1 (remote_of w_idle) ∧
  e_send e_broken = SendErr 104 ∧
  ∃ w1, server_recv_cb BUF_SIZE (Some 1%positive) e_broken w_idle = Ok tt w1 ∧
    servers w1 !! 1%positive = None ∧ remotes w1 !! 1%positive = None.
Proof.
  split; [apply w_idle_linked|]. split; [reflexivity|].
  destruct (send_error_after_read_tears_down BUF_SIZE w_idle 1
              (server_of w_idle) 1 (remote_of w_idle) e_broken
              (encrypted ["H"; "I"]%byte) 104 w_idle_linked)
    as (w1 & w2 & Hrun & _ & Hs & Hr & _).
  1-3: (vm_compute; reflexivity).
  1: reflexivity.
  1: (vm_compute; discriminate).
  1: reflexivity.
  1-2: (vm_compute; discriminate).
  exists w1. split; [exact Hrun|]. split; [exact Hs|exact Hr].
Defined.

Lemma complete_drain_witness :
  linked w_busy 1 (server_of w_busy) 1 (remote_of w_busy) ∧
  e_send e_flush = SendAccept 100 ∧ s_buf_len (server_of w_busy) = 3 ∧
  ∃ w', server_send_cb (Some 1%positive) e_flush w_busy = Ok tt w' ∧
    trace w' = trace w_busy ++ [EvSend 7 (encrypted ["O"; "K"; "!"]%byte)] ∧
    remotes w' !! 1%positive = Some (set_r_recv_io true (remote_of w_busy)).
Proof.
  split; [apply w_busy_linked|]. split; [reflexivity|].
  split; [vm_compute; reflexivity|].
  destruct (complete_drain_reopens_the_source w_busy 1 (server_of w_busy)
              1 (remote_of w_busy) e_flush 100 w_busy_linked) as (Hsrv & _).
  1: (vm_compute; reflexivity).
  1: reflexivity.
  destruct Hsrv as (w' & Hrun & Htr & _ & Hrm).
  1: (vm_compute; split; [reflexivity|discriminate]).
  1: (vm_compute; discriminate).
  exists w'. split; [exact Hrun|]. split; [|exact Hrm].
  match type of Htr with _ = _ ++ [?ev] =>
    replace ev with (EvSend 7 (encrypted ["O"; "K"; "!"]%byte)) in Htr
      by (vm_compute; reflexivity)
  end.
  exact Htr.
Defined.

Lemma w_backlog_linked :
  linked w_backlog 1 (server_of w_backlog) 1 (remote_of w_backlog).
Proof. unfold linked. split_and!; vm_compute; reflexivity. Defined.

Lemma send_error_in_drain_witness :
  linked w_backlog 1 (server_of w_backlog) 1 (remote_of w_backlog) ∧
  s_buf_len (server_of w_backlog) = 3 ∧ r_buf_len (remote_of w_backlog) = 0 ∧
  e_send e_accepted = SendErr EAGAIN ∧ e_send e_reset = SendErr 104 ∧
  server_send_cb (Some 1%positive) e_accepted w_backlog = Ok tt w_backlog ∧
  server_send_cb (Some 1%positive) e_reset w_backlog
    = Ok tt (closed_pair w_backlog 1 (server_of w_backlog) 1 (remote_of w_backlog)) ∧
  remote_send_cb (Some 1%positive) e_accepted w_busy = Ok tt w_busy.
Proof.
  split; [apply w_backlog_linked|]. split; [vm_compute; reflexivity|].
  split; [vm_compute; reflexivity|]. split; [reflexivity|]. split; [reflexivity|].
  destruct (send_error_in_drain w_backlog 1 (server_of w_backlog)
              1 (remote_of w_backlog) e_accepted EAGAIN w_backlog_linked eq_refl)
    as ((Hagain & _) & _).
  1: (vm_compute; split; [reflexivity|discriminate]).
  destruct (send_error_in_drain w_backlog 1 (server_of w_backlog)
              1 (remote_of w_backlog) e_reset 104 w_backlog_linked eq_refl)
    as ((_ & Hhard) & _).
  1: (vm_compute; split; [reflexivity|discriminate]).
  destruct (send_error_in_drain w_busy 1 (server_of w_busy)
              1 (remote_of w_busy) e_accepted EAGAIN w_busy_linked eq_refl)
    as (_ & Hupstream).
  destruct Hupstream as (Hup_again & _).
  1: (vm_compute; reflexivity).
  1: (vm_compute; split; [reflexivity|discriminate]).
  split; [apply Hagain; by left|].
  split; [apply Hhard; vm_compute; discriminate|].
  apply Hup_again. by left.
Defined.

Lemma drain_in_order_witness :
  linked w_busy 1 (server_of w_busy) 1 (remote_of w_busy) ∧
  e_send <$> [e_eof] = SendAccept <$> [1%nat] ∧ e_send e_flush = SendAccept 100 ∧
  ∃ w' chunks,
    run_all (server_send_cb (Some 1%positive)) ([e_eof] ++ [e_flush]) w_busy
      = Ok tt w' ∧
    trace w' = trace w_busy ++ (EvSend (s_fd (server_of w_busy)) <$> chunks) ∧
    concat chunks = encrypted ["O"; "K"; "!"]%byte ∧ length chunks = 2%nat.
Proof.
  split; [apply w_busy_linked|]. split; [reflexivity|]. split; [reflexivity|].
  pose proof (drain_delivers_every_byte_in_order w_busy 1 (server_of w_busy)
                1 (remote_of w_busy) [e_eof] [1%nat] e_flush 100
                w_busy_linked) as Hthm.
  cbv zeta in Hthm.
  destruct Hthm as (w' & sv' & chunks & Hrun & Htr & Hcat & Hcount & _).
  1: (vm_compute; split; [reflexivity|discriminate]).
  1-2: reflexivity.
  1: (vm_compute; split; [reflexivity|discriminate]).
  exists w', chunks. split; [exact Hrun|]. split; [exact Htr|].
  split; [|exact Hcount]. rewrite Hcat. vm_compute. reflexivity.
Defined.

Lemma domain_header_witness :
  servers w_accepted !! 1%positive = Some (server_of w_accepted) ∧
  stage0 (server_of w_accepted) ∧
  ∃ w', server_recv_cb BUF_SIZE (Some 1%positive) e_domain w_accepted = Ok tt w' ∧
    trace w' !! 0%nat = Some (EvGetaddrinfo ["a"; "b"]%byte (decimal 443)).
Proof.
  split; [vm_compute; reflexivity|]. split; [exact w_accepted_stage0|].
  pose proof (domain_header_names_the_target BUF_SIZE w_accepted 1
                (server_of w_accepted) e_domain
                (encrypted [x03; x02; "a"; "b"; x01; xbb]%byte)
                x03 x02 x01 xbb) as Hthm.
  cbv zeta in Hthm.
  destruct Hthm as (w' & Hrun & Htrace & _).
  1: (vm_compute; reflexivity).
  1: exact w_accepted_stage0.
  1: (vm_compute; reflexivity).
  1: reflexivity.
  1: (vm_compute; discriminate).
  1-5: (vm_compute; reflexivity).
  exists w'. split; [exact Hrun|]. vm_compute in Htrace. exact Htrace.
Defined.

Lemma failed_connect_witness :
  servers w_accepted !! 1%positive = Some (server_of w_accepted) ∧
  stage0 (server_of w_accepted) ∧ e_connect e_unresolved = GaiErr ∧
  ∃ w', server_recv_cb BUF_SIZE (Some 1%positive) e_unresolved w_accepted = Ok tt w' ∧
    servers w' !! 1%positive = None ∧ remotes w' = remotes w_accepted.
Proof.
  split; [vm_compute; reflexivity|]. split; [exact w_accepted_stage0|].
  split; [reflexivity|].
  pose proof (failed_connect_closes_client BUF_SIZE w_accepted 1
                (server_of w_accepted) e_unresolved request
                (inet_ntoa [x7f; x00; x00; x01]) (decimal 80) 7) as Hthm.
  cbv zeta in Hthm.
  destruct Hthm as (Hgai & _).
  1: (vm_compute; reflexivity).
  1: exact w_accepted_stage0.
  1: (vm_compute; reflexivity).
  1: reflexivity.
  1: (vm_compute; discriminate).
  1: (vm_compute; reflexivity).
  destruct (Hgai eq_refl) as (w' & Hrun & Hgone & Hrem & _).
  exists w'. split; [exact Hrun|]. split; [exact Hgone|exact Hrem].
Defined.

Lemma connect_timeout_witness :
  linked w_connecting 1 (server_of w_connecting) 1 (remote_of w_connecting) ∧
  r_watcher (remote_of w_connecting) = true ∧
  remote_timeout_cb (Some 1%positive) w_connecting
    = Ok tt (closed_pair w_connecting 1 (server_of w_connecting)
               1 (remote_of w_connecting)).
Proof.
  split; [apply w_connecting_linked|]. split; [vm_compute; reflexivity|].
  apply (connect_timeout_tears_down w_connecting 1 (server_of w_connecting)
           1 (remote_of w_connecting) w_connecting_linked).
Defined.

Lemma accept_cb_witness :
  e_accept e_second ≠ -1 ∧
  ∃ w' sa sv, accept_cb BUF_SIZE 60 e_second w_busy = Ok tt w' ∧
    servers w_busy !! sa = None ∧ servers w' = <[sa := sv]> (servers w_busy) ∧
    stage0 sv ∧ s_fd sv = 8 ∧ s_timeout sv = 60.
Proof.
  assert (e_accept e_second ≠ -1) as Hok by (vm_compute; discriminate).
  split; [exact Hok|].
  destruct (accept_cb_opens_a_session BUF_SIZE w_busy 60 e_second) as (_ & Hnew).
  destruct (Hnew Hok)
    as (w' & sa & sv & Hrun & Hfree & Hservers & _ & _ & _ & Hst & Hfd & Hto & _).
  exists w', sa, sv. by split_and!.
Defined.

Section StartupSample.
Import Startup.

Lemma create_and_bind_witness :
  (create_and_bind "::" "8388" 0 two_addresses).1 = 6.
Proof.
  destruct (create_and_bind_takes_the_first_usable "::" "8388" 0 two_addresses)
    as (_ & _ & Hfirst).
  destruct (Hfirst [Candidate (-1) 0 0; Candidate 5 0 (-1)] (Candidate 6 0 0)
              [Candidate 7 0 0]) as (Hfd & _).
  - reflexivity.
  - reflexivity.
  - repeat constructor; intros [? ?]; cbn in *; congruence.
  - split; cbn; congruence.
  - exact Hfd.
Defined.

Lemma create_and_bind_closes_witness :
  opened (create_and_bind "::" "8388" 0 two_addresses).2
    = closed (create_and_bind "::" "8388" 0 two_addresses).2 ++ [6] ∧
  (create_and_bind "::" "8388" 0 two_addresses).2
    = [SysGetaddrinfo "::" "8388"; SysSocket (-1);
       SysSocket 5; SysSetsockopt 5; SysBind 5; SysClose 5;
       SysSocket 6; SysSetsockopt 6; SysBind 6; SysFreeaddrinfo].
Proof.
  destruct (create_and_bind_closes_what_it_gives_up "::" "8388" 0 two_addresses)
    as (_ & Hgood).
  destruct Hgood as (Hbal & _); [vm_compute; discriminate|].
  split; [exact Hbal|]. vm_compute. reflexivity.
Defined.

Lemma setnonblocking_witness :
  setnonblocking 2048 3 2 0 = (0, [SysGetfl 3; SysSetfl 3 2050]) ∧
  setnonblocking 2048 3 (-1) 0 = (0, [SysGetfl 3; SysSetfl 3 2048]).
Proof.
  destruct (setnonblocking_adds_the_flag 2048 3 2 0) as (flags & Hrun & _).
  destruct (setnonblocking_adds_the_flag 2048 3 (-1) 0) as (flags' & Hrun' & _ & Hfail & _).
  split.
  - rewrite Hrun. injection Hrun as <-. reflexivity.
  - rewrite Hrun', (Hfail eq_refl). reflexivity.
Defined.

End StartupSample.

Section SettingsSample.
Import Settings.

Lemma option_loop_witness :
  ∃ v, getopt_loop 10 sample_args no_settings = Some v ∧
    server_host v = ["0.0.0.0"%string] ∧ server_port v = Some "8389"%string ∧
    password v = None ∧ conf_path v = Some "config.json"%string.
Proof.
  destruct (option_loop_reads_the_command_line 10 sample_args) as (Hfit & _).
  destruct Hfit as (v & Hrun & Hhost & Hport & Hpass & _ & _ & Hconf & _).
  { vm_compute. lia. }
  exists v. split; [exact Hrun|]. rewrite Hhost, Hport, Hpass, Hconf.
  split_and!; vm_compute; reflexivity.
Defined.

Lemma command_line_precedes_witness :
  ∃ v, main_settings 10 sample_args sample_conf = Configured v ∧
    server_host v = ["0.0.0.0"%string] ∧ server_port v = Some "8389"%string ∧
    password v = Some "secret"%string ∧ timeout v = Some "60"%string.
Proof.
  assert (∃ v0, getopt_loop 10 sample_args no_settings = Some v0) as (v0 & Hopts).
  { eexists. vm_compute. reflexivity. }
  assert (∃ v, main_settings 10 sample_args sample_conf = Configured v) as (v & Hmain).
  { eexists. vm_compute. reflexivity. }
  exists v. split; [exact Hmain|].
  destruct (command_line_precedes_the_config_file 10 sample_args sample_conf v0 v
              Hopts Hmain) as (Hhost & Hport & _ & _ & _ & Hfile & _).
  vm_compute in Hopts. injection Hopts as <-.
  split_and!.
  - apply Hhost. discriminate.
  - apply Hport. reflexivity.
  - destruct (Hfile "config.json"%string eq_refl) as (_ & _ & Hpass & _).
    apply Hpass. reflexivity.
  - destruct (Hfile "config.json"%string eq_refl) as (_ & _ & _ & _ & Htime).
    apply Htime. reflexivity.
Defined.

Lemma incomplete_settings_witness :
  main_settings 10 [("p"%char, "8388"%string)] sample_conf = UsageExit ∧
  ∀ v, main_settings 10 sample_args sample_conf = Configured v →
    is_Some (password v).
Proof.
  split.
  - destruct (incomplete_settings_end_in_usage 10 [("p"%char, "8388"%string)]
                sample_conf) as (_ & Husage).
    apply Husage.
    + vm_compute. lia.
    + reflexivity.
    + left. reflexivity.
  - intros v Hmain.
    destruct (incomplete_settings_end_in_usage 10 sample_args sample_conf)
      as (Hfull & _).
    destruct (Hfull v Hmain) as (_ & _ & _ & Hpass & _). exact Hpass.
Defined.

End SettingsSample.
